(** * lambda_function.py: the blog-generation request handler

    A shallow embedding of [src/lambda_function.py] and of the parts of the
    Python runtime it calls (str methods, [base64.b64decode], the UTF-8
    codec, [json.loads], [json.dumps], [datetime.strftime]), followed by
    the properties of the handler.

    Conventions.
    - A Python [str] is the list of its code points, a [bytes] object the
      list of its byte values; both are [list Z].
    - A call that may raise returns a [result]: [Return v] or [Raise e].
    - The two remote services (Bedrock [invoke_model], S3 [put_object]),
      the clock, the process environment and the interpreter limits are
      fields of a [World]; the handler threads the list of remote calls it
      has made, newest last. *)

From Stdlib Require Import ZArith List Bool Lia String Ascii SpecFloat.
Import ListNotations.
Local Open Scope Z_scope.

(** ** Python text, exceptions and values *)

Module Py.

Definition str := list Z.
Definition bytes := list Z.

(** Code point of an ASCII character, and the [str] of an ASCII literal. *)
Definition ch (a : ascii) : Z := Z.of_N (N_of_ascii a).
Arguments ch a%_char.

Definition u (s : string) : str := List.map ch (list_ascii_of_string s).
Arguments u s%_string.

(** The double quote. *)
Definition dquote : Z := 0x22.

(** The [str] of an ASCII literal in which every apostrophe stands for a
    double quote: [uq "{'a': 1}"] is the text of the JSON object
    with the key [a] and the value 1. *)
Definition uq (s : string) : str :=
  List.map (fun c => if c =? ch "'" then dquote else c) (u s).
Arguments uq s%_string.

Fixpoint str_eqb (a b : str) : bool :=
  match a, b with
  | [], [] => true
  | x :: a', y :: b' => (x =? y) && str_eqb a' b'
  | _, _ => false
  end.

(** Exception classes the program can meet.  [ServiceError] stands for any
    other subclass of [Exception] (botocore's [ClientError], a timeout, ...);
    [NonException] for a [BaseException] outside [Exception]
    ([KeyboardInterrupt], [SystemExit]), which [except Exception] lets
    through. *)
Inductive exc_class :=
| JSONDecodeError | BinasciiError | ValueError | TypeError | AttributeError
| UnicodeDecodeError | UnicodeEncodeError | RecursionError
| ServiceError | NonException.

Definition exc_class_eqb (a b : exc_class) : bool :=
  match a, b with
  | JSONDecodeError, JSONDecodeError | BinasciiError, BinasciiError
  | ValueError, ValueError | TypeError, TypeError
  | AttributeError, AttributeError | UnicodeDecodeError, UnicodeDecodeError
  | UnicodeEncodeError, UnicodeEncodeError | RecursionError, RecursionError
  | ServiceError, ServiceError | NonException, NonException => true
  | _, _ => false
  end.

(** An exception object: its class and [str(e)]. *)
Record exc := mkExc { exc_cls : exc_class; exc_str : str }.

(** [except Exception] catches everything but [NonException]. *)
Definition is_Exception (e : exc) : bool :=
  negb (exc_class_eqb (exc_cls e) NonException).

Inductive result (A : Type) :=
| Return (a : A)
| Raise (e : exc).
Arguments Return {A} a.
Arguments Raise {A} e.

Definition bind {A B} (m : result A) (k : A -> result B) : result B :=
  match m with
  | Return a => k a
  | Raise e => Raise e
  end.

Definition raise {A} (c : exc_class) (msg : string) : result A :=
  Raise (mkExc c (u msg)).

(** Python objects as JSON produces them (and as the Lambda runtime hands
    over the event).  A [dict] is an association list in insertion order;
    lookup takes the first binding of a key. *)
#[warnings="-register-all"]
Inductive pyval :=
| PNone
| PBool (b : bool)
| PInt (n : Z)
| PFloat (f : spec_float)
| PStr (s : str)
| PList (l : list pyval)
| PDict (d : list (str * pyval)).

Definition dict := list (str * pyval).

Fixpoint dict_lookup {V : Type} (d : list (str * V)) (k : str) : option V :=
  match d with
  | [] => None
  | (k', v) :: d' => if str_eqb k' k then Some v else dict_lookup d' k
  end.

(** [d[k] = v]: replaces the value of an existing key in place, appends a
    new key. *)
Fixpoint dict_set {V : Type} (d : list (str * V)) (k : str) (v : V)
    : list (str * V) :=
  match d with
  | [] => [(k, v)]
  | (k', v') :: d' =>
      if str_eqb k' k then (k', v) :: d' else (k', v') :: dict_set d' k v
  end.

(** [k in d] *)
Definition dict_contains (d : dict) (k : str) : bool :=
  match dict_lookup d k with Some _ => true | None => false end.

(** [d.get(k)], with the default [None]. *)
Definition dict_get (d : dict) (k : str) : pyval :=
  match dict_lookup d k with Some v => v | None => PNone end.

(** Truth value of an object, as [if], [not] and [or] test it. *)
Definition truthy (v : pyval) : bool :=
  match v with
  | PNone => false
  | PBool b => b
  | PInt n => negb (n =? 0)
  | PFloat (S754_zero _) => false
  | PFloat _ => true
  | PStr s => match s with [] => false | _ => true end
  | PList l => match l with [] => false | _ => true end
  | PDict d => match d with [] => false | _ => true end
  end.

(** [a or b] *)
Definition py_or (a b : pyval) : pyval := if truthy a then a else b.

(** Name of the type of an object, as error messages print it. *)
Definition type_name (v : pyval) : str :=
  match v with
  | PNone => u "NoneType" | PBool _ => u "bool" | PInt _ => u "int"
  | PFloat _ => u "float" | PStr _ => u "str" | PList _ => u "list"
  | PDict _ => u "dict"
  end.

Definition no_attribute {A} (v : pyval) (attr : string) : result A :=
  Raise (mkExc AttributeError
           (u "'" ++ type_name v ++ u "' object has no attribute '"
              ++ u attr ++ u "'")).

(** [v.get(k)]: only a dict has the method. *)
Definition method_get (v : pyval) (k : str) : result pyval :=
  match v with
  | PDict d => Return (dict_get d k)
  | _ => no_attribute v "get"
  end.

(** [str.isspace] on one code point: the characters [str.strip()] removes.
    This is CPython's [_PyUnicode_IsWhitespace]. *)
Definition isspace (c : Z) : bool :=
  ((0x09 <=? c) && (c <=? 0x0D)) || ((0x1C <=? c) && (c <=? 0x20))
  || (c =? 0x85) || (c =? 0xA0) || (c =? 0x1680)
  || ((0x2000 <=? c) && (c <=? 0x200A))
  || (c =? 0x2028) || (c =? 0x2029) || (c =? 0x202F) || (c =? 0x205F)
  || (c =? 0x3000).

Fixpoint lstrip (s : str) : str :=
  match s with
  | c :: s' => if isspace c then lstrip s' else s
  | [] => []
  end.

Definition rstrip (s : str) : str := rev (lstrip (rev s)).

(** [s.strip()] *)
Definition strip (s : str) : str := rstrip (lstrip s).

(** [v.strip()]: only a str has the method (no bytes value occurs here). *)
Definition method_strip (v : pyval) : result str :=
  match v with
  | PStr s => Return (strip s)
  | _ => no_attribute v "strip"
  end.

Definition is_ascii_digit (c : Z) : bool := (ch "0" <=? c) && (c <=? ch "9").

Definition is_ascii_alnum (c : Z) : bool :=
  is_ascii_digit c
  || ((ch "A" <=? c) && (c <=? ch "Z"))
  || ((ch "a" <=? c) && (c <=? ch "z")).

(** [c.isalnum()]: decided here for ASCII; beyond ASCII it is a lookup in
    the Unicode character database, which is the parameter [ucd]. *)
Definition isalnum (ucd : Z -> bool) (c : Z) : bool :=
  if c <? 0x80 then is_ascii_alnum c else ucd c.

(** Decimal digits of a natural number, most significant first.  The fuel
    bounds the number of digits; a number has no more decimal digits than
    binary ones. *)
Fixpoint digits_fuel (fuel : nat) (n : Z) (acc : str) : str :=
  match fuel with
  | O => acc
  | S f =>
      let acc' := (ch "0" + n mod 10) :: acc in
      if n <? 10 then acc' else digits_fuel f (n / 10) acc'
  end.

(** [str(n)] for an int. *)
Definition str_of_int (n : Z) : str :=
  if n <? 0 then ch "-" :: digits_fuel (S (Z.to_nat (Z.log2 (- n)))) (- n) []
  else digits_fuel (S (Z.to_nat (Z.log2 n))) n [].

(** A number printed with at least [w] digits, zero-padded ([%02d]). *)
Definition zero_pad (w : nat) (n : Z) : str :=
  let d := str_of_int n in
  repeat (ch "0") (w - List.length d)%nat ++ d.

End Py.

Import Py.

(** ** [base64.b64decode] *)

Module Base64.

(** [binascii]'s decoding table: the 6-bit value of a base64 digit. *)
Definition table_a2b_base64 (c : Z) : option Z :=
  if (ch "A" <=? c) && (c <=? ch "Z") then Some (c - ch "A")
  else if (ch "a" <=? c) && (c <=? ch "z") then Some (c - ch "a" + 26)
  else if (ch "0" <=? c) && (c <=? ch "9") then Some (c - ch "0" + 52)
  else if c =? ch "+" then Some 62
  else if c =? ch "/" then Some 63
  else None.

(** A value stored into an [unsigned char]. *)
Definition uchar (z : Z) : Z := Z.land z 0xFF.

(** [binascii.a2b_base64(data, strict_mode=False)]: the loop over the input
    with its four variables; [out] is the output so far, newest first.
    Characters outside the alphabet are skipped; a pad character ends the
    input once the quad it closes is complete; input that ends inside a
    quad is an error. *)
Fixpoint a2b_base64_loop (data : bytes) (quad_pos leftchar pads : Z)
    (out : bytes) : result bytes :=
  match data with
  | [] =>
      if quad_pos =? 0 then Return (rev out)
      else if quad_pos =? 1 then
        Raise (mkExc BinasciiError
                 (u "Invalid base64-encoded string: number of data characters ("
                    ++ str_of_int (Z.of_nat (List.length out) / 3 * 4 + 1)
                    ++ u ") cannot be 1 more than a multiple of 4"))
      else raise BinasciiError "Incorrect padding"
  | this_ch :: rest =>
      if this_ch =? ch "=" then
        if 2 <=? quad_pos then
          if 4 <=? quad_pos + (pads + 1) then Return (rev out)
          else a2b_base64_loop rest quad_pos leftchar (pads + 1) out
        else a2b_base64_loop rest quad_pos leftchar pads out
      else
        match table_a2b_base64 this_ch with
        | None => a2b_base64_loop rest quad_pos leftchar pads out
        | Some v =>
            if quad_pos =? 0 then a2b_base64_loop rest 1 v 0 out
            else if quad_pos =? 1 then
              a2b_base64_loop rest 2 (Z.land v 0x0F) 0
                (uchar (Z.lor (Z.shiftl leftchar 2) (Z.shiftr v 4)) :: out)
            else if quad_pos =? 2 then
              a2b_base64_loop rest 3 (Z.land v 0x03) 0
                (uchar (Z.lor (Z.shiftl leftchar 4) (Z.shiftr v 2)) :: out)
            else
              a2b_base64_loop rest 0 0 0
                (uchar (Z.lor (Z.shiftl leftchar 6) v) :: out)
        end
  end.

Definition a2b_base64 (data : bytes) : result bytes :=
  a2b_base64_loop data 0 0 0 [].

(** [s.encode('ascii')] inside [b64decode]; a non-ASCII character makes
    [b64decode] raise [ValueError]. *)
Definition bytes_from_decode_data (s : str) : result bytes :=
  if forallb (fun c => c <? 0x80) s then Return s
  else raise ValueError "string argument should contain only ASCII characters".

(** [b64decode(s)] for a str argument. *)
Definition b64decode_str (s : str) : result bytes :=
  bind (bytes_from_decode_data s) a2b_base64.

(** [b64decode(v)]: an object that is neither a str nor bytes-like is a
    [TypeError]. *)
Definition b64decode (v : pyval) : result bytes :=
  match v with
  | PStr s => b64decode_str s
  | _ =>
      Raise (mkExc TypeError
               (u "argument should be a bytes-like object or ASCII string, not '"
                  ++ type_name v ++ u "'"))
  end.

End Base64.

(** ** The UTF-8 codec and [json.detect_encoding] *)

Module Codecs.

(** The [errors] argument of [bytes.decode]. *)
Inductive error_handler := Strict | Replace | SurrogatePass.

Definition hex_digit (d : Z) : Z :=
  if d <? 10 then ch "0" + d else ch "a" + (d - 10).

(** [str(e)] of a [UnicodeDecodeError] of the utf-8 codec over the bytes
    [start, stop) whose first byte is [b]. *)
Definition decode_error (b start stop : Z) (reason : string) : exc :=
  mkExc UnicodeDecodeError
    (if stop =? start + 1 then
       u "'utf-8' codec can't decode byte 0x"
         ++ [hex_digit (b / 16); hex_digit (b mod 16)]
         ++ u " in position " ++ str_of_int start ++ u ": " ++ u reason
     else
       u "'utf-8' codec can't decode bytes in position "
         ++ str_of_int start ++ u "-" ++ str_of_int (stop - 1)
         ++ u ": " ++ u reason).

Definition is_continuation (b : Z) : bool := (0x80 <=? b) && (b <? 0xC0).

(** What the decoder does with the malformed bytes [start, start + n):
    [Replace] writes U+FFFD and goes on with [k], the decoding of what
    follows them; the others raise.  ([SurrogatePass] has accepted an
    encoded surrogate before this point.) *)
Definition on_error (h : error_handler) (b start n : Z) (reason : string)
    (k : result str) : result str :=
  match h with
  | Replace => bind k (fun t => Return (0xFFFD :: t))
  | _ => Raise (decode_error b start (start + n) reason)
  end.

Definition emit (c : Z) (k : result str) : result str :=
  bind k (fun t => Return (c :: t)).

(** [data.decode("utf-8", errors=h)], [pos] being the index of the first
    byte of [data] in the whole input.  The cases are those of CPython's
    [utf8_decode]: an invalid start byte is an error of one byte, an
    invalid continuation byte an error of the bytes before it, and input
    that ends inside a sequence an error of all that remains. *)
Fixpoint utf8_decode (h : error_handler) (pos : Z) (data : bytes)
    : result str :=
  match data with
  | [] => Return []
  | b1 :: r1 =>
    let to_end := Z.of_nat (List.length data) in
    if b1 <? 0x80 then emit b1 (utf8_decode h (pos + 1) r1)
    else if b1 <? 0xC2 then
      on_error h b1 pos 1 "invalid start byte" (utf8_decode h (pos + 1) r1)
    else if b1 <? 0xE0 then
      match r1 with
      | [] => on_error h b1 pos to_end "unexpected end of data" (Return [])
      | b2 :: r2 =>
        if is_continuation b2 then
          emit (Z.shiftl b1 6 + b2 - (Z.shiftl 0xC0 6 + 0x80))
               (utf8_decode h (pos + 2) r2)
        else on_error h b1 pos 1 "invalid continuation byte"
               (utf8_decode h (pos + 1) r1)
      end
    else if b1 <? 0xF0 then
      match r1 with
      | [] => on_error h b1 pos to_end "unexpected end of data" (Return [])
      | b2 :: r2 =>
        if negb (is_continuation b2)
           || (if b2 <? 0xA0 then b1 =? 0xE0 else b1 =? 0xED) then
          match h, r2 with
          | SurrogatePass, b3 :: r3 =>
            if (b1 =? 0xED) && is_continuation b2 && is_continuation b3 then
              emit (Z.shiftl (Z.land b1 0x0F) 12 + Z.shiftl (Z.land b2 0x3F) 6
                    + Z.land b3 0x3F)
                   (utf8_decode h (pos + 3) r3)
            else on_error h b1 pos 1 "invalid continuation byte"
                   (utf8_decode h (pos + 1) r1)
          | _, _ => on_error h b1 pos 1 "invalid continuation byte"
                      (utf8_decode h (pos + 1) r1)
          end
        else
          match r2 with
          | [] => on_error h b1 pos to_end "unexpected end of data" (Return [])
          | b3 :: r3 =>
            if is_continuation b3 then
              emit (Z.shiftl b1 12 + Z.shiftl b2 6 + b3
                    - (Z.shiftl 0xE0 12 + Z.shiftl 0x80 6 + 0x80))
                   (utf8_decode h (pos + 3) r3)
            else on_error h b1 pos 2 "invalid continuation byte"
                   (utf8_decode h (pos + 2) r2)
          end
      end
    else if b1 <? 0xF5 then
      match r1 with
      | [] => on_error h b1 pos to_end "unexpected end of data" (Return [])
      | b2 :: r2 =>
        if negb (is_continuation b2)
           || (if b2 <? 0x90 then b1 =? 0xF0 else b1 =? 0xF4) then
          on_error h b1 pos 1 "invalid continuation byte"
            (utf8_decode h (pos + 1) r1)
        else
          match r2 with
          | [] => on_error h b1 pos to_end "unexpected end of data" (Return [])
          | b3 :: r3 =>
            if negb (is_continuation b3) then
              on_error h b1 pos 2 "invalid continuation byte"
                (utf8_decode h (pos + 2) r2)
            else
              match r3 with
              | [] =>
                on_error h b1 pos to_end "unexpected end of data" (Return [])
              | b4 :: r4 =>
                if is_continuation b4 then
                  emit (Z.shiftl b1 18 + Z.shiftl b2 12 + Z.shiftl b3 6 + b4
                        - (Z.shiftl 0xF0 18 + Z.shiftl 0x80 12
                           + Z.shiftl 0x80 6 + 0x80))
                       (utf8_decode h (pos + 4) r4)
                else on_error h b1 pos 3 "invalid continuation byte"
                       (utf8_decode h (pos + 3) r3)
              end
          end
      end
    else
      on_error h b1 pos 1 "invalid start byte" (utf8_decode h (pos + 1) r1)
  end.

Definition is_surrogate (c : Z) : bool := (0xD800 <=? c) && (c <=? 0xDFFF).

Definition hex4 (c : Z) : str :=
  [hex_digit (c / 4096 mod 16); hex_digit (c / 256 mod 16);
   hex_digit (c / 16 mod 16); hex_digit (c mod 16)].

(** Number of surrogates at the head of [s]: one encoding error spans a
    whole run of them. *)
Fixpoint surrogate_run (s : str) : Z :=
  match s with
  | c :: s' => if is_surrogate c then 1 + surrogate_run s' else 0
  | [] => 0
  end.

(** [s.encode("utf-8")], [pos] being the index of the first character of
    [s]; a surrogate cannot be encoded. *)
Fixpoint utf8_encode (pos : Z) (s : str) : result bytes :=
  match s with
  | [] => Return []
  | c :: s' =>
    let rest := utf8_encode (pos + 1) s' in
    if c <? 0x80 then bind rest (fun t => Return (c :: t))
    else if c <? 0x800 then
      bind rest (fun t =>
        Return (Z.lor 0xC0 (Z.shiftr c 6) :: Z.lor 0x80 (Z.land c 0x3F) :: t))
    else if is_surrogate c then
      let n := surrogate_run s in
      Raise (mkExc UnicodeEncodeError
        (if n =? 1 then
           u "'utf-8' codec can't encode character '\u" ++ hex4 c
             ++ u "' in position " ++ str_of_int pos
             ++ u ": surrogates not allowed"
         else
           u "'utf-8' codec can't encode characters in position "
             ++ str_of_int pos ++ u "-" ++ str_of_int (pos + n - 1)
             ++ u ": surrogates not allowed"))
    else if c <? 0x10000 then
      bind rest (fun t =>
        Return (Z.lor 0xE0 (Z.shiftr c 12)
                :: Z.lor 0x80 (Z.land (Z.shiftr c 6) 0x3F)
                :: Z.lor 0x80 (Z.land c 0x3F) :: t))
    else
      bind rest (fun t =>
        Return (Z.lor 0xF0 (Z.shiftr c 18)
                :: Z.lor 0x80 (Z.land (Z.shiftr c 12) 0x3F)
                :: Z.lor 0x80 (Z.land (Z.shiftr c 6) 0x3F)
                :: Z.lor 0x80 (Z.land c 0x3F) :: t))
  end.

(** The encodings [json.detect_encoding] can answer. *)
Inductive encoding :=
| UTF_8 | UTF_8_SIG | UTF_16 | UTF_16_BE | UTF_16_LE
| UTF_32 | UTF_32_BE | UTF_32_LE.

Definition starts_with (prefix data : bytes) : bool :=
  str_eqb (firstn (List.length prefix) data) prefix.

Definition nonzero (b : Z) : bool := negb (b =? 0).

(** [json.detect_encoding(b)]: by byte-order mark first, then by the
    pattern of zero bytes among the first four. *)
Definition detect_encoding (b : bytes) : encoding :=
  if starts_with [0x00; 0x00; 0xFE; 0xFF] b
     || starts_with [0xFF; 0xFE; 0x00; 0x00] b then UTF_32
  else if starts_with [0xFE; 0xFF] b || starts_with [0xFF; 0xFE] b then UTF_16
  else if starts_with [0xEF; 0xBB; 0xBF] b then UTF_8_SIG
  else
    match b with
    | b0 :: b1 :: b2 :: b3 :: _ =>
        if negb (nonzero b0) then if nonzero b1 then UTF_16_BE else UTF_32_BE
        else if negb (nonzero b1) then
          if nonzero b2 || nonzero b3 then UTF_16_LE else UTF_32_LE
        else UTF_8
    | [b0; b1] =>
        if negb (nonzero b0) then UTF_16_BE
        else if negb (nonzero b1) then UTF_16_LE
        else UTF_8
    | _ => UTF_8
    end.

End Codecs.

(** ** [json.loads] and [json.dumps] *)

Module Json.

(** Outcome of a scanning function at index [idx] of the document: a value
    with the rest of the input and its index; a syntax error with the
    position that [JSONDecodeError] will report; another exception; or
    [Diverge], when a loop counter of the model runs out (it never does:
    see [raw_decode_total]). *)
Inductive scan (A : Type) :=
| Ok (a : A) (rest : str) (idx : Z)
| Fail (msg : string) (pos : Z)
| Abort (e : exc)
| Diverge.
Arguments Ok {A} a rest idx.
Arguments Fail {A} msg pos.
Arguments Abort {A} e.
Arguments Diverge {A}.

Definition sbind {A B} (m : scan A) (k : A -> str -> Z -> scan B) : scan B :=
  match m with
  | Ok a rest idx => k a rest idx
  | Fail msg pos => Fail msg pos
  | Abort e => Abort e
  | Diverge => Diverge
  end.

(** A scanning function makes progress: it never runs out of its counter,
    and what it leaves is shorter than what it got. *)
Definition progresses {A} (f : str -> Z -> scan A) : Prop :=
  forall s i,
    f s i <> Diverge
    /\ forall a r i', f s i = Ok a r i' ->
                     (List.length r < List.length s)%nat.

(** The interpreter limits [json.loads] runs into: how many containers may
    nest before [RecursionError], and [sys.get_int_max_str_digits()]
    (0 switches the check off). *)
Record limits := mkLimits { recursion_limit : nat; int_max_str_digits : Z }.

Definition is_whitespace (c : Z) : bool :=
  (c =? ch " ") || (c =? 0x09) || (c =? 0x0A) || (c =? 0x0D).

Fixpoint skip_ws (s : str) (idx : Z) : str * Z :=
  match s with
  | c :: s' => if is_whitespace c then skip_ws s' (idx + 1) else (s, idx)
  | [] => ([], idx)
  end.

Definition hex_value (c : Z) : option Z :=
  if is_ascii_digit c then Some (c - ch "0")
  else if (ch "a" <=? c) && (c <=? ch "f") then Some (c - ch "a" + 10)
  else if (ch "A" <=? c) && (c <=? ch "F") then Some (c - ch "A" + 10)
  else None.

Definition hex4_value (h1 h2 h3 h4 : Z) : option Z :=
  match hex_value h1, hex_value h2, hex_value h3, hex_value h4 with
  | Some a, Some b, Some c, Some d => Some (((a * 16 + b) * 16 + c) * 16 + d)
  | _, _, _, _ => None
  end.

Definition is_high_surrogate (c : Z) : bool := (0xD800 <=? c) && (c <=? 0xDBFF).
Definition is_low_surrogate (c : Z) : bool := (0xDC00 <=? c) && (c <=? 0xDFFF).
Definition join_surrogates (hi lo : Z) : Z :=
  0x10000 + Z.lor (Z.shiftl (Z.land hi 0x03FF) 10) (Z.land lo 0x03FF).

(** The character a one-letter escape stands for. *)
Definition simple_escape (c : Z) : option Z :=
  if (c =? dquote) || (c =? ch "\") || (c =? ch "/") then Some c
  else if c =? ch "b" then Some 0x08
  else if c =? ch "f" then Some 0x0C
  else if c =? ch "n" then Some 0x0A
  else if c =? ch "r" then Some 0x0D
  else if c =? ch "t" then Some 0x09
  else None.

(** [scanstring(s, end, strict=True)]: [s] starts after the opening quote,
    which is at index [begin]; [acc] is the text so far, newest first.  A
    [\uXXXX] escape needs one more character after its four digits; a high
    surrogate joins the low surrogate that follows it when seven characters
    or more follow. *)
Fixpoint scanstring (begin : Z) (s : str) (idx : Z) (acc : str) : scan str :=
  match s with
  | [] => Fail "Unterminated string starting at" begin
  | c :: r =>
    if c =? dquote then Ok (rev acc) r (idx + 1)
    else if c =? ch "\" then
      match r with
      | [] => Fail "Unterminated string starting at" begin
      | e :: r1 =>
        if negb (e =? ch "u") then
          match simple_escape e with
          | Some c' => scanstring begin r1 (idx + 2) (c' :: acc)
          | None => Fail "Invalid \escape" idx
          end
        else
          match r1 with
          | h1 :: h2 :: h3 :: h4 :: ((_ :: _) as r5) =>
            match hex4_value h1 h2 h3 h4 with
            | None => Fail "Invalid \uXXXX escape" (idx + 1)
            | Some c1 =>
              match r5 with
              | b :: v :: g1 :: g2 :: g3 :: g4 :: ((_ :: _) as r11) =>
                if is_high_surrogate c1 && (b =? ch "\") && (v =? ch "u") then
                  match hex4_value g1 g2 g3 g4 with
                  | None => Fail "Invalid \uXXXX escape" (idx + 7)
                  | Some c2 =>
                    if is_low_surrogate c2 then
                      scanstring begin r11 (idx + 12)
                        (join_surrogates c1 c2 :: acc)
                    else scanstring begin r5 (idx + 6) (c1 :: acc)
                  end
                else scanstring begin r5 (idx + 6) (c1 :: acc)
              | _ => scanstring begin r5 (idx + 6) (c1 :: acc)
              end
            end
          | _ => Fail "Invalid \uXXXX escape" (idx + 1)
          end
      end
    else if c <=? 0x1F then Fail "Invalid control character at" idx
    else scanstring begin r (idx + 1) (c :: acc)
  end.

(** The leading ASCII digits of [s] and what follows them. *)
Fixpoint span_digits (s : str) : str * str :=
  match s with
  | c :: s' =>
      if is_ascii_digit c then let (d, r) := span_digits s' in (c :: d, r)
      else ([], s)
  | [] => ([], [])
  end.

Definition int_of_digits (d : str) : Z :=
  fold_left (fun n c => n * 10 + (c - ch "0")) d 0.

Definition len (s : str) : Z := Z.of_nat (List.length s).

(** The binary64 float nearest to [(-1)^neg * m * 10^e] (ties to even), as
    [float()] computes it.  A negative [e] divides: the quotient is taken
    with 64 bits or more and a sticky bit, which rounds as the exact
    value does.  The two tests on [e] only spare the computation of a huge
    power: from [10^310] on the value rounds to infinity, and below
    [10^-330] to zero ([m] is less than [10^(log2 m + 1)]). *)
Definition float_of_decimal (neg : bool) (m e : Z) : spec_float :=
  if m <=? 0 then S754_zero neg
  else if 310 <=? e then S754_infinity neg
  else if e + Z.log2 m + 1 <=? -330 then S754_zero neg
  else if 0 <=? e then binary_round 53 1024 neg (Z.to_pos (m * 10 ^ e)) 0
  else
    let d := 10 ^ (- e) in
    let k := Z.max 0 (64 + Z.log2 d - Z.log2 m) in
    let n := m * 2 ^ k in
    let q := n / d in
    let sticky := if n mod d =? 0 then 0 else 1 in
    binary_round 53 1024 neg (Z.to_pos (2 * q + sticky)) (- k - 1).

(** [int(digits)] under the limit on the number of digits, which is
    looked at for more than 640 digits only. *)
Definition int_of_literal (lim : limits) (neg : bool) (digits : str)
    : result pyval :=
  let maxd := int_max_str_digits lim in
  if (640 <? len digits) && (0 <? maxd) && (maxd <? len digits) then
    Raise (mkExc ValueError
      (u "Exceeds the limit (" ++ str_of_int maxd
         ++ u " digits) for integer string conversion: value has "
         ++ str_of_int (len digits)
         ++ u " digits; use sys.set_int_max_str_digits() to increase the limit"))
  else
    let n := int_of_digits digits in
    Return (PInt (if neg then - n else n)).

(** The fraction [.ddd] at the head of [s], if there is one. *)
Definition match_frac (s : str) : option (str * str) :=
  match s with
  | p :: ((d :: _) as s') =>
      if (p =? ch ".") && is_ascii_digit d then Some (span_digits s')
      else None
  | _ => None
  end.

(** The sign of an exponent: consumed only when a character follows it. *)
Definition match_exp_sign (s : str) : bool * str :=
  match s with
  | sg :: ((_ :: _) as s') =>
      if sg =? ch "-" then (true, s')
      else if sg =? ch "+" then (false, s')
      else (false, s)
  | _ => (false, s)
  end.

(** The exponent [e[+-]ddd] at the head of [s], if there is one: its sign,
    its digits and what follows. *)
Definition match_exp (s : str) : option (bool * str * str) :=
  match s with
  | e :: s1 =>
      if (e =? ch "e") || (e =? ch "E") then
        let (neg, s2) := match_exp_sign s1 in
        let (d, r) := span_digits s2 in
        match d with
        | [] => None
        | _ => Some (neg, d, r)
        end
      else None
  | [] => None
  end.

(** The optional minus sign at the head of a number. *)
Definition match_sign (s : str) : bool * str :=
  match s with
  | c :: s' => if c =? ch "-" then (true, s') else (false, s)
  | [] => (false, s)
  end.

(** The integer part: [0] alone, or a run of digits that starts with
    [1] to [9]; no digits at all when there is neither. *)
Definition match_int (s : str) : str * str :=
  match s with
  | c :: s' =>
      if (ch "1" <=? c) && (c <=? ch "9") then span_digits s
      else if c =? ch "0" then ([c], s')
      else ([], s)
  | [] => ([], s)
  end.

(** [_match_number]: an optional minus, the integer part, then an optional
    fraction and an optional exponent, at the head of [s]; an int unless
    it has a fraction or an exponent. *)
Definition match_number (lim : limits) (s : str) (idx : Z) : scan pyval :=
  let '(neg, s1) := match_sign s in
  let '(int_digits, s2) := match_int s1 in
  match int_digits with
  | [] => Fail "Expecting value" idx
  | _ =>
    let '(frac, s3) :=
      match match_frac s2 with
      | Some (d, r) => (Some d, r)
      | None => (None, s2)
      end in
    let '(exp, s4) :=
      match match_exp s3 with
      | Some (eneg, d, r) => (Some (eneg, d), r)
      | None => (None, s3)
      end in
    let idx' := idx + (len s - len s4) in
    match frac, exp with
    | None, None =>
        match int_of_literal lim neg int_digits with
        | Return v => Ok v s4 idx'
        | Raise e => Abort e
        end
    | _, _ =>
        let fd := match frac with Some d => d | None => [] end in
        let ex :=
          match exp with
          | Some (eneg, d) =>
              if eneg then - int_of_digits d else int_of_digits d
          | None => 0
          end in
        Ok (PFloat (float_of_decimal neg (int_of_digits (int_digits ++ fd))
                      (ex - len fd)))
           s4 idx'
    end
  end.

(** [s] starts with the ASCII word [w]: what follows it. *)
Fixpoint strip_prefix (w s : str) : option str :=
  match w, s with
  | [], _ => Some s
  | a :: w', b :: s' => if a =? b then strip_prefix w' s' else None
  | _ :: _, [] => None
  end.

(** The constants [null], [true], [false], [NaN], [Infinity], [-Infinity]. *)
Definition constants : list (string * pyval) :=
  [("null", PNone); ("true", PBool true); ("false", PBool false);
   ("NaN", PFloat S754_nan); ("Infinity", PFloat (S754_infinity false));
   ("-Infinity", PFloat (S754_infinity true))]%string.

Fixpoint match_constant (cs : list (string * pyval)) (s : str) (idx : Z)
    : option (scan pyval) :=
  match cs with
  | [] => None
  | (w, v) :: cs' =>
      match strip_prefix (u w) s with
      | Some r => Some (Ok v r (idx + len (u w)))
      | None => match_constant cs' s idx
      end
  end.

(** The loop of [_parse_array]: [s] is at the next element; [acc] holds the
    elements read, newest first.  [value] reads one JSON term. *)
Fixpoint array_loop (value : str -> Z -> scan pyval) (n : nat)
    (s : str) (idx : Z) (acc : list pyval) : scan pyval :=
  match n with
  | O => Diverge
  | S n' =>
    sbind (value s idx) (fun v r i =>
      let (r1, i1) := skip_ws r i in
      match r1 with
      | c :: r2 =>
          if c =? ch "]" then Ok (PList (rev (v :: acc))) r2 (i1 + 1)
          else if c =? ch "," then
            let (r3, i3) := skip_ws r2 (i1 + 1) in
            array_loop value n' r3 i3 (v :: acc)
          else Fail "Expecting ',' delimiter" i1
      | [] => Fail "Expecting ',' delimiter" i1
      end)
  end.

(** The loop of [_parse_object]: [s] is at the next key; [acc] is the dict
    so far.  A repeated key keeps its place and takes the later value. *)
Fixpoint object_loop (value : str -> Z -> scan pyval) (n : nat)
    (s : str) (idx : Z) (acc : dict) : scan pyval :=
  match n with
  | O => Diverge
  | S n' =>
    match s with
    | q :: s1 =>
      if q =? dquote then
        sbind (scanstring idx s1 (idx + 1) []) (fun key r i =>
          let (r1, i1) := skip_ws r i in
          match r1 with
          | c :: r2 =>
            if c =? ch ":" then
              let (r3, i3) := skip_ws r2 (i1 + 1) in
              sbind (value r3 i3) (fun v r4 i4 =>
                let acc' := dict_set acc key v in
                let (r5, i5) := skip_ws r4 i4 in
                match r5 with
                | c' :: r6 =>
                    if c' =? ch "}" then Ok (PDict acc') r6 (i5 + 1)
                    else if c' =? ch "," then
                      let (r7, i7) := skip_ws r6 (i5 + 1) in
                      object_loop value n' r7 i7 acc'
                    else Fail "Expecting ',' delimiter" i5
                | [] => Fail "Expecting ',' delimiter" i5
                end)
            else Fail "Expecting ':' delimiter" i1
          | [] => Fail "Expecting ':' delimiter" i1
          end)
      else Fail "Expecting property name enclosed in double quotes" idx
    | [] => Fail "Expecting property name enclosed in double quotes" idx
    end
  end.

Definition recursion_error {A} (what : string) : scan A :=
  Abort (mkExc RecursionError
           (u "maximum recursion depth exceeded while decoding a JSON "
              ++ u what ++ u " from a unicode string")).

(** [scan_once(s, idx)]: one JSON term at the head of [s].  [depth] is the
    number of containers that may still be entered. *)
Fixpoint scan_once (lim : limits) (depth : nat) (s : str) (idx : Z)
    {struct depth} : scan pyval :=
  match s with
  | [] => Fail "Expecting value" idx
  | c :: r =>
    if c =? dquote then
      sbind (scanstring idx r (idx + 1) []) (fun t r' i' => Ok (PStr t) r' i')
    else if c =? ch "{" then
      match depth with
      | O => recursion_error "object"
      | S d =>
        let (r1, i1) := skip_ws r (idx + 1) in
        match r1 with
        | c' :: r2 =>
            if c' =? ch "}" then Ok (PDict []) r2 (i1 + 1)
            else object_loop (scan_once lim d) (S (List.length r1)) r1 i1 []
        | [] => object_loop (scan_once lim d) (S (List.length r1)) r1 i1 []
        end
      end
    else if c =? ch "[" then
      match depth with
      | O => recursion_error "array"
      | S d =>
        let (r1, i1) := skip_ws r (idx + 1) in
        match r1 with
        | c' :: r2 =>
            if c' =? ch "]" then Ok (PList []) r2 (i1 + 1)
            else array_loop (scan_once lim d) (S (List.length r1)) r1 i1 []
        | [] => array_loop (scan_once lim d) (S (List.length r1)) r1 i1 []
        end
      end
    else
      match match_constant constants s idx with
      | Some found => found
      | None => match_number lim s idx
      end
  end.

(** [str.count("\n", 0, pos)] and [str.rfind("\n", 0, pos)] at once: the
    number of line feeds before [pos] and the index of the last one (-1
    when there is none). *)
Fixpoint line_info (doc : str) (i pos : Z) (lines last : Z) : Z * Z :=
  match doc with
  | [] => (lines, last)
  | c :: doc' =>
      if pos <=? i then (lines, last)
      else if c =? 0x0A then line_info doc' (i + 1) pos (lines + 1) i
      else line_info doc' (i + 1) pos lines last
  end.

(** [JSONDecodeError(msg, doc, pos)] *)
Definition json_decode_error (msg : string) (doc : str) (pos : Z) : exc :=
  let (lines, last) := line_info doc 0 pos 0 (-1) in
  mkExc JSONDecodeError
    (u msg ++ u ": line " ++ str_of_int (lines + 1)
       ++ u " column " ++ str_of_int (pos - last)
       ++ u " (char " ++ str_of_int pos ++ u ")").

(** [JSONDecoder.raw_decode] and the check of [decode] after it: leading
    whitespace, one term, trailing whitespace, then the end of the
    document. *)
Definition raw_decode (lim : limits) (doc : str) : scan pyval :=
  let (s, i) := skip_ws doc 0 in
  sbind (scan_once lim (recursion_limit lim) s i) (fun v r i' =>
    let (r', e) := skip_ws r i' in
    match r' with
    | [] => Ok v [] e
    | _ => Fail "Extra data" e
    end).

(** [JSONDecoder.decode(doc)] *)
Definition decode (lim : limits) (doc : str) : result pyval :=
  match raw_decode lim doc with
  | Ok v _ _ => Return v
  | Fail msg pos => Raise (json_decode_error msg doc pos)
  | Abort e => Raise e
  | Diverge => raise RecursionError "maximum recursion depth exceeded"
  end.

(** [json.loads(doc)] for a str: a leading byte-order mark is refused. *)
Definition loads_str (lim : limits) (doc : str) : result pyval :=
  match doc with
  | 0xFEFF :: _ =>
      Raise (json_decode_error "Unexpected UTF-8 BOM (decode using utf-8-sig)"
               doc 0)
  | _ => decode lim doc
  end.

(** [json.loads(v)] for an object of the event: anything but a str is a
    [TypeError] (no bytes object occurs there). *)
Definition loads (lim : limits) (v : pyval) : result pyval :=
  match v with
  | PStr doc => loads_str lim doc
  | _ =>
      Raise (mkExc TypeError
               (u "the JSON object must be str, bytes or bytearray, not "
                  ++ type_name v))
  end.

(** [json.loads(raw)] for bytes: [raw.decode(detect_encoding(raw),
    "surrogatepass")], then [decode].  The UTF-16 and UTF-32 codecs are the
    parameter [wide]. *)
Definition loads_bytes (lim : limits)
    (wide : Codecs.encoding -> bytes -> result str) (raw : bytes)
    : result pyval :=
  let text :=
    match Codecs.detect_encoding raw with
    | Codecs.UTF_8 => Codecs.utf8_decode Codecs.SurrogatePass 0 raw
    | Codecs.UTF_8_SIG =>
        Codecs.utf8_decode Codecs.SurrogatePass 0 (skipn 3 raw)
    | enc => wide enc raw
    end in
  bind text (decode lim).

(** What this program serialises: strings, ints, and float constants,
    the last given by their [repr]. *)
Inductive jvalue :=
| JString (s : str)
| JInteger (n : Z)
| JReal (repr : string).

(** One character of a string under [ensure_ascii=True]. *)
Definition escape_char (c : Z) : str :=
  if c =? dquote then [ch "\"; dquote] else if c =? ch "\" then u "\\"
  else if c =? 0x0A then u "\n" else if c =? 0x0D then u "\r"
  else if c =? 0x09 then u "\t" else if c =? 0x08 then u "\b"
  else if c =? 0x0C then u "\f"
  else if (0x20 <=? c) && (c <=? 0x7E) then [c]
  else if c <? 0x10000 then u "\u" ++ Codecs.hex4 c
  else
    let n := c - 0x10000 in
    u "\u" ++ Codecs.hex4 (Z.lor 0xD800 (Z.land (Z.shiftr n 10) 0x3FF))
      ++ u "\u" ++ Codecs.hex4 (Z.lor 0xDC00 (Z.land n 0x3FF)).

(** [encode_basestring_ascii(s)] *)
Definition encode_string (s : str) : str :=
  dquote :: flat_map escape_char s ++ [dquote].

Definition encode_value (v : jvalue) : str :=
  match v with
  | JString s => encode_string s
  | JInteger n => str_of_int n
  | JReal r => u r
  end.

Fixpoint join (sep : str) (parts : list str) : str :=
  match parts with
  | [] => []
  | [x] => x
  | x :: rest => x ++ sep ++ join sep rest
  end.

(** [json.dumps(d)] for a dict with str keys, default separators. *)
Definition dumps (d : list (str * jvalue)) : str :=
  u "{"
    ++ join (u ", ")
         (List.map (fun kv => encode_string (fst kv) ++ u ": "
                              ++ encode_value (snd kv)) d)
    ++ u "}".

End Json.

(** ** The world outside the function *)

Module Env.

Record InvokeModelRequest := mkInvokeModel {
  im_body : str;
  im_modelId : str;
  im_accept : str;
  im_contentType : str
}.

Record PutObjectRequest := mkPutObject {
  po_Bucket : str;
  po_Key : str;
  po_Body : bytes;
  po_ContentType : str
}.

(** A request sent to a remote service. *)
Inductive call :=
| InvokeModel (r : InvokeModelRequest)
| PutObject (r : PutObjectRequest).

(** A [datetime] without time zone. *)
Record datetime := mkDatetime {
  year : Z; month : Z; day : Z; hour : Z; minute : Z; second : Z
}.

(** Everything the function reads from outside itself.
    - [environ]: [os.environ] when the module is imported;
    - [limits]: the interpreter limits seen by [json.loads];
    - [ucd_isalnum]: [str.isalnum] beyond ASCII;
    - [decode_wide]: the UTF-16 and UTF-32 codecs with [surrogatepass];
    - [invoke_model]: [_bedrock.invoke_model(...)] followed by
      [resp["body"].read()], an exception or the bytes read;
    - [s3_client]: [boto3.client("s3")], which sends nothing;
    - [put_object]: [s3.put_object(...)];
    - [utcnow]: [datetime.utcnow()]. *)
Record World := mkWorld {
  environ : list (str * str);
  limits : Json.limits;
  ucd_isalnum : Z -> bool;
  decode_wide : Codecs.encoding -> bytes -> result str;
  invoke_model : InvokeModelRequest -> result bytes;
  s3_client : result unit;
  put_object : PutObjectRequest -> result unit;
  utcnow : datetime
}.

(** [os.environ.get(key, default)] *)
Definition environ_get (w : World) (key : string) (default : string) : str :=
  match dict_lookup (environ w) (u key) with
  | Some v => v
  | None => u default
  end.

(** A computation that may raise and that sends requests: it extends the
    list of calls made so far. *)
Definition io (A : Type) := list call -> result A * list call.

Definition ret {A} (a : A) : io A := fun tr => (Return a, tr).

Definition lift {A} (r : result A) : io A := fun tr => (r, tr).

Definition iobind {A B} (m : io A) (k : A -> io B) : io B :=
  fun tr =>
    match m tr with
    | (Return a, tr') => k a tr'
    | (Raise e, tr') => (Raise e, tr')
    end.

(** Sending request [c], whose outcome is [r]. *)
Definition perform {A} (c : call) (r : result A) : io A :=
  fun tr => (r, tr ++ [c]).

(** [try: m / except Exception as e: ...]: the exception is handed over
    as a value when [except Exception] catches it, and goes on otherwise. *)
Definition try_except_Exception {A} (m : io A) : io (A + exc) :=
  fun tr =>
    match m tr with
    | (Return a, tr') => (Return (inl a), tr')
    | (Raise e, tr') =>
        if is_Exception e then (Return (inr e), tr') else (Raise e, tr')
    end.

(** [dt.strftime(fmt)] for the directives [%Y %m %d %H %M %S] and [%%];
    anything else is copied.  [%Y] prints the year as it is, which for the
    years from 1000 on is four digits. *)
Fixpoint strftime (dt : datetime) (fmt : str) : str :=
  match fmt with
  | [] => []
  | c :: fmt1 =>
    if c =? ch "%" then
      match fmt1 with
      | d :: fmt2 =>
        if d =? ch "Y" then str_of_int (year dt) ++ strftime dt fmt2
        else if d =? ch "m" then zero_pad 2 (month dt) ++ strftime dt fmt2
        else if d =? ch "d" then zero_pad 2 (day dt) ++ strftime dt fmt2
        else if d =? ch "H" then zero_pad 2 (hour dt) ++ strftime dt fmt2
        else if d =? ch "M" then zero_pad 2 (minute dt) ++ strftime dt fmt2
        else if d =? ch "S" then zero_pad 2 (second dt) ++ strftime dt fmt2
        else if d =? ch "%" then ch "%" :: strftime dt fmt2
        else c :: strftime dt fmt1
      | [] => [c]
      end
    else c :: strftime dt fmt1
  end.

End Env.

(** ** lambda_function.py *)

Module LambdaFunction.
Import Env.

Notation "x <- m ;; k" := (iobind m (fun x => k))
  (at level 61, m at next level, right associativity).

(** The module-level configuration. *)
Definition AWS_REGION (w : World) : str :=
  environ_get w "AWS_REGION" "us-east-1".

Definition BEDROCK_MODEL_ID (w : World) : str :=
  environ_get w "BEDROCK_MODEL_ID" "us.meta.llama3-1-8b-instruct-v1:0".

Definition S3_BUCKET (w : World) : str :=
  environ_get w "BLOG_S3_BUCKET" "bedrock-demo-blogs".

(** The dict a handler returns. *)
Record response := mkResponse {
  statusCode : Z;
  headers : list (str * str);
  body : str
}.

(** [{"Content-Type": "application/json", **(headers or {})}] *)
Definition merge_headers (extra : option (list (str * str)))
    : list (str * str) :=
  fold_left (fun acc kv => dict_set acc (fst kv) (snd kv))
    (match extra with Some h => h | None => [] end)
    [(u "Content-Type", u "application/json")].

Definition _ok (body : list (str * Json.jvalue)) (status : Z)
    (headers : option (list (str * str))) : response :=
  {| statusCode := status;
     headers := merge_headers headers;
     body := Json.dumps body |}.

Definition _error (message : str) (status : Z) : response :=
  _ok [(u "error", Json.JString message)] status None.

Definition prompt_of (topic : str) : str :=
  u "<s>[INST]Human: Write a ~250-word blog on the topic: " ++ topic
    ++ u ". Assistant:[/INST]".

(** The request [generate_blog] sends: [json.dumps(body)] with the model
    id and the two content types. *)
Definition bedrock_request (w : World) (topic : str) : InvokeModelRequest :=
  let prompt := prompt_of topic in
  let body :=
    [(u "prompt", Json.JString prompt);
     (u "max_gen_len", Json.JInteger 512);
     (u "temperature", Json.JReal "0.5");
     (u "top_p", Json.JReal "0.9")] in
  {| im_body := Json.dumps body;
     im_modelId := BEDROCK_MODEL_ID w;
     im_accept := u "application/json";
     im_contentType := u "application/json" |}.

(** [generate_blog(topic)] *)
Definition generate_blog (w : World) (topic : str) : io str :=
  let request := bedrock_request w topic in
  raw <- perform (InvokeModel request) (invoke_model w request) ;;
  data <- lift (Json.loads_bytes (limits w) (decode_wide w) raw) ;;
  generation <- lift (method_get data (u "generation")) ;;
  let text := py_or generation (PStr []) in
  lift (method_strip text).

(** The request [save_blog_to_s3] sends. *)
Definition s3_request (w : World) (key : str) (encoded : bytes)
    : PutObjectRequest :=
  {| po_Bucket := S3_BUCKET w;
     po_Key := key;
     po_Body := encoded;
     po_ContentType := u "text/plain; charset=utf-8" |}.

(** [save_blog_to_s3(key, content)] *)
Definition save_blog_to_s3 (w : World) (key content : str) : io unit :=
  _ <- lift (s3_client w) ;;
  encoded <- lift (Codecs.utf8_encode 0 content) ;;
  let request := s3_request w key encoded in
  perform (PutObject request) (put_object w request).

(** [try: return json.loads(body_str) / except json.JSONDecodeError:
    return {}] *)
Definition loads_or_empty (w : World) (body_str : pyval) : result pyval :=
  match Json.loads (limits w) body_str with
  | Return v => Return v
  | Raise e =>
      if exc_class_eqb (exc_cls e) JSONDecodeError then Return (PDict [])
      else Raise e
  end.

(** [b64decode(body_str).decode("utf-8", errors="replace")] *)
Definition decode_base64_body (body_str : pyval) : result pyval :=
  bind (Base64.b64decode body_str) (fun decoded =>
  bind (Codecs.utf8_decode Codecs.Replace 0 decoded) (fun text =>
  Return (PStr text))).

(** [_parse_event_body(event)] *)
Definition _parse_event_body (w : World) (event : dict) : result pyval :=
  match dict_lookup event (u "body") with
  | None | Some PNone => Return (PDict [])
  | Some body_str =>
      bind (if truthy (dict_get event (u "isBase64Encoded"))
            then decode_base64_body body_str
            else Return body_str)
           (loads_or_empty w)
  end.

(** [(body.get('blogstopic') or body.get('topic') or '').strip()] *)
Definition topic_of (body : pyval) : result str :=
  bind (method_get body (u "blogstopic")) (fun first =>
  bind (if truthy first then Return first
        else bind (method_get body (u "topic")) (fun second =>
             Return (py_or second (PStr [])))) (fun chosen =>
  method_strip chosen)).

(** [c.isalnum() or c in ("-", "_")] *)
Definition keep_in_key (w : World) (c : Z) : bool :=
  isalnum (ucd_isalnum w) c || (c =? ch "-") || (c =? ch "_").

(** [''.join(c for c in topic if ...).strip() or 'blog'] *)
Definition safe_topic_of (w : World) (topic : str) : str :=
  match strip (filter (keep_in_key w) topic) with
  | [] => u "blog"
  | kept => kept
  end.

Definition timestamp (w : World) : str :=
  strftime (utcnow w) (u "%Y-%m-%dT%H-%M-%SZ").

(** [f"blogs/{safe_topic}_{ts}.txt"] *)
Definition s3_key_of (w : World) (topic : str) : str :=
  u "blogs/" ++ safe_topic_of w topic ++ u "_" ++ timestamp w ++ u ".txt".

(** [blog_text[:200] + ('...' if len(blog_text) > 200 else '')] *)
Definition preview_of (blog_text : str) : str :=
  firstn 200 blog_text
    ++ (if (200 <? List.length blog_text)%nat then u "..." else []).

(** [lambda_handler(event, context)] *)
Definition lambda_handler (w : World) (event : dict) (context : pyval)
    : io response :=
  body <- lift (_parse_event_body w event) ;;
  topic <- lift (topic_of body) ;;
  match topic with
  | [] =>
      ret (_error (u "Missing required field 'blogstopic' in request body.")
             400)
  | _ =>
    generated <- try_except_Exception (generate_blog w topic) ;;
    match generated with
    | inr e => ret (_error (u "Error generating blog: " ++ exc_str e) 502)
    | inl blog_text =>
      match blog_text with
      | [] => ret (_error (u "Model returned empty content.") 502)
      | _ =>
        let s3_key := s3_key_of w topic in
        saved <- try_except_Exception (save_blog_to_s3 w s3_key blog_text) ;;
        match saved with
        | inr e => ret (_error (u "Failed to save to S3: " ++ exc_str e) 502)
        | inl _ =>
            ret (_ok [(u "message", Json.JString (u "Blog generated and saved."));
                      (u "s3_bucket", Json.JString (S3_BUCKET w));
                      (u "s3_key", Json.JString s3_key);
                      (u "length_chars",
                       Json.JInteger (Z.of_nat (List.length blog_text)));
                      (u "preview", Json.JString (preview_of blog_text))]
                   200 None)
        end
      end
    end
  end.

(** A run of the handler from an empty call list. *)
Definition run (w : World) (event : dict) (context : pyval)
    : result response * list call :=
  lambda_handler w event context [].

End LambdaFunction.

(** ** Vocabulary of the properties *)

Module Spec.
Import Env LambdaFunction.

(** The error response for a request without topic. *)
Definition missing_topic : response :=
  _error (u "Missing required field 'blogstopic' in request body.") 400.

(** The success response for a stored text. *)
Definition success (w : World) (s3_key preview : str) (n : Z) : response :=
  _ok [(u "message", Json.JString (u "Blog generated and saved."));
       (u "s3_bucket", Json.JString (S3_BUCKET w));
       (u "s3_key", Json.JString s3_key);
       (u "length_chars", Json.JInteger n);
       (u "preview", Json.JString preview)]
    200 None.

(** A field of the JSON body of a response, read back with [json.loads]. *)
Definition response_field (r : response) (k : string) : result pyval :=
  bind (Json.loads_str (Json.mkLimits 1000 4300) (body r))
       (fun v => method_get v (u k)).


(** Blank: nothing is left after trimming. *)
Definition blank (s : str) : bool :=
  match strip s with [] => true | _ => false end.

(** The reading of the topic that the design notes describe: the candidate
    fields in priority order, the first one whose trimmed value is not
    empty wins. *)
Fixpoint spec_first_non_blank (candidates : list string) (d : dict) : str :=
  match candidates with
  | [] => []
  | k :: rest =>
      match dict_lookup d (u k) with
      | Some (PStr s) =>
          if blank s then spec_first_non_blank rest d else strip s
      | _ => spec_first_non_blank rest d
      end
  end.

(** The text field of a model response is missing, empty or made of
    whitespace only. *)
Definition generation_blank (d : dict) : bool :=
  match dict_lookup d (u "generation") with
  | None => true
  | Some (PStr s) => forallb isspace s
  | Some _ => false
  end.

Definition digit (n : Z) : Z := ch "0" + n.

Definition two_digits (n : Z) : str := [digit (n / 10); digit (n mod 10)].

Definition four_digits (n : Z) : str :=
  [digit (n / 1000); digit (n / 100 mod 10); digit (n / 10 mod 10);
   digit (n mod 10)].

(** [YYYY-MM-DDTHH-MM-SSZ] for a date. *)
Definition iso_basic (dt : datetime) : str :=
  four_digits (year dt) ++ u "-" ++ two_digits (month dt) ++ u "-"
    ++ two_digits (day dt) ++ u "T" ++ two_digits (hour dt) ++ u "-"
    ++ two_digits (minute dt) ++ u "-" ++ two_digits (second dt) ++ u "Z".

Definition between (lo n hi : Z) : bool := (lo <=? n) && (n <=? hi).

(** The dates [datetime.utcnow()] can return whose year has four digits. *)
Definition four_digit_date (dt : datetime) : bool :=
  between 1000 (year dt) 9999 && between 1 (month dt) 12
  && between 1 (day dt) 31 && between 0 (hour dt) 23
  && between 0 (minute dt) 59 && between 0 (second dt) 59.

(** No character beyond ASCII is both alphanumeric and whitespace, a fact
    of the Unicode character database. *)
Definition ucd_sound (w : World) : Prop :=
  forall c, 0x80 <= c -> ucd_isalnum w c = true -> isspace c = false.

(** The falsy values of [isBase64Encoded] that the handler may meet:
    absent, [None], [False], [0] and the empty string. *)
Definition flag_unset (flag : option pyval) : Prop :=
  flag = None \/ flag = Some PNone \/ flag = Some (PBool false)
  \/ flag = Some (PInt 0) \/ flag = Some (PStr []).

(** A mock of the services: the model answers [raw], storage succeeds. *)
Definition mock_world (raw : bytes) (now : datetime) : World :=
  {| environ := [];
     limits := Json.mkLimits 1000 4300;
     ucd_isalnum := fun _ => false;
     decode_wide := fun _ _ => raise UnicodeDecodeError "not available";
     invoke_model := fun _ => Return raw;
     s3_client := Return tt;
     put_object := fun _ => Return tt;
     utcnow := now |}.


End Spec.

(** ** Sample events and worlds *)

Module Samples.
Import Env LambdaFunction Spec.

Definition some_world : World :=
  mock_world (uq "{'generation': 'text'}") (mkDatetime 2024 3 7 9 5 0).

Definition coffee_event : dict :=
  [(u "body", PStr (uq "{'blogstopic': 'Coffee!!'}"))].

Definition coffee_answer : bytes :=
  uq "{'generation': 'A short text about coffee.'}".

Definition coffee_text : str := u "A short text about coffee.".

Definition coffee_world : World :=
  mock_world coffee_answer (mkDatetime 2024 3 7 9 5 0).

Definition silent_world : World :=
  mock_world (uq "{'generation': '  '}") (mkDatetime 2024 3 7 9 5 0).

Definition blank_topic_event : dict :=
  [(u "body", PStr (uq "{'blogstopic': '   '}"))].

(** An event whose body is announced as base64 and is not. *)
Definition bad_base64_event : dict :=
  [(u "body", PStr (u "abc")); (u "isBase64Encoded", PBool true)].

(** A body whose [blogstopic] is whitespace and whose [topic] is not. *)
Definition spaces_then_coffee : dict :=
  [(u "blogstopic", PStr (u "   ")); (u "topic", PStr (u "Coffee"))].



Definition latin1_letters (c : Z) : bool :=
  (0xC0 <=? c) && (c <=? 0xFF) && negb (c =? 0xD7) && negb (c =? 0xF7).

(** A world whose Unicode table knows the letters of Latin-1. *)
Definition latin1_world : World :=
  {| environ := [];
     limits := Json.mkLimits 1000 4300;
     ucd_isalnum := latin1_letters;
     decode_wide := fun _ _ => raise UnicodeDecodeError "not available";
     invoke_model := fun _ => Return coffee_answer;
     s3_client := Return tt;
     put_object := fun _ => Return tt;
     utcnow := mkDatetime 2024 3 7 9 5 0 |}.

(** A model answer of 201 characters. *)
Definition long_text : str := repeat (ch "a") 201.

Definition long_answer : bytes :=
  uq "{'generation': '" ++ long_text ++ uq "'}".

(** A body of 1001 opening brackets: more than the interpreter lets
    [json.loads] nest. *)
Definition deep_brackets : str := repeat (ch "[") (Z.to_nat 1001).

Definition deep_event : dict := [(u "body", PStr deep_brackets)].

End Samples.

(** ** Vocabulary of the further properties *)

Module Checks.
Import Env LambdaFunction Json.

(** A character of a file name: not the separator of key segments. *)
Definition no_slash (c : Z) : Prop := c <> ch "/".

(** What a scanning function may abort with: the recursion limit or the
    limit on the digits of an int. *)
Definition limit_error (e : exc) : Prop :=
  exc_cls e = RecursionError \/ exc_cls e = ValueError.

Definition aborts_on_limits {A} (x : scan A) : Prop :=
  match x with
  | Abort e => limit_error e
  | _ => True
  end.

(** A code point of a Python str. *)
Definition code_point (c : Z) : bool := (0 <=? c) && (c <=? 0x10FFFF).

Definition is_text (s : str) : bool := forallb code_point s.

(** A continuation byte carrying the six bits [x]. *)
Definition low_ok (x : Z) : bool :=
  Codecs.is_continuation (Z.lor 0x80 x) && (Z.lor 0x80 x =? 0x80 + x).

(** The decoder accepts the two bytes the encoder writes for [c] and
    computes [c] from them. *)
Definition two_bytes_ok (c : Z) : bool :=
  let b1 := Z.lor 0xC0 (Z.shiftr c 6) in
  let b2 := Z.lor 0x80 (Z.land c 0x3F) in
  negb (b1 <? 0x80) && negb (b1 <? 0xC2) && (b1 <? 0xE0)
  && Codecs.is_continuation b2
  && (Z.shiftl b1 6 + b2 - (Z.shiftl 0xC0 6 + 0x80) =? c).

(** The first two of three bytes, for the code points [64 * q + x] with
    [x] below 64, surrogates apart: the decoder accepts them and they
    carry [q]. *)
Definition head3_ok (q : Z) : bool :=
  ((0x360 <=? q) && (q <? 0x380))
  || (let b1 := Z.lor 0xE0 (Z.shiftr q 6) in
      let b2 := Z.lor 0x80 (Z.land q 0x3F) in
      negb (b1 <? 0x80) && negb (b1 <? 0xC2) && negb (b1 <? 0xE0)
      && (b1 <? 0xF0)
      && negb (negb (Codecs.is_continuation b2)
               || (if b2 <? 0xA0 then b1 =? 0xE0 else b1 =? 0xED))
      && (Z.shiftl b1 12 + Z.shiftl b2 6
          - (Z.shiftl 0xE0 12 + Z.shiftl 0x80 6) =? 64 * q)).

(** The first two of four bytes, for the code points [4096 * q + x] with
    [x] below 4096. *)
Definition head4_ok (q : Z) : bool :=
  let b1 := Z.lor 0xF0 (Z.shiftr q 6) in
  let b2 := Z.lor 0x80 (Z.land q 0x3F) in
  negb (b1 <? 0x80) && negb (b1 <? 0xC2) && negb (b1 <? 0xE0)
  && negb (b1 <? 0xF0) && (b1 <? 0xF5)
  && negb (negb (Codecs.is_continuation b2)
           || (if b2 <? 0x90 then b1 =? 0xF0 else b1 =? 0xF4))
  && (Z.shiftl b1 18 + Z.shiftl b2 12
      - (Z.shiftl 0xF0 18 + Z.shiftl 0x80 12) =? 4096 * q).

(** A character that a text made of characters (no lone surrogate)
    holds. *)
Definition plain_char (c : Z) : bool :=
  (0 <=? c) && (c <=? 0x10FFFF) && negb (Codecs.is_surrogate c).

Definition plain (s : str) : bool := forallb plain_char s.

(** [hex_value] reads the digit [hex_digit] writes. *)
Definition hex_digit_ok (d : Z) : bool :=
  match hex_value (Codecs.hex_digit d) with
  | Some d' => d' =? d
  | None => false
  end.

(** The two halves of the escape of the character [0x10000 + 1024 * a + b]
    are a high and a low surrogate that join to it. *)
Definition high_half_ok (a : Z) : bool :=
  is_high_surrogate (Z.lor 0xD800 a)
  && (Z.lor 0xD800 a <? 0x10000) && (0 <=? Z.lor 0xD800 a)
  && (Z.land (Z.lor 0xD800 a) 0x3FF =? a).

Definition low_half_ok (b : Z) : bool :=
  is_low_surrogate (Z.lor 0xDC00 b)
  && (Z.lor 0xDC00 b <? 0x10000) && (0 <=? Z.lor 0xDC00 b)
  && (Z.land (Z.lor 0xDC00 b) 0x3FF =? b).

(** An int that [json.loads] reads whatever the limit on digits is. *)
Definition small_int (n : Z) : bool := (0 <=? n) && (n <? 2 ^ 640).

(** What follows a value inside an object that [dumps] wrote. *)
Definition delimited (rest : str) : Prop :=
  exists c tl, rest = c :: tl /\ (c = ch "," \/ c = ch "}").

(** [scan_once] reads what [dumps] wrote for [v] as [pv]. *)
Definition reads_as (lim : limits) (v : jvalue) (pv : pyval) : Prop :=
  (exists c r, encode_value v = c :: r /\ is_whitespace c = false)
  /\ forall depth rest idx,
       delimited rest ->
       exists i',
         scan_once lim depth (encode_value v ++ rest) idx = Ok pv rest i'.

(** One [key: value] of what [dumps] writes. *)
Definition field (kv : str * jvalue) : str :=
  encode_string (fst kv) ++ u ": " ++ encode_value (snd kv).

(** [pd] is what [json.loads] makes of the dict [d] that [dumps] wrote:
    the same keys in the same order, each value read back. *)
Definition reads_back (lim : limits) (d : list (str * jvalue)) (pd : dict)
    : Prop :=
  Forall2 (fun kv pkv => fst pkv = fst kv
                         /\ reads_as lim (snd kv) (snd pkv)) d pd.

(** The binary64 floats 0.5 and 0.9. *)
Definition float_half : spec_float :=
  S754_finite false 4503599627370496 (-53).

Definition float_nine_tenths : spec_float :=
  S754_finite false 8106479329266893 (-53).

(** The Unicode table calls only characters alphanumeric, no
    surrogate. *)
Definition ucd_text (w : World) : Prop :=
  forall c, ucd_isalnum w c = true -> plain_char c = true.

End Checks.

(** * Properties *)

Import Env LambdaFunction Spec Samples.

(** ** Text *)

Section Text.

Lemma lstrip_no_space (s : str) :
  Forall (fun c => isspace c = false) s -> lstrip s = s.
Proof.
  destruct 1 as [|c s Hc _]; simpl; [reflexivity|].
  now rewrite Hc.
Qed.

Lemma strip_no_space (s : str) :
  Forall (fun c => isspace c = false) s -> strip s = s.
Proof.
  intros H. unfold strip, rstrip.
  rewrite (lstrip_no_space s H).
  rewrite lstrip_no_space by now apply Forall_rev.
  apply rev_involutive.
Qed.

Lemma lstrip_all_space (s : str) : forallb isspace s = true -> lstrip s = [].
Proof.
  induction s as [|c s IH]; simpl; [reflexivity|].
  intros H. apply andb_prop in H as [Hc Hs]. rewrite Hc. now apply IH.
Qed.

Lemma strip_all_space (s : str) : forallb isspace s = true -> strip s = [].
Proof.
  intros H. unfold strip. now rewrite lstrip_all_space.
Qed.

Lemma isspace_range (c : Z) : isspace c = true -> c <= 0x20 \/ 0x85 <= c.
Proof.
  unfold isspace.
  rewrite !orb_true_iff, !andb_true_iff, !Z.leb_le, !Z.eqb_eq. lia.
Qed.

Lemma ascii_alnum_range (c : Z) :
  is_ascii_alnum c = true -> ch "0" <= c <= ch "z".
Proof.
  unfold is_ascii_alnum, is_ascii_digit.
  rewrite !orb_true_iff, !andb_true_iff, !Z.leb_le.
  change (ch "0") with 48. change (ch "9") with 57.
  change (ch "A") with 65. change (ch "Z") with 90.
  change (ch "a") with 97. change (ch "z") with 122. lia.
Qed.

Lemma ascii_alnum_not_space (c : Z) :
  is_ascii_alnum c = true -> isspace c = false.
Proof.
  intros H. apply ascii_alnum_range in H.
  change (ch "0") with 48 in H. change (ch "z") with 122 in H.
  destruct (isspace c) eqn:E; [|reflexivity].
  apply isspace_range in E. lia.
Qed.

Lemma keep_in_key_not_space (w : World) (c : Z) :
  ucd_sound w -> keep_in_key w c = true -> isspace c = false.
Proof.
  intros Hw. unfold keep_in_key, isalnum.
  destruct (Z.ltb_spec c 0x80) as [Hlt|Hge].
  - intros H. apply orb_prop in H as [H|H]; [apply orb_prop in H as [H|H]|].
    + now apply ascii_alnum_not_space.
    + apply Z.eqb_eq in H. subst c. reflexivity.
    + apply Z.eqb_eq in H. subst c. reflexivity.
  - intros H. apply orb_prop in H as [H|H]; [apply orb_prop in H as [H|H]|].
    + now apply Hw.
    + apply Z.eqb_eq in H. subst c. reflexivity.
    + apply Z.eqb_eq in H. subst c. reflexivity.
Qed.

(** The characters kept for the key contain no whitespace, so the
    [.strip()] after the filter changes nothing. *)
Lemma strip_filter_keep (w : World) (topic : str) :
  ucd_sound w ->
  strip (filter (keep_in_key w) topic) = filter (keep_in_key w) topic.
Proof.
  intros Hw. apply strip_no_space, Forall_forall.
  intros c Hc. apply filter_In in Hc as [_ Hc].
  now apply (keep_in_key_not_space w).
Qed.

End Text.

(** ** Dates *)

Section Dates.

(** A check that holds on every number from [lo] to [hi] holds on each. *)
Lemma forall_range (P : Z -> bool) (lo hi : Z) :
  forallb P (List.map (fun k => lo + Z.of_nat k)
               (seq 0 (Z.to_nat (hi - lo + 1)))) = true ->
  forall z, lo <= z <= hi -> P z = true.
Proof.
  intros H z Hz. rewrite forallb_forall in H. apply H.
  apply in_map_iff. exists (Z.to_nat (z - lo)). split; [lia|].
  apply in_seq. lia.
Qed.

Lemma str_eqb_eq (a b : str) : str_eqb a b = true -> a = b.
Proof.
  revert b. induction a as [|x a IH]; destruct b as [|y b]; simpl;
    try discriminate; [reflexivity|].
  intros H. apply andb_prop in H as [Hxy Hab].
  apply Z.eqb_eq in Hxy. f_equal; auto.
Qed.

Lemma str_eqb_refl (a : str) : str_eqb a a = true.
Proof.
  induction a as [|x a IH]; simpl; [reflexivity|].
  now rewrite Z.eqb_refl.
Qed.

Lemma zero_pad_two (n : Z) : 0 <= n <= 99 -> zero_pad 2 n = two_digits n.
Proof.
  intros Hn. apply str_eqb_eq.
  apply (forall_range (fun k => str_eqb (zero_pad 2 k) (two_digits k)) 0 99);
    [vm_compute; reflexivity | lia].
Qed.

Lemma year_four_digits (n : Z) :
  1000 <= n <= 9999 -> str_of_int n = four_digits n.
Proof.
  intros Hn. apply str_eqb_eq.
  apply (forall_range (fun k => str_eqb (str_of_int k) (four_digits k))
           1000 9999); [vm_compute; reflexivity | lia].
Qed.

Lemma between_true (lo n hi : Z) : between lo n hi = true -> lo <= n <= hi.
Proof. unfold between. intros H. apply andb_prop in H. lia. Qed.

(** [strftime("%Y-%m-%dT%H-%M-%SZ")] of a date with a four-digit year. *)
Lemma strftime_iso_basic (dt : datetime) :
  four_digit_date dt = true ->
  strftime dt (u "%Y-%m-%dT%H-%M-%SZ") = iso_basic dt.
Proof.
  unfold four_digit_date. intros H.
  repeat (apply andb_prop in H as [H ?]).
  repeat match goal with
         | B : between _ _ _ = true |- _ => apply between_true in B
         end.
  unfold iso_basic.
  rewrite <- year_four_digits, <- !zero_pad_two by lia.
  cbv -[str_of_int zero_pad year month day hour minute second app].
  reflexivity.
Qed.

End Dates.

(** ** The UTF-8 decoder *)

Section Utf8.
Import Codecs.

Ltac utf8_leaf IH :=
  unfold emit, on_error;
  repeat match goal with
         | |- context [utf8_decode Replace ?p ?r] =>
             let t := fresh "t" in
             let E := fresh "E" in
             destruct (IH r p ltac:(simpl in *; lia)) as [t E]; rewrite E
         end;
  simpl; eexists; reflexivity.

Lemma utf8_decode_replace_bounded (n : nat) :
  forall data pos, (List.length data <= n)%nat ->
  exists t, utf8_decode Replace pos data = Return t.
Proof.
  induction n as [|n IH]; intros data pos Hlen.
  - destruct data; [eexists; reflexivity | simpl in Hlen; lia].
  - destruct data as [|b1 r1]; [eexists; reflexivity|].
    cbn [utf8_decode].
    repeat match goal with
           | |- context [if ?b then _ else _] => destruct b
           | |- context [match ?l with [] => _ | _ :: _ => _ end] =>
               destruct l
           end; utf8_leaf IH.
Qed.

(** With [errors="replace"] decoding always returns a text. *)
Lemma utf8_decode_replace_total (data : bytes) :
  exists t, utf8_decode Replace 0 data = Return t.
Proof. now apply (utf8_decode_replace_bounded (List.length data)). Qed.

End Utf8.

(** ** The JSON decoder *)

Section JsonTotal.
Import Json.

Local Open Scope nat_scope.

Lemma skip_ws_length (s : str) (i : Z) :
  List.length (fst (skip_ws s i)) <= List.length s.
Proof.
  revert i. induction s as [|c s IH]; intros i; simpl; [lia|].
  destruct (is_whitespace c); simpl; [|lia].
  specialize (IH (i + 1)%Z). lia.
Qed.

Ltac scan_leaf IH :=
  match goal with
  | |- Fail _ _ <> Diverge /\ _ => split; [discriminate | intros; discriminate]
  | |- Ok _ _ _ <> Diverge /\ _ =>
      split; [discriminate
             | intros ? ? ? HOk; injection HOk as <- <- <-; simpl; lia]
  | |- scanstring ?b ?r ?i ?acc <> Diverge /\ _ =>
      let Hd := fresh in
      let Hs := fresh in
      destruct (IH r b i acc ltac:(simpl in *; lia)) as [Hd Hs];
      split; [exact Hd
             | intros ? ? ? HOk; apply Hs in HOk; simpl in *; lia]
  end.

Lemma scanstring_bounded (n : nat) :
  forall s begin idx acc, List.length s <= n ->
  scanstring begin s idx acc <> Diverge
  /\ forall t r i, scanstring begin s idx acc = Ok t r i ->
                   List.length r < List.length s.
Proof.
  induction n as [|n IH]; intros s begin idx acc Hlen.
  - destruct s; [|simpl in Hlen; lia].
    split; [discriminate | intros; discriminate].
  - destruct s as [|c r]; [split; [discriminate | intros; discriminate]|].
    cbn [scanstring].
    repeat match goal with
           | |- context [if ?b then _ else _] => destruct b
           | |- context [match ?l with [] => _ | _ :: _ => _ end] =>
               destruct l
           | |- context [match ?o with Some _ => _ | None => _ end] =>
               destruct o
           end; scan_leaf IH.
Qed.

Lemma scanstring_progresses (begin : Z) (s : str) (idx : Z) (acc : str) :
  scanstring begin s idx acc <> Diverge
  /\ forall t r i, scanstring begin s idx acc = Ok t r i ->
                   List.length r < List.length s.
Proof. now apply (scanstring_bounded (List.length s)). Qed.

Lemma span_digits_length (s d r : str) :
  span_digits s = (d, r) -> List.length s = List.length d + List.length r.
Proof.
  revert d r. induction s as [|c s IH]; intros d r; simpl.
  - intros [= <- <-]. reflexivity.
  - destruct (is_ascii_digit c).
    + destruct (span_digits s) as [d' r'] eqn:E. intros [= <- <-].
      simpl. now rewrite (IH d' r' eq_refl).
    + intros [= <- <-]. reflexivity.
Qed.

Lemma match_sign_length (s : str) :
  List.length (snd (match_sign s)) <= List.length s.
Proof.
  destruct s as [|c s]; simpl; [lia|].
  destruct (c =? ch "-")%Z; simpl; lia.
Qed.

Lemma match_int_length (s d r : str) :
  match_int s = (d, r) -> d <> [] -> List.length r < List.length s.
Proof.
  destruct s as [|c s]; cbn [match_int].
  - intros [= <- <-] H. now elim H.
  - destruct ((ch "1" <=? c)%Z && (c <=? ch "9")%Z).
    + intros E Hd. apply span_digits_length in E.
      destruct d; [now elim Hd|]. simpl in *. lia.
    + destruct (c =? ch "0")%Z; intros [= <- <-] H; [simpl; lia | now elim H].
Qed.

Lemma match_frac_length (s d r : str) :
  match_frac s = Some (d, r) -> List.length r <= List.length s.
Proof.
  unfold match_frac. destruct s as [|p [|c s]]; try discriminate.
  destruct ((p =? ch ".")%Z && is_ascii_digit c); [|discriminate].
  intros [= E]. apply (span_digits_length (c :: s) d r) in E.
  simpl in *. lia.
Qed.

Lemma match_exp_sign_length (s : str) :
  List.length (snd (match_exp_sign s)) <= List.length s.
Proof.
  destruct s as [|a [|b s]]; simpl; try lia.
  destruct (a =? ch "-")%Z; [simpl; lia|].
  destruct (a =? ch "+")%Z; simpl; lia.
Qed.

Lemma match_exp_length (s : str) (neg : bool) (d r : str) :
  match_exp s = Some (neg, d, r) -> List.length r <= List.length s.
Proof.
  unfold match_exp. destruct s as [|e s1]; [discriminate|].
  destruct ((e =? ch "e")%Z || (e =? ch "E")%Z); [|discriminate].
  pose proof (match_exp_sign_length s1) as Hsign.
  destruct (match_exp_sign s1) as [n s2]. simpl in Hsign.
  destruct (span_digits s2) as [d' r'] eqn:Es.
  apply span_digits_length in Es.
  destruct d'; [discriminate|]. intros [= _ _ <-]. simpl in *. lia.
Qed.

Lemma match_number_progresses (lim : limits) : progresses (match_number lim).
Proof.
  intros s i. unfold match_number.
  pose proof (match_sign_length s) as Hsign.
  destruct (match_sign s) as [neg s1]. simpl in Hsign.
  destruct (match_int s1) as [ds s2] eqn:Eint.
  destruct ds as [|d0 ds]; [split; [discriminate | intros; discriminate]|].
  apply match_int_length in Eint; [|discriminate].
  assert (Hfrac : List.length
            (snd (match match_frac s2 with
                  | Some (d, r) => (Some d, r)
                  | None => (None, s2)
                  end)) <= List.length s2).
  { destruct (match_frac s2) as [[d r]|] eqn:E; simpl; [|lia].
    now apply match_frac_length in E. }
  destruct (match match_frac s2 with
            | Some (d, r) => (Some d, r)
            | None => (None, s2)
            end) as [frac s3]. simpl in Hfrac.
  assert (Hexp : List.length
            (snd (match match_exp s3 with
                  | Some (eneg, d, r) => (Some (eneg, d), r)
                  | None => (None, s3)
                  end)) <= List.length s3).
  { destruct (match_exp s3) as [[[eneg d] r]|] eqn:E; simpl; [|lia].
    now apply match_exp_length in E. }
  destruct (match match_exp s3 with
            | Some (eneg, d, r) => (Some (eneg, d), r)
            | None => (None, s3)
            end) as [exp s4]. simpl in Hexp.
  destruct frac, exp;
    try (split; [discriminate | intros ? ? ? [= _ <- _]; lia]).
  destruct (int_of_literal lim neg (d0 :: ds));
    split; try discriminate; intros ? ? ? [= _ <- _]; lia.
Qed.

Lemma strip_prefix_length (w s r : str) :
  strip_prefix w s = Some r -> List.length s = List.length w + List.length r.
Proof.
  revert s. induction w as [|a w IH]; intros s; simpl.
  - intros [= <-]. reflexivity.
  - destruct s as [|b s]; [discriminate|].
    destruct (a =? b)%Z; [|discriminate].
    intros H. apply IH in H. simpl. lia.
Qed.

Lemma match_constant_progresses (cs : list (string * pyval)) (s : str)
    (i : Z) (found : scan pyval) :
  Forall (fun wv => u (fst wv) <> []) cs ->
  match_constant cs s i = Some found ->
  found <> Diverge
  /\ forall v r i', found = Ok v r i' -> List.length r < List.length s.
Proof.
  induction 1 as [|[w v] cs Hw _ IH]; simpl; [discriminate|].
  destruct (strip_prefix (u w) s) as [r|] eqn:E; [|exact IH].
  intros [= <-]. apply strip_prefix_length in E.
  split; [discriminate|]. intros ? ? ? [= _ <- _].
  simpl in Hw. destruct (u w); [now elim Hw | simpl in E; lia].
Qed.

Lemma constants_nonempty : Forall (fun wv => u (fst wv) <> []) constants.
Proof. repeat constructor; discriminate. Qed.

Lemma skip_ws_shorter (r : str) (i : Z) (r1 : str) (i1 : Z) :
  skip_ws r i = (r1, i1) -> List.length r1 <= List.length r.
Proof.
  intros E. pose proof (skip_ws_length r i) as H. now rewrite E in H.
Qed.

Lemma array_loop_progresses (value : str -> Z -> scan pyval) :
  progresses value ->
  forall n s i acc, List.length s < n ->
  array_loop value n s i acc <> Diverge
  /\ forall v r i', array_loop value n s i acc = Ok v r i' ->
                    List.length r < List.length s.
Proof.
  intros Hv. induction n as [|n IH]; intros s i acc Hn; [lia|].
  cbn [array_loop]. destruct (Hv s i) as [Hd Hs].
  destruct (value s i) as [v r i0| | |]; cbn [sbind];
    try (split; [discriminate | intros; discriminate]); [|now elim Hd].
  specialize (Hs v r i0 eq_refl).
  destruct (skip_ws r i0) as [r1 i1] eqn:E1. apply skip_ws_shorter in E1.
  destruct r1 as [|c r2]; [split; [discriminate | intros; discriminate]|].
  destruct (c =? ch "]")%Z.
  { split; [discriminate|]. intros ? ? ? [= _ <- _]. simpl in *. lia. }
  destruct (c =? ch ",")%Z; [|split; [discriminate | intros; discriminate]].
  destruct (skip_ws r2 (i1 + 1)%Z) as [r3 i3] eqn:E3.
  apply skip_ws_shorter in E3.
  destruct (IH r3 i3 (v :: acc)) as [Hd' Hs']; [simpl in *; lia|].
  split; [exact Hd'|]. intros ? ? ? HOk. apply Hs' in HOk. simpl in *. lia.
Qed.

Lemma object_loop_progresses (value : str -> Z -> scan pyval) :
  progresses value ->
  forall n s i acc, List.length s < n ->
  object_loop value n s i acc <> Diverge
  /\ forall v r i', object_loop value n s i acc = Ok v r i' ->
                    List.length r < List.length s.
Proof.
  intros Hv. induction n as [|n IH]; intros s i acc Hn; [lia|].
  cbn [object_loop].
  destruct s as [|q s1]; [split; [discriminate | intros; discriminate]|].
  destruct (q =? dquote)%Z; [|split; [discriminate | intros; discriminate]].
  destruct (scanstring_progresses i s1 (i + 1)%Z []) as [Hkd Hks].
  destruct (scanstring i s1 (i + 1)%Z []) as [key r i0| | |]; cbn [sbind];
    try (split; [discriminate | intros; discriminate]); [|now elim Hkd].
  specialize (Hks key r i0 eq_refl).
  destruct (skip_ws r i0) as [r1 i1] eqn:E1. apply skip_ws_shorter in E1.
  destruct r1 as [|c r2]; [split; [discriminate | intros; discriminate]|].
  destruct (c =? ch ":")%Z; [|split; [discriminate | intros; discriminate]].
  destruct (skip_ws r2 (i1 + 1)%Z) as [r3 i3] eqn:E3.
  apply skip_ws_shorter in E3.
  destruct (Hv r3 i3) as [Hd Hs].
  destruct (value r3 i3) as [v r4 i4| | |]; cbn [sbind];
    try (split; [discriminate | intros; discriminate]); [|now elim Hd].
  specialize (Hs v r4 i4 eq_refl).
  destruct (skip_ws r4 i4) as [r5 i5] eqn:E5. apply skip_ws_shorter in E5.
  destruct r5 as [|c' r6]; [split; [discriminate | intros; discriminate]|].
  destruct (c' =? ch "}")%Z.
  { split; [discriminate|]. intros ? ? ? [= _ <- _]. simpl in *. lia. }
  destruct (c' =? ch ",")%Z; [|split; [discriminate | intros; discriminate]].
  destruct (skip_ws r6 (i5 + 1)%Z) as [r7 i7] eqn:E7.
  apply skip_ws_shorter in E7.
  destruct (IH r7 i7 (dict_set acc key v)) as [Hd' Hs']; [simpl in *; lia|].
  split; [exact Hd'|]. intros ? ? ? HOk. apply Hs' in HOk. simpl in *. lia.
Qed.

Lemma scan_once_progresses (lim : limits) (depth : nat) :
  progresses (scan_once lim depth).
Proof.
  induction depth as [|d IH]; intros s i.
  - destruct s as [|c r]; cbn [scan_once];
      [split; [discriminate | intros; discriminate]|].
    destruct (c =? dquote)%Z.
    { destruct (scanstring_progresses i r (i + 1)%Z []) as [Hd Hs].
      destruct (scanstring i r (i + 1)%Z []) as [t r' i'| | |]; cbn [sbind];
        try (split; [discriminate | intros; discriminate]); [|now elim Hd].
      specialize (Hs t r' i' eq_refl).
      split; [discriminate|]. intros ? ? ? [= _ <- _]. simpl. lia. }
    destruct (c =? ch "{")%Z; [split; [discriminate | intros; discriminate]|].
    destruct (c =? ch "[")%Z; [split; [discriminate | intros; discriminate]|].
    destruct (match_constant constants (c :: r) i) as [found|] eqn:E.
    + now apply (match_constant_progresses constants (c :: r) i found
                   constants_nonempty).
    + apply match_number_progresses.
  - destruct s as [|c r]; cbn [scan_once];
      [split; [discriminate | intros; discriminate]|].
    destruct (c =? dquote)%Z.
    { destruct (scanstring_progresses i r (i + 1)%Z []) as [Hd Hs].
      destruct (scanstring i r (i + 1)%Z []) as [t r' i'| | |]; cbn [sbind];
        try (split; [discriminate | intros; discriminate]); [|now elim Hd].
      specialize (Hs t r' i' eq_refl).
      split; [discriminate|]. intros ? ? ? [= _ <- _]. simpl. lia. }
    destruct (c =? ch "{")%Z.
    { destruct (skip_ws r (i + 1)%Z) as [r1 i1] eqn:E1.
      apply skip_ws_shorter in E1.
      assert (Hloop :
        object_loop (scan_once lim d) (S (List.length r1)) r1 i1 [] <> Diverge
        /\ forall v r' i',
            object_loop (scan_once lim d) (S (List.length r1)) r1 i1 []
              = Ok v r' i' -> List.length r' < List.length (c :: r)).
      { destruct (object_loop_progresses _ IH (S (List.length r1)) r1 i1 [])
          as [Hd Hs]; [lia|].
        split; [exact Hd|]. intros ? ? ? HOk. apply Hs in HOk. simpl. lia. }
      destruct r1 as [|c' r2]; [exact Hloop|].
      destruct (c' =? ch "}")%Z; [|exact Hloop].
      split; [discriminate|]. intros ? ? ? [= _ <- _]. simpl in *. lia. }
    destruct (c =? ch "[")%Z.
    { destruct (skip_ws r (i + 1)%Z) as [r1 i1] eqn:E1.
      apply skip_ws_shorter in E1.
      assert (Hloop :
        array_loop (scan_once lim d) (S (List.length r1)) r1 i1 [] <> Diverge
        /\ forall v r' i',
            array_loop (scan_once lim d) (S (List.length r1)) r1 i1 []
              = Ok v r' i' -> List.length r' < List.length (c :: r)).
      { destruct (array_loop_progresses _ IH (S (List.length r1)) r1 i1 [])
          as [Hd Hs]; [lia|].
        split; [exact Hd|]. intros ? ? ? HOk. apply Hs in HOk. simpl. lia. }
      destruct r1 as [|c' r2]; [exact Hloop|].
      destruct (c' =? ch "]")%Z; [|exact Hloop].
      split; [discriminate|]. intros ? ? ? [= _ <- _]. simpl in *. lia. }
    destruct (match_constant constants (c :: r) i) as [found|] eqn:E.
    + now apply (match_constant_progresses constants (c :: r) i found
                   constants_nonempty).
    + apply match_number_progresses.
Qed.

(** The loop counters of the decoder are never exhausted: [Diverge] is not
    an outcome of [raw_decode], and the branch of [decode] for it is dead. *)
Lemma raw_decode_total (lim : limits) (doc : str) :
  raw_decode lim doc <> Diverge.
Proof.
  unfold raw_decode. destruct (skip_ws doc 0) as [s i].
  destruct (scan_once_progresses lim (recursion_limit lim) s i) as [Hd _].
  destruct (scan_once lim (recursion_limit lim) s i) as [v r i'| | |];
    cbn [sbind]; try discriminate; [|exact Hd].
  destruct (skip_ws r i') as [r' e]. destruct r'; discriminate.
Qed.

End JsonTotal.

(** ** Paths through the handler *)

Section Paths.

Variable w : World.


Lemma generate_blog_answers (topic : str) (raw : bytes) (data : pyval)
    (tr : list call) :
  invoke_model w (bedrock_request w topic) = Return raw ->
  Json.loads_bytes (limits w) (decode_wide w) raw = Return data ->
  generate_blog w topic tr
  = (bind (method_get data (u "generation"))
       (fun generation => method_strip (py_or generation (PStr []))),
     tr ++ [InvokeModel (bedrock_request w topic)]).
Proof.
  intros Hraw Hdata. unfold generate_blog, iobind, perform, lift.
  rewrite Hraw, Hdata. destruct (method_get data (u "generation")); reflexivity.
Qed.

Lemma save_blog_to_s3_sends (key content : str) (encoded : bytes)
    (tr : list call) :
  s3_client w = Return tt ->
  Codecs.utf8_encode 0 content = Return encoded ->
  save_blog_to_s3 w key content tr
  = (put_object w (s3_request w key encoded),
     tr ++ [PutObject (s3_request w key encoded)]).
Proof.
  intros Hc He. unfold save_blog_to_s3, iobind, perform, lift.
  rewrite Hc, He. destruct (put_object w (s3_request w key encoded)); reflexivity.
Qed.

(** The handler up to the call of [generate_blog]. *)
Lemma handler_with_topic (event : dict) (ctx body : pyval) (topic : str)
    (tr : list call) :
  _parse_event_body w event = Return body ->
  topic_of body = Return topic ->
  topic <> [] ->
  lambda_handler w event ctx tr
  = match try_except_Exception (generate_blog w topic) tr with
    | (Raise e, tr') => (Raise e, tr')
    | (Return (inr e), tr') =>
        (Return (_error (u "Error generating blog: " ++ exc_str e) 502), tr')
    | (Return (inl []), tr') =>
        (Return (_error (u "Model returned empty content.") 502), tr')
    | (Return (inl blog_text), tr') =>
        match try_except_Exception
                (save_blog_to_s3 w (s3_key_of w topic) blog_text) tr' with
        | (Raise e, tr'') => (Raise e, tr'')
        | (Return (inr e), tr'') =>
            (Return (_error (u "Failed to save to S3: " ++ exc_str e) 502),
             tr'')
        | (Return (inl _), tr'') =>
            (Return (success w (s3_key_of w topic) (preview_of blog_text)
                       (Z.of_nat (List.length blog_text))), tr'')
        end
    end.
Proof.
  intros Hb Ht Hne. unfold lambda_handler, iobind, lift at 1 2.
  rewrite Hb, Ht. destruct topic as [|c t]; [now elim Hne|].
  destruct (try_except_Exception (generate_blog w (c :: t)) tr)
    as [[[blog_text|e]|e] tr']; try reflexivity.
  destruct blog_text as [|b bt]; [reflexivity|].
  destruct (try_except_Exception
              (save_blog_to_s3 w (s3_key_of w (c :: t)) (b :: bt)) tr')
    as [[[[]|e]|e] tr'']; reflexivity.
Qed.

(** The handler stops with the 400 response when the topic is empty. *)
Lemma handler_without_topic (event : dict) (ctx body : pyval)
    (tr : list call) :
  _parse_event_body w event = Return body ->
  topic_of body = Return [] ->
  lambda_handler w event ctx tr = (Return missing_topic, tr).
Proof.
  intros Hb Ht. unfold lambda_handler, iobind, lift. now rewrite Hb, Ht.
Qed.

(** The handler on the path where text is generated and stored. *)
Lemma handler_stores (event : dict) (ctx body : pyval) (topic blog_text : str)
    (calls : list call) (encoded : bytes) :
  _parse_event_body w event = Return body ->
  topic_of body = Return topic ->
  topic <> [] ->
  generate_blog w topic [] = (Return blog_text, calls) ->
  blog_text <> [] ->
  s3_client w = Return tt ->
  Codecs.utf8_encode 0 blog_text = Return encoded ->
  put_object w (s3_request w (s3_key_of w topic) encoded) = Return tt ->
  run w event ctx
  = (Return (success w (s3_key_of w topic) (preview_of blog_text)
               (Z.of_nat (List.length blog_text))),
     calls ++ [PutObject (s3_request w (s3_key_of w topic) encoded)]).
Proof.
  intros Hb Ht Hne Hg Hbt Hc He Hp. unfold run.
  rewrite (handler_with_topic event ctx body topic [] Hb Ht Hne).
  unfold try_except_Exception at 1. rewrite Hg.
  destruct blog_text as [|b bt]; [now elim Hbt|].
  unfold try_except_Exception.
  rewrite (save_blog_to_s3_sends _ _ encoded calls Hc He), Hp.
  reflexivity.
Qed.

Lemma topic_of_empty_dict : topic_of (PDict []) = Return [].
Proof. reflexivity. Qed.

End Paths.

(** ** The handler's contract *)

(** C1, at an input where it fails: for the event
    [{"body": "abc", "isBase64Encoded": true}] the handler returns no
    response; [b64decode] raises [binascii.Error] ("Incorrect padding"),
    nothing catches it, and it leaves [lambda_handler].  No remote call
    has been made. *)
Theorem C1_bad_base64_raises (w : World) (ctx : pyval) :
  run w bad_base64_event ctx
  = (Raise (mkExc BinasciiError (u "Incorrect padding")), []).
Proof. vm_compute. reflexivity. Qed.

(** The same happens for a body that is JSON but not an object:
    [body.get] raises [AttributeError]. *)
Example json_null_body_raises (w : World) (ctx : pyval) :
  run w [(u "body", PStr (u "null"))] ctx
  = (Raise (mkExc AttributeError
              (u "'NoneType' object has no attribute 'get'")), []).
Proof.
  destruct w as [env [[|depth] maxd] ucd wide inv s3c put now];
    vm_compute; reflexivity.
Qed.

(** Bytes that are not UTF-8 do not stop the handler by themselves: the
    body [/w==] is the byte 0xFF, decodes to U+FFFD, fails to parse and
    gives the 400 response. *)
Example invalid_utf8_body_is_400 (w : World) (ctx : pyval) :
  run w [(u "body", PStr (u "/w==")); (u "isBase64Encoded", PBool true)] ctx
  = (Return missing_topic, []).
Proof.
  destruct w as [env [[|depth] maxd] ucd wide inv s3c put now];
    vm_compute; reflexivity.
Qed.

(** C4: when the topic extracted from the event is empty after trimming,
    the handler returns the 400 response and the list of remote calls is
    as it was: neither the model nor the storage has been called. *)
Theorem C4_blank_topic_no_calls (w : World) (event : dict)
    (ctx body : pyval) (tr : list call) :
  _parse_event_body w event = Return body ->
  topic_of body = Return [] ->
  lambda_handler w event ctx tr
  = (Return (_error (u "Missing required field 'blogstopic' in request body.")
               400), tr)
  /\ statusCode
       (_error (u "Missing required field 'blogstopic' in request body.") 400)
     = 400.
Proof.
  intros Hb Ht. split; [|reflexivity].
  exact (handler_without_topic w event ctx body tr Hb Ht).
Qed.

Lemma C4_witness :
  lambda_handler some_world blank_topic_event PNone []
  = (Return (_error (u "Missing required field 'blogstopic' in request body.")
               400), []).
Proof.
  apply (C4_blank_topic_no_calls some_world blank_topic_event PNone
           (PDict [(u "blogstopic", PStr (u "   "))]) []);
    vm_compute; reflexivity.
Defined.

(** More opening brackets than containers may nest: [scan_once] gives up
    with [RecursionError], whatever follows. *)
Lemma scan_once_too_deep (lim : Json.limits) (depth : nat) :
  forall idx,
    Json.scan_once lim depth (repeat (ch "[") (S depth)) idx
    = Json.recursion_error "array".
Proof.
  induction depth as [|d IH]; intros idx; [reflexivity|].
  change (repeat (ch "[") (S (S d)))
    with (ch "[" :: repeat (ch "[") (S d)).
  remember (repeat (ch "[") (S d)) as r eqn:Er.
  cbn [Json.scan_once].
  change (ch "[" =? dquote) with false.
  change (ch "[" =? ch "{") with false.
  change (ch "[" =? ch "[") with true. cbv beta iota.
  rewrite Er at 1. cbn [repeat Json.skip_ws].
  change (Json.is_whitespace (ch "[")) with false. cbv beta iota.
  change (ch "[" =? ch "]") with false. cbv beta iota.
  change (ch "[" :: repeat (ch "[") d) with (repeat (ch "[") (S d)).
  rewrite <- Er. cbn [Json.array_loop]. rewrite IH. reflexivity.
Qed.

Lemma loads_str_too_deep (lim : Json.limits) :
  Json.loads_str lim (repeat (ch "[") (S (Json.recursion_limit lim)))
  = Raise (mkExc RecursionError
             (u "maximum recursion depth exceeded while decoding a JSON array from a unicode string")).
Proof.
  change (repeat (ch "[") (S (Json.recursion_limit lim)))
    with (ch "[" :: repeat (ch "[") (Json.recursion_limit lim)).
  unfold Json.loads_str, Json.decode, Json.raw_decode.
  change (Json.skip_ws (ch "[" :: repeat (ch "[") (Json.recursion_limit lim)) 0)
    with (ch "[" :: repeat (ch "[") (Json.recursion_limit lim), 0).
  cbv beta iota.
  change (ch "[" :: repeat (ch "[") (Json.recursion_limit lim))
    with (repeat (ch "[") (S (Json.recursion_limit lim))).
  rewrite scan_once_too_deep. reflexivity.
Qed.

(** C5 fails as stated: a body of 1001 opening brackets does not parse
    as JSON, but [json.loads] gives up with [RecursionError] before it
    finds the syntax error; [except json.JSONDecodeError] does not catch
    that, so [_parse_event_body] returns no dict and the handler no
    response. *)
Lemma C5_counterexample :
  dict_lookup deep_event (u "body") = Some (PStr deep_brackets)
  /\ truthy (dict_get deep_event (u "isBase64Encoded")) = false
  /\ Json.loads_str (limits some_world) deep_brackets
     = Raise (mkExc RecursionError
                (u "maximum recursion depth exceeded while decoding a JSON array from a unicode string"))
  /\ _parse_event_body some_world deep_event <> Return (PDict [])
  /\ run some_world deep_event PNone
     = (Raise (mkExc RecursionError
                 (u "maximum recursion depth exceeded while decoding a JSON array from a unicode string")),
        []).
Proof.
  assert (Hloads : Json.loads_str (limits some_world) deep_brackets
                   = Raise (mkExc RecursionError
                              (u "maximum recursion depth exceeded while decoding a JSON array from a unicode string")))
    by exact (loads_str_too_deep (limits some_world)).
  assert (Hparse : _parse_event_body some_world deep_event
                   = Raise (mkExc RecursionError
                              (u "maximum recursion depth exceeded while decoding a JSON array from a unicode string"))).
  { unfold _parse_event_body, deep_event. cbn [dict_lookup].
    change (str_eqb (u "body") (u "body")) with true. cbv beta iota.
    change (truthy (dict_get [(u "body", PStr deep_brackets)]
                      (u "isBase64Encoded"))) with false.
    cbv beta iota. cbn [bind]. unfold loads_or_empty. cbn [Json.loads].
    rewrite Hloads. reflexivity. }
  split; [reflexivity|]. split; [reflexivity|]. split; [exact Hloads|].
  split; [rewrite Hparse; discriminate|].
  unfold run, lambda_handler, iobind, lift. rewrite Hparse. reflexivity.
Qed.

(** C5, amended: an event without body, or with a null body, or with a
    body text (as it is, or after base64 and UTF-8 decoding) that
    [json.loads] rejects with [JSONDecodeError], is parsed to the empty
    dict, and the handler answers 400 "Missing required field 'blogstopic'
    in request body." without calling a service. *)
Theorem C5_missing_or_malformed_body (w : World) (event : dict)
    (ctx : pyval) :
  (dict_lookup event (u "body") = None
   \/ dict_lookup event (u "body") = Some PNone
   \/ (exists text e,
         dict_lookup event (u "body") = Some (PStr text)
         /\ truthy (dict_get event (u "isBase64Encoded")) = false
         /\ Json.loads_str (limits w) text = Raise e
         /\ exc_cls e = JSONDecodeError)
   \/ (exists encoded decoded text e,
         dict_lookup event (u "body") = Some (PStr encoded)
         /\ truthy (dict_get event (u "isBase64Encoded")) = true
         /\ Base64.b64decode_str encoded = Return decoded
         /\ Codecs.utf8_decode Codecs.Replace 0 decoded = Return text
         /\ Json.loads_str (limits w) text = Raise e
         /\ exc_cls e = JSONDecodeError)) ->
  _parse_event_body w event = Return (PDict [])
  /\ run w event ctx
     = (Return (_error
                  (u "Missing required field 'blogstopic' in request body.")
                  400), []).
Proof.
  intros H.
  assert (Hparse : _parse_event_body w event = Return (PDict [])).
  { unfold _parse_event_body.
    destruct H as [H | [H | [(text & e & Hb & Hf & Hl & He)
                            | (enc & dec & text & e & Hb & Hf & Hd & Hu & Hl & He)]]].
    - now rewrite H.
    - now rewrite H.
    - rewrite Hb, Hf. cbn [bind]. unfold loads_or_empty. cbn [Json.loads].
      rewrite Hl, He. reflexivity.
    - rewrite Hb, Hf. unfold decode_base64_body. cbn [Base64.b64decode].
      rewrite Hd. cbn [bind]. rewrite Hu. cbn [bind].
      unfold loads_or_empty. cbn [Json.loads]. rewrite Hl, He. reflexivity. }
  split; [exact Hparse|].
  exact (handler_without_topic w event ctx (PDict []) [] Hparse
           (topic_of_empty_dict)).
Qed.

Lemma C5_witness :
  _parse_event_body some_world [(u "body", PStr (u "{not json"))]
  = Return (PDict [])
  /\ run some_world [(u "body", PStr (u "{not json"))] PNone
     = (Return (_error
                  (u "Missing required field 'blogstopic' in request body.")
                  400), []).
Proof.
  apply (C5_missing_or_malformed_body some_world
           [(u "body", PStr (u "{not json"))] PNone).
  right. right. left.
  exists (u "{not json").
  exists (mkExc JSONDecodeError
            (u "Expecting property name enclosed in double quotes: line 1 column 2 (char 1)")).
  repeat split; vm_compute; reflexivity.
Defined.

Lemma blank_generation_strips (d : dict) :
  generation_blank d = true ->
  bind (method_get (PDict d) (u "generation"))
    (fun generation => method_strip (py_or generation (PStr [])))
  = Return [].
Proof.
  unfold generation_blank, method_get, dict_get.
  destruct (dict_lookup d (u "generation")) as [[| | | |s| |]|];
    try discriminate; intros H; cbn [bind]; [|reflexivity].
  destruct s as [|c s]; [reflexivity|].
  cbn [py_or truthy method_strip]. now rewrite strip_all_space.
Qed.

(** C6: when the model's response is a JSON object whose [generation]
    field is missing, empty or whitespace only, [generate_blog] returns the
    empty string (it does not raise), and the handler answers 502 "Model
    returned empty content."; the model has been called once and the
    storage not at all. *)
Theorem C6_empty_generation (w : World) (event : dict) (ctx body : pyval)
    (topic : str) (raw : bytes) (d : dict) :
  _parse_event_body w event = Return body ->
  topic_of body = Return topic ->
  topic <> [] ->
  invoke_model w (bedrock_request w topic) = Return raw ->
  Json.loads_bytes (limits w) (decode_wide w) raw = Return (PDict d) ->
  generation_blank d = true ->
  generate_blog w topic []
  = (Return [], [InvokeModel (bedrock_request w topic)])
  /\ run w event ctx
     = (Return (_error (u "Model returned empty content.") 502),
        [InvokeModel (bedrock_request w topic)])
  /\ statusCode (_error (u "Model returned empty content.") 502) = 502.
Proof.
  intros Hb Ht Hne Hraw Hd Hblank.
  assert (Hg : generate_blog w topic []
               = (Return [], [InvokeModel (bedrock_request w topic)])).
  { rewrite (generate_blog_answers w topic raw (PDict d) [] Hraw Hd).
    now rewrite blank_generation_strips. }
  split; [exact Hg|]. split; [|reflexivity].
  unfold run. rewrite (handler_with_topic w event ctx body topic [] Hb Ht Hne).
  unfold try_except_Exception. now rewrite Hg.
Qed.

Lemma C6_witness :
  generate_blog silent_world (u "Coffee!!") []
  = (Return [], [InvokeModel (bedrock_request silent_world (u "Coffee!!"))])
  /\ run silent_world coffee_event PNone
     = (Return (_error (u "Model returned empty content.") 502),
        [InvokeModel (bedrock_request silent_world (u "Coffee!!"))])
  /\ statusCode (_error (u "Model returned empty content.") 502) = 502.
Proof.
  apply (C6_empty_generation silent_world coffee_event PNone
           (PDict [(u "blogstopic", PStr (u "Coffee!!"))]) (u "Coffee!!")
           (uq "{'generation': '  '}")
           [(u "generation", PStr (u "  "))]);
    try (vm_compute; reflexivity).
  discriminate.
Defined.

(** ** The storage key and the preview *)

Lemma filter_none (A : Type) (f : A -> bool) (l : list A) :
  forallb (fun x => negb (f x)) l = true -> filter f l = [].
Proof.
  induction l as [|x l IH]; simpl; [reflexivity|].
  intros H. apply andb_prop in H as [Hx Hl].
  apply negb_true_iff in Hx. rewrite Hx. now apply IH.
Qed.

(** C8: the storage key of a topic is [blogs/], the sanitized topic, [_],
    the timestamp and [.txt].  The sanitized topic is the topic with every
    character dropped that is not alphanumeric, [-] or [_] (nothing else
    is dropped and nothing is cut), or [blog] when no character is left,
    in particular when the topic has no such character.  The timestamp is
    the clock's UTC time written [YYYY-MM-DDTHH-MM-SSZ].  This key is the
    one the handler sends to the storage and reports in its response. *)
Theorem C8_storage_key (w : World) (topic : str) :
  ucd_sound w ->
  four_digit_date (utcnow w) = true ->
  s3_key_of w topic
  = u "blogs/"
      ++ match filter (fun c => isalnum (ucd_isalnum w) c
                                || (c =? ch "-") || (c =? ch "_")) topic with
         | [] => u "blog"
         | kept => kept
         end
      ++ u "_" ++ iso_basic (utcnow w) ++ u ".txt"
  /\ (forallb (fun c => negb (isalnum (ucd_isalnum w) c
                              || (c =? ch "-") || (c =? ch "_"))) topic = true ->
      s3_key_of w topic
      = u "blogs/" ++ u "blog" ++ u "_" ++ iso_basic (utcnow w) ++ u ".txt")
  /\ (forall event ctx body blog_text calls encoded,
        _parse_event_body w event = Return body ->
        topic_of body = Return topic ->
        topic <> [] ->
        generate_blog w topic [] = (Return blog_text, calls) ->
        blog_text <> [] ->
        s3_client w = Return tt ->
        Codecs.utf8_encode 0 blog_text = Return encoded ->
        put_object w (s3_request w (s3_key_of w topic) encoded) = Return tt ->
        run w event ctx
        = (Return (success w (s3_key_of w topic) (preview_of blog_text)
                     (Z.of_nat (List.length blog_text))),
           calls ++ [PutObject (s3_request w (s3_key_of w topic) encoded)])).
Proof.
  intros Hw Hdate.
  assert (Hkey : s3_key_of w topic
                 = u "blogs/"
                     ++ match filter (keep_in_key w) topic with
                        | [] => u "blog"
                        | kept => kept
                        end
                     ++ u "_" ++ iso_basic (utcnow w) ++ u ".txt").
  { unfold s3_key_of, timestamp, safe_topic_of.
    now rewrite strip_filter_keep, strftime_iso_basic. }
  split; [exact Hkey|]. split.
  - intros Hnone. rewrite Hkey.
    now rewrite (filter_none Z (keep_in_key w) topic Hnone).
  - intros event ctx body blog_text calls encoded. apply handler_stores.
Qed.

Lemma latin1_world_sound : ucd_sound latin1_world.
Proof.
  intros c Hc. cbn [ucd_isalnum latin1_world]. unfold latin1_letters.
  intros H. apply andb_prop in H as [H _]. apply andb_prop in H as [H _].
  apply andb_prop in H as [H1 H2]. apply Z.leb_le in H1.
  destruct (isspace c) eqn:E; [|reflexivity].
  unfold isspace in E.
  rewrite !orb_true_iff, !andb_true_iff, !Z.leb_le, !Z.eqb_eq in E.
  apply Z.leb_le in H2. lia.
Qed.

Lemma C8_witness :
  s3_key_of latin1_world (u "Caf" ++ [0xE9] ++ u " au lait!")
  = u "blogs/Caf" ++ [0xE9] ++ u "aulait_2024-03-07T09-05-00Z.txt"
  /\ s3_key_of latin1_world (u "?! ...")
     = u "blogs/blog_2024-03-07T09-05-00Z.txt".
Proof.
  destruct (C8_storage_key latin1_world (u "Caf" ++ [0xE9] ++ u " au lait!")
              latin1_world_sound eq_refl) as [Hkey _].
  destruct (C8_storage_key latin1_world (u "?! ...")
              latin1_world_sound eq_refl) as [_ [Hblog _]].
  split.
  - rewrite Hkey. vm_compute. reflexivity.
  - rewrite Hblog; vm_compute; reflexivity.
Defined.

Lemma preview_short (blog_text : str) :
  (List.length blog_text <= 200)%nat -> preview_of blog_text = blog_text.
Proof.
  intros H. unfold preview_of.
  rewrite firstn_all2 by exact H.
  destruct (Nat.ltb_spec 200 (List.length blog_text)); [lia|].
  apply app_nil_r.
Qed.

Lemma preview_long (blog_text : str) :
  (200 < List.length blog_text)%nat ->
  preview_of blog_text = firstn 200 blog_text ++ u "..."
  /\ List.length (firstn 200 blog_text) = 200%nat.
Proof.
  intros H. unfold preview_of.
  destruct (Nat.ltb_spec 200 (List.length blog_text)); [|lia].
  split; [reflexivity|]. rewrite length_firstn. lia.
Qed.

(** ** The request body *)

(** C10: whether the body is base64-decoded depends on the truth value of
    [isBase64Encoded], not on its being [True].  With the field absent,
    [None], [False], [0] or the empty string, the body goes to
    [json.loads] as it is; with any truthy value, the non-empty string
    ["false"] among them, it is first base64-decoded and decoded as
    UTF-8. *)
Theorem C10_base64_by_truthiness (w : World) (event : dict)
    (body_str : pyval) :
  dict_lookup event (u "body") = Some body_str ->
  body_str <> PNone ->
  (flag_unset (dict_lookup event (u "isBase64Encoded")) ->
   _parse_event_body w event = loads_or_empty w body_str)
  /\ (forall flag,
        dict_lookup event (u "isBase64Encoded") = Some flag ->
        truthy flag = true ->
        _parse_event_body w event
        = bind (Base64.b64decode body_str) (fun decoded =>
          bind (Codecs.utf8_decode Codecs.Replace 0 decoded) (fun text =>
          loads_or_empty w (PStr text))))
  /\ truthy (PStr (u "false")) = true.
Proof.
  intros Hb Hnn.
  assert (Hparse : _parse_event_body w event
                   = bind (if truthy (dict_get event (u "isBase64Encoded"))
                           then decode_base64_body body_str
                           else Return body_str) (loads_or_empty w)).
  { unfold _parse_event_body. rewrite Hb.
    destruct body_str; try reflexivity. now elim Hnn. }
  split; [|split; [|reflexivity]].
  - intros Hflag. rewrite Hparse. unfold dict_get.
    destruct Hflag as [H | [H | [H | [H | H]]]]; rewrite H; reflexivity.
  - intros flag Hflag Htrue. rewrite Hparse. unfold dict_get.
    rewrite Hflag, Htrue. unfold decode_base64_body.
    destruct (Base64.b64decode body_str) as [decoded|e]; [|reflexivity].
    cbn [bind].
    destruct (Codecs.utf8_decode Codecs.Replace 0 decoded); reflexivity.
Qed.

(** The body [eyJ0b3BpYyI6ICJ4In0=] is the base64 of [{"topic": "x"}]: it
    is decoded when the flag is the string ["false"], and taken as JSON
    text (which it is not) when the flag is [0]. *)
Lemma C10_witness :
  _parse_event_body some_world
    [(u "body", PStr (u "eyJ0b3BpYyI6ICJ4In0="));
     (u "isBase64Encoded", PStr (u "false"))]
  = Return (PDict [(u "topic", PStr (u "x"))])
  /\ _parse_event_body some_world
       [(u "body", PStr (u "eyJ0b3BpYyI6ICJ4In0="));
        (u "isBase64Encoded", PInt 0)]
     = Return (PDict []).
Proof.
  split.
  - destruct (C10_base64_by_truthiness some_world
                [(u "body", PStr (u "eyJ0b3BpYyI6ICJ4In0="));
                 (u "isBase64Encoded", PStr (u "false"))]
                (PStr (u "eyJ0b3BpYyI6ICJ4In0=")) eq_refl)
      as [_ [Hset _]]; [discriminate|].
    rewrite (Hset (PStr (u "false")) eq_refl eq_refl).
    vm_compute. reflexivity.
  - destruct (C10_base64_by_truthiness some_world
                [(u "body", PStr (u "eyJ0b3BpYyI6ICJ4In0="));
                 (u "isBase64Encoded", PInt 0)]
                (PStr (u "eyJ0b3BpYyI6ICJ4In0=")) eq_refl)
      as [Hunset _]; [discriminate|].
    rewrite Hunset; [vm_compute; reflexivity|].
    right. right. right. left. reflexivity.
Defined.

(** ** The topic *)

(** C2 fails as stated: with ["blogstopic": "   "] and
    ["topic": "Coffee"], the first non-blank field is [topic], but the
    handler takes [blogstopic], whose trimmed value is empty. *)
Lemma C2_counterexample :
  dict_lookup spaces_then_coffee (u "blogstopic") = Some (PStr (u "   "))
  /\ blank (u "   ") = true
  /\ dict_lookup spaces_then_coffee (u "topic") = Some (PStr (u "Coffee"))
  /\ blank (u "Coffee") = false
  /\ spec_first_non_blank ["blogstopic"; "topic"]%string spaces_then_coffee
     = u "Coffee"
  /\ topic_of (PDict spaces_then_coffee) = Return []
  /\ topic_of (PDict spaces_then_coffee)
     <> Return (spec_first_non_blank ["blogstopic"; "topic"]%string
                  spaces_then_coffee).
Proof. repeat split; try (vm_compute; reflexivity). discriminate. Qed.

(** C2, amended: when both fields hold strings, the topic is the trimmed
    value of [blogstopic] unless that value is the empty string, and then
    the trimmed value of [topic].  So [blogstopic] comes first and [topic]
    is the fallback; an empty [blogstopic] gives way to a non-blank
    [topic]; and whenever [blogstopic] is empty or not blank, the topic is
    the first non-blank candidate. *)
Theorem C2_topic_precedence (d : dict) (first second : str) :
  dict_lookup d (u "blogstopic") = Some (PStr first) ->
  dict_lookup d (u "topic") = Some (PStr second) ->
  topic_of (PDict d)
  = Return (strip (match first with [] => second | _ => first end))
  /\ (first = [] -> blank second = false ->
      topic_of (PDict d) = Return (strip second) /\ strip second <> [])
  /\ (first = [] \/ blank first = false ->
      topic_of (PDict d)
      = Return (spec_first_non_blank ["blogstopic"; "topic"]%string d)).
Proof.
  intros H1 H2.
  assert (Htopic : topic_of (PDict d)
                   = Return (strip (match first with
                                    | [] => second
                                    | _ => first
                                    end))).
  { unfold topic_of, method_get, dict_get. rewrite H1, H2.
    destruct first as [|c f]; [|reflexivity].
    cbn [bind truthy py_or]. destruct second; reflexivity. }
  split; [exact Htopic|]. split.
  - intros -> Hnb. split; [exact Htopic|].
    unfold blank in Hnb. destruct (strip second); [discriminate|discriminate].
  - intros Hcase. rewrite Htopic.
    cbn [spec_first_non_blank]. rewrite H1, H2.
    destruct Hcase as [-> | Hnb].
    + change (blank []) with true. cbv iota.
      unfold blank. destruct (strip second) eqn:E; reflexivity.
    + rewrite Hnb. destruct first; [discriminate|reflexivity].
Qed.

Lemma C2_witness :
  topic_of (PDict [(u "blogstopic", PStr []); (u "topic", PStr (u " Tea "))])
  = Return (u "Tea")
  /\ topic_of (PDict [(u "blogstopic", PStr (u "Coffee"));
                      (u "topic", PStr (u "Tea"))])
     = Return (u "Coffee").
Proof.
  split.
  - destruct (C2_topic_precedence
                [(u "blogstopic", PStr []); (u "topic", PStr (u " Tea "))]
                [] (u " Tea ") eq_refl eq_refl) as [_ [Hfallback _]].
    destruct (Hfallback eq_refl) as [Ht _]; [vm_compute; reflexivity|].
    rewrite Ht. vm_compute. reflexivity.
  - destruct (C2_topic_precedence
                [(u "blogstopic", PStr (u "Coffee"));
                 (u "topic", PStr (u "Tea"))]
                (u "Coffee") (u "Tea") eq_refl eq_refl) as [Ht _].
    rewrite Ht. vm_compute. reflexivity.
Defined.

(** ** End to end *)

(** C3 fails as stated: the text "A short text about coffee." has 26
    characters, and [length_chars] in the response is 26, not 27.  The
    rest of the claim holds on this run. *)
Lemma C3_counterexample :
  exists r calls,
    run coffee_world coffee_event PNone = (Return r, calls)
    /\ statusCode r = 200
    /\ response_field r "s3_key"
       = Return (PStr (u "blogs/Coffee_2024-03-07T09-05-00Z.txt"))
    /\ response_field r "preview" = Return (PStr coffee_text)
    /\ response_field r "length_chars" = Return (PInt 26)
    /\ response_field r "length_chars" <> Return (PInt 27).
Proof.
  eexists. eexists. split; [vm_compute; reflexivity|].
  repeat split; try (vm_compute; reflexivity).
  vm_compute. discriminate.
Qed.

Lemma coffee_event_parses (w : World) :
  (0 < Json.recursion_limit (limits w))%nat ->
  _parse_event_body w coffee_event
  = Return (PDict [(u "blogstopic", PStr (u "Coffee!!"))]).
Proof.
  destruct w as [env [[|[|depth]] maxd] ucd wide inv s3c put now];
    cbn [limits Json.recursion_limit]; [lia| |];
    intros _; vm_compute; reflexivity.
Qed.

Lemma coffee_safe_topic (w : World) :
  safe_topic_of w (u "Coffee!!") = u "Coffee".
Proof. vm_compute. reflexivity. Qed.

(** C3, amended: for the event with body [{"blogstopic": "Coffee!!"}],
    when the model's response is a JSON object whose [generation] is
    "A short text about coffee." and the storage write succeeds, the
    handler returns status 200 with the key [blogs/Coffee_], the
    timestamp, [.txt]; with [length_chars] 26; and with the whole text as
    preview.  It has called the model and then the storage with that key
    and text. *)
Theorem C3_coffee_end_to_end (w : World) (ctx : pyval) (raw : bytes)
    (d : dict) :
  (0 < Json.recursion_limit (limits w))%nat ->
  invoke_model w (bedrock_request w (u "Coffee!!")) = Return raw ->
  Json.loads_bytes (limits w) (decode_wide w) raw = Return (PDict d) ->
  dict_lookup d (u "generation") = Some (PStr coffee_text) ->
  s3_client w = Return tt ->
  put_object w
    (s3_request w (u "blogs/Coffee_" ++ timestamp w ++ u ".txt") coffee_text)
  = Return tt ->
  run w coffee_event ctx
  = (Return (success w (u "blogs/Coffee_" ++ timestamp w ++ u ".txt")
               coffee_text 26),
     [InvokeModel (bedrock_request w (u "Coffee!!"));
      PutObject
        (s3_request w (u "blogs/Coffee_" ++ timestamp w ++ u ".txt")
           coffee_text)])
  /\ statusCode (success w (u "blogs/Coffee_" ++ timestamp w ++ u ".txt")
                   coffee_text 26) = 200.
Proof.
  intros Hdepth Hraw Hdata Hgen Hclient Hput. split; [|reflexivity].
  assert (Hkey : s3_key_of w (u "Coffee!!")
                 = u "blogs/Coffee_" ++ timestamp w ++ u ".txt").
  { unfold s3_key_of. rewrite coffee_safe_topic.
    generalize (timestamp w). intros ts. vm_compute. reflexivity. }
  assert (Hg : generate_blog w (u "Coffee!!") []
               = (Return coffee_text,
                  [InvokeModel (bedrock_request w (u "Coffee!!"))])).
  { rewrite (generate_blog_answers w _ raw (PDict d) [] Hraw Hdata).
    f_equal. unfold method_get, dict_get. rewrite Hgen.
    vm_compute. reflexivity. }
  rewrite <- Hkey in Hput |- *.
  rewrite (handler_stores w coffee_event ctx
             (PDict [(u "blogstopic", PStr (u "Coffee!!"))]) (u "Coffee!!")
             coffee_text [InvokeModel (bedrock_request w (u "Coffee!!"))]
             coffee_text);
    try assumption; try discriminate; try reflexivity.
  now apply coffee_event_parses.
Qed.

Lemma C3_witness :
  fst (run coffee_world coffee_event PNone)
  = Return (success coffee_world (u "blogs/Coffee_2024-03-07T09-05-00Z.txt")
              coffee_text 26).
Proof.
  assert (Hdepth : (0 < Json.recursion_limit (limits coffee_world))%nat)
    by (apply Nat.ltb_lt; vm_compute; reflexivity).
  assert (Hdata : Json.loads_bytes (limits coffee_world)
                    (decode_wide coffee_world) coffee_answer
                  = Return (PDict [(u "generation", PStr coffee_text)]))
    by (vm_compute; reflexivity).
  destruct (C3_coffee_end_to_end coffee_world PNone coffee_answer
              [(u "generation", PStr coffee_text)]
              Hdepth eq_refl Hdata eq_refl eq_refl eq_refl) as [Hrun _].
  rewrite Hrun. reflexivity.
Defined.

(** * Further properties *)

Import Checks.

(** ** What every run of the handler looks like *)

Section Runs.

Variable w : World.

(** [try/except Exception] lets nothing of class [Exception] through. *)
Lemma try_except_raises (A : Type) (m : io A) (tr tr' : list call) (e : exc) :
  try_except_Exception m tr = (Raise e, tr') -> is_Exception e = false.
Proof.
  unfold try_except_Exception.
  destruct (m tr) as [[a|e'] tr'']; [discriminate|].
  destruct (is_Exception e') eqn:E; [discriminate|].
  now intros [= <- _].
Qed.

(** [generate_blog] sends exactly one request, whatever comes of it. *)
Lemma generate_blog_calls (topic : str) (tr : list call) :
  snd (generate_blog w topic tr)
  = tr ++ [InvokeModel (bedrock_request w topic)].
Proof.
  unfold generate_blog, iobind, perform, lift.
  destruct (invoke_model w (bedrock_request w topic)) as [raw|e];
    [|reflexivity].
  destruct (Json.loads_bytes (limits w) (decode_wide w) raw) as [data|e];
    [|reflexivity].
  destruct (method_get data (u "generation")); reflexivity.
Qed.

(** [save_blog_to_s3] sends nothing, or the one request that carries the
    encoded text. *)
Lemma save_blog_to_s3_calls (key content : str) (tr : list call) :
  (snd (save_blog_to_s3 w key content tr) = tr
   /\ exists e, fst (save_blog_to_s3 w key content tr) = Raise e)
  \/ exists encoded,
       Codecs.utf8_encode 0 content = Return encoded
       /\ save_blog_to_s3 w key content tr
          = (put_object w (s3_request w key encoded),
             tr ++ [PutObject (s3_request w key encoded)]).
Proof.
  unfold save_blog_to_s3, iobind, perform, lift.
  destruct (s3_client w) as [[]|e]; [|left; split; [reflexivity|now exists e]].
  destruct (Codecs.utf8_encode 0 content) as [encoded|e];
    [|left; split; [reflexivity|now exists e]].
  right. exists encoded. split; [reflexivity|].
  destruct (put_object w (s3_request w key encoded)); reflexivity.
Qed.


(** Every way a run of the handler can end, with the calls it has made:
    a property that holds of each of the eleven outcomes holds of the
    run. *)
Lemma handler_outcomes (event : dict) (ctx : pyval) (tr : list call)
    (P : result response * list call -> Prop) :
  (forall e, _parse_event_body w event = Raise e -> P (Raise e, tr)) ->
  (forall body e,
     _parse_event_body w event = Return body ->
     topic_of body = Raise e -> P (Raise e, tr)) ->
  (forall body,
     _parse_event_body w event = Return body ->
     topic_of body = Return [] -> P (Return missing_topic, tr)) ->
  (forall body topic e,
     _parse_event_body w event = Return body ->
     topic_of body = Return topic -> topic <> [] ->
     generate_blog w topic tr
     = (Raise e, tr ++ [InvokeModel (bedrock_request w topic)]) ->
     is_Exception e = false ->
     P (Raise e, tr ++ [InvokeModel (bedrock_request w topic)])) ->
  (forall body topic e,
     _parse_event_body w event = Return body ->
     topic_of body = Return topic -> topic <> [] ->
     generate_blog w topic tr
     = (Raise e, tr ++ [InvokeModel (bedrock_request w topic)]) ->
     is_Exception e = true ->
     P (Return (_error (u "Error generating blog: " ++ exc_str e) 502),
        tr ++ [InvokeModel (bedrock_request w topic)])) ->
  (forall body topic,
     _parse_event_body w event = Return body ->
     topic_of body = Return topic -> topic <> [] ->
     generate_blog w topic tr
     = (Return [], tr ++ [InvokeModel (bedrock_request w topic)]) ->
     P (Return (_error (u "Model returned empty content.") 502),
        tr ++ [InvokeModel (bedrock_request w topic)])) ->
  (forall body topic blog_text e,
     _parse_event_body w event = Return body ->
     topic_of body = Return topic -> topic <> [] ->
     generate_blog w topic tr
     = (Return blog_text, tr ++ [InvokeModel (bedrock_request w topic)]) ->
     blog_text <> [] ->
     save_blog_to_s3 w (s3_key_of w topic) blog_text
       (tr ++ [InvokeModel (bedrock_request w topic)])
     = (Raise e, tr ++ [InvokeModel (bedrock_request w topic)]) ->
     is_Exception e = false ->
     P (Raise e, tr ++ [InvokeModel (bedrock_request w topic)])) ->
  (forall body topic blog_text e,
     _parse_event_body w event = Return body ->
     topic_of body = Return topic -> topic <> [] ->
     generate_blog w topic tr
     = (Return blog_text, tr ++ [InvokeModel (bedrock_request w topic)]) ->
     blog_text <> [] ->
     save_blog_to_s3 w (s3_key_of w topic) blog_text
       (tr ++ [InvokeModel (bedrock_request w topic)])
     = (Raise e, tr ++ [InvokeModel (bedrock_request w topic)]) ->
     is_Exception e = true ->
     P (Return (_error (u "Failed to save to S3: " ++ exc_str e) 502),
        tr ++ [InvokeModel (bedrock_request w topic)])) ->
  (forall body topic blog_text encoded e,
     _parse_event_body w event = Return body ->
     topic_of body = Return topic -> topic <> [] ->
     generate_blog w topic tr
     = (Return blog_text, tr ++ [InvokeModel (bedrock_request w topic)]) ->
     blog_text <> [] ->
     Codecs.utf8_encode 0 blog_text = Return encoded ->
     put_object w (s3_request w (s3_key_of w topic) encoded) = Raise e ->
     is_Exception e = false ->
     P (Raise e,
        (tr ++ [InvokeModel (bedrock_request w topic)])
          ++ [PutObject (s3_request w (s3_key_of w topic) encoded)])) ->
  (forall body topic blog_text encoded e,
     _parse_event_body w event = Return body ->
     topic_of body = Return topic -> topic <> [] ->
     generate_blog w topic tr
     = (Return blog_text, tr ++ [InvokeModel (bedrock_request w topic)]) ->
     blog_text <> [] ->
     Codecs.utf8_encode 0 blog_text = Return encoded ->
     put_object w (s3_request w (s3_key_of w topic) encoded) = Raise e ->
     is_Exception e = true ->
     P (Return (_error (u "Failed to save to S3: " ++ exc_str e) 502),
        (tr ++ [InvokeModel (bedrock_request w topic)])
          ++ [PutObject (s3_request w (s3_key_of w topic) encoded)])) ->
  (forall body topic blog_text encoded,
     _parse_event_body w event = Return body ->
     topic_of body = Return topic -> topic <> [] ->
     generate_blog w topic tr
     = (Return blog_text, tr ++ [InvokeModel (bedrock_request w topic)]) ->
     blog_text <> [] ->
     Codecs.utf8_encode 0 blog_text = Return encoded ->
     put_object w (s3_request w (s3_key_of w topic) encoded) = Return tt ->
     P (Return (success w (s3_key_of w topic) (preview_of blog_text)
                  (Z.of_nat (List.length blog_text))),
        (tr ++ [InvokeModel (bedrock_request w topic)])
          ++ [PutObject (s3_request w (s3_key_of w topic) encoded)])) ->
  P (lambda_handler w event ctx tr).
Proof.
  intros H1 H2 H3 H4 H5 H6 H7 H8 H9 H10 H11.
  destruct (_parse_event_body w event) as [body|e] eqn:Hb.
  2:{ unfold lambda_handler, iobind, lift. rewrite Hb. exact (H1 e eq_refl). }
  specialize (H2 body). specialize (H3 body eq_refl).
  specialize (H4 body). specialize (H5 body). specialize (H6 body).
  specialize (H7 body). specialize (H8 body). specialize (H9 body).
  specialize (H10 body). specialize (H11 body).
  destruct (topic_of body) as [topic|e] eqn:Ht.
  2:{ unfold lambda_handler, iobind, lift. rewrite Hb, Ht.
      exact (H2 e eq_refl eq_refl). }
  destruct topic as [|c t].
  { rewrite (handler_without_topic w event ctx body tr Hb Ht).
    exact (H3 eq_refl). }
  assert (Hne : c :: t <> []) by discriminate.
  rewrite (handler_with_topic w event ctx body (c :: t) tr Hb Ht Hne).
  pose proof (generate_blog_calls (c :: t) tr) as Hcalls.
  unfold try_except_Exception at 1.
  destruct (generate_blog w (c :: t) tr) as [[blog_text|e] tr1] eqn:Hg;
    cbn [snd] in Hcalls; subst tr1.
  2:{ destruct (is_Exception e) eqn:He.
      - exact (H5 (c :: t) e eq_refl eq_refl Hne Hg He).
      - exact (H4 (c :: t) e eq_refl eq_refl Hne Hg He). }
  destruct blog_text as [|b bt];
    [exact (H6 (c :: t) eq_refl eq_refl Hne Hg)|].
  assert (Hbt : b :: bt <> []) by discriminate.
  unfold try_except_Exception.
  destruct (save_blog_to_s3_calls (s3_key_of w (c :: t)) (b :: bt)
              (tr ++ [InvokeModel (bedrock_request w (c :: t))]))
    as [[Hsnd [e He]] | [encoded [Henc Hsave]]].
  - destruct (save_blog_to_s3 w (s3_key_of w (c :: t)) (b :: bt)
                (tr ++ [InvokeModel (bedrock_request w (c :: t))]))
      as [r tr2] eqn:Hsv.
    cbn [fst snd] in Hsnd, He. subst r tr2.
    destruct (is_Exception e) eqn:Hexc.
    + exact (H8 (c :: t) (b :: bt) e eq_refl eq_refl Hne Hg Hbt Hsv Hexc).
    + exact (H7 (c :: t) (b :: bt) e eq_refl eq_refl Hne Hg Hbt Hsv Hexc).
  - rewrite Hsave.
    destruct (put_object w (s3_request w (s3_key_of w (c :: t)) encoded))
      as [[]|e] eqn:Hput.
    + exact (H11 (c :: t) (b :: bt) encoded eq_refl eq_refl Hne Hg Hbt
               Henc Hput).
    + destruct (is_Exception e) eqn:Hexc.
      * exact (H10 (c :: t) (b :: bt) encoded e eq_refl eq_refl Hne Hg Hbt
                 Henc Hput Hexc).
      * exact (H9 (c :: t) (b :: bt) encoded e eq_refl eq_refl Hne Hg Hbt
                 Henc Hput Hexc).
Qed.

End Runs.

(** ** Trimmed text *)

Section Trimmed.

Lemma lstrip_suffix (s : str) :
  exists p, s = p ++ lstrip s /\ forallb isspace p = true.
Proof.
  induction s as [|c s [p [Hs Hp]]]; [now exists []|].
  simpl. destruct (isspace c) eqn:E.
  - exists (c :: p). simpl. rewrite E, Hp. split; [now f_equal|reflexivity].
  - now exists [].
Qed.

Lemma lstrip_head (s : str) (c : Z) (r : str) :
  lstrip s = c :: r -> isspace c = false.
Proof.
  induction s as [|a s IH]; simpl; [discriminate|].
  destruct (isspace a) eqn:E; [exact IH|].
  now intros [= <- _].
Qed.

Lemma lstrip_fixed (s : str) :
  (forall c r, s = c :: r -> isspace c = false) -> lstrip s = s.
Proof.
  destruct s as [|c r]; [reflexivity|].
  intros H. simpl. now rewrite (H c r eq_refl).
Qed.

Lemma lstrip_idempotent (s : str) : lstrip (lstrip s) = lstrip s.
Proof.
  apply lstrip_fixed. intros c r H. now apply (lstrip_head s c r).
Qed.

Lemma rstrip_prefix (s : str) :
  exists q, s = rstrip s ++ q /\ forallb isspace q = true.
Proof.
  unfold rstrip. destruct (lstrip_suffix (rev s)) as [p [Hs Hp]].
  exists (rev p). split.
  - rewrite <- rev_app_distr, <- Hs. now rewrite rev_involutive.
  - rewrite forallb_forall in *. intros c Hc. apply Hp. now apply in_rev.
Qed.

Lemma rstrip_idempotent (s : str) : rstrip (rstrip s) = rstrip s.
Proof.
  unfold rstrip. now rewrite rev_involutive, lstrip_idempotent.
Qed.

(** [strip] leaves a text that no whitespace starts or ends. *)
Lemma strip_trimmed (s : str) :
  lstrip (strip s) = strip s /\ rstrip (strip s) = strip s.
Proof.
  unfold strip. split; [|apply rstrip_idempotent].
  apply lstrip_fixed. intros c r Hc.
  destruct (rstrip_prefix (lstrip s)) as [q [Hq _]].
  rewrite Hc in Hq. simpl in Hq.
  now apply (lstrip_head s c (r ++ q)).
Qed.

Lemma strip_idempotent (s : str) : strip (strip s) = strip s.
Proof.
  destruct (strip_trimmed s) as [Hl Hr].
  unfold strip at 1. now rewrite Hl, Hr.
Qed.

Lemma method_strip_trimmed (v : pyval) (t : str) :
  method_strip v = Return t -> lstrip t = t /\ rstrip t = t.
Proof.
  destruct v; try discriminate. intros [= <-]. apply strip_trimmed.
Qed.

End Trimmed.

(** ** The shape of the storage key *)

Section KeyShape.

Lemma lstrip_incl (s : str) (c : Z) : In c (lstrip s) -> In c s.
Proof.
  induction s as [|a s IH]; simpl; [tauto|].
  destruct (isspace a); [auto | simpl; tauto].
Qed.

Lemma strip_incl (s : str) (c : Z) : In c (strip s) -> In c s.
Proof.
  unfold strip, rstrip. intros H.
  apply in_rev, lstrip_incl in H. apply in_rev in H.
  now apply lstrip_incl.
Qed.

Lemma digits_fuel_no_slash (fuel : nat) :
  forall n acc, Forall no_slash acc -> Forall no_slash (digits_fuel fuel n acc).
Proof.
  induction fuel as [|f IH]; intros n acc Hacc; simpl; [exact Hacc|].
  assert (Hd : no_slash (ch "0" + n mod 10)).
  { unfold no_slash. change (ch "0") with 48. change (ch "/") with 47.
    pose proof (Z.mod_pos_bound n 10). lia. }
  destruct (n <? 10); [now constructor|].
  apply IH. now constructor.
Qed.

Lemma str_of_int_no_slash (n : Z) : Forall no_slash (str_of_int n).
Proof.
  unfold str_of_int. destruct (n <? 0).
  - constructor; [discriminate|]. apply digits_fuel_no_slash. constructor.
  - apply digits_fuel_no_slash. constructor.
Qed.

Lemma zero_pad_no_slash (width : nat) (n : Z) :
  Forall no_slash (zero_pad width n).
Proof.
  unfold zero_pad. apply Forall_app. split; [|apply str_of_int_no_slash].
  apply Forall_forall. intros c Hc. apply repeat_spec in Hc. subst c.
  discriminate.
Qed.

Lemma timestamp_no_slash (w : World) : Forall no_slash (timestamp w).
Proof.
  unfold timestamp.
  cbv -[str_of_int zero_pad year month day hour minute second app utcnow
        no_slash].
  repeat first
    [ apply Forall_nil
    | apply Forall_cons; [discriminate|]
    | apply Forall_app; split;
      [first [apply str_of_int_no_slash | apply zero_pad_no_slash]|] ].
Qed.

Lemma keep_in_key_no_slash (w : World) (c : Z) :
  keep_in_key w c = true -> no_slash c.
Proof.
  intros H E. rewrite E in H. vm_compute in H. discriminate.
Qed.

Lemma safe_topic_kept (w : World) (topic : str) :
  Forall (fun c => keep_in_key w c = true) (safe_topic_of w topic).
Proof.
  unfold safe_topic_of.
  destruct (strip (filter (keep_in_key w) topic)) as [|c r] eqn:E.
  - repeat constructor.
  - rewrite <- E. apply Forall_forall. intros x Hx.
    apply strip_incl, filter_In in Hx. tauto.
Qed.

End KeyShape.

(** ** Sizes *)

Lemma utf8_encode_length (s : str) :
  forall pos encoded,
    Codecs.utf8_encode pos s = Return encoded ->
    (List.length s <= List.length encoded <= 4 * List.length s)%nat.
Proof.
  induction s as [|c s IH]; intros pos encoded; cbn [Codecs.utf8_encode].
  - intros [= <-]. simpl. lia.
  - destruct (Codecs.utf8_encode (pos + 1) s) as [t|e] eqn:E.
    + specialize (IH (pos + 1) t E).
      repeat match goal with
             | |- context [if ?b then _ else _] => destruct b
             end; cbn [bind]; try discriminate;
        intros [= <-]; simpl; lia.
    + repeat match goal with
             | |- context [if ?b then _ else _] => destruct b
             end; cbn [bind]; discriminate.
Qed.

(** ** The exceptions of [json.loads] *)

Section JsonAborts.
Import Json.

Lemma scanstring_never_aborts (n : nat) :
  forall s begin idx acc e, (List.length s <= n)%nat ->
  scanstring begin s idx acc <> Abort e.
Proof.
  induction n as [|n IH]; intros s begin idx acc e Hlen.
  - destruct s; [discriminate | simpl in Hlen; lia].
  - destruct s as [|c r]; [discriminate|].
    cbn [scanstring].
    repeat match goal with
           | |- context [if ?b then _ else _] => destruct b
           | |- context [match ?l with [] => _ | _ :: _ => _ end] =>
               destruct l
           | |- context [match ?o with Some _ => _ | None => _ end] =>
               destruct o
           end;
      try discriminate; apply IH; simpl in *; lia.
Qed.

Lemma scanstring_aborts_on_limits (begin : Z) (s : str) (idx : Z)
    (acc : str) :
  aborts_on_limits (scanstring begin s idx acc).
Proof.
  destruct (scanstring begin s idx acc) as [| |e|] eqn:E; try exact I.
  now apply (scanstring_never_aborts (List.length s)) in E.
Qed.

Lemma match_number_aborts_on_limits (lim : limits) (s : str) (idx : Z) :
  aborts_on_limits (match_number lim s idx).
Proof.
  unfold match_number.
  destruct (match_sign s) as [neg s1].
  destruct (match_int s1) as [ds s2].
  destruct ds as [|d0 ds]; [exact I|].
  destruct (match match_frac s2 with
            | Some (d, r) => (Some d, r)
            | None => (None, s2)
            end) as [frac s3].
  destruct (match match_exp s3 with
            | Some (eneg, d, r) => (Some (eneg, d), r)
            | None => (None, s3)
            end) as [exp s4].
  destruct frac, exp; try exact I.
  unfold int_of_literal.
  destruct ((640 <? len (d0 :: ds)) && (0 <? int_max_str_digits lim)
            && (int_max_str_digits lim <? len (d0 :: ds)));
    [right; reflexivity | exact I].
Qed.

Lemma match_constant_aborts_on_limits (cs : list (string * pyval))
    (s : str) (i : Z) (found : scan pyval) :
  match_constant cs s i = Some found -> aborts_on_limits found.
Proof.
  induction cs as [|[word v] cs IH]; simpl; [discriminate|].
  destruct (strip_prefix (u word) s); [|exact IH].
  now intros [= <-].
Qed.

Lemma sbind_aborts_on_limits (A B : Type) (m : scan A)
    (k : A -> str -> Z -> scan B) :
  aborts_on_limits m ->
  (forall a r i, aborts_on_limits (k a r i)) ->
  aborts_on_limits (sbind m k).
Proof.
  intros Hm Hk. destruct m; cbn [sbind]; auto; exact I.
Qed.

Lemma array_loop_aborts_on_limits (value : str -> Z -> scan pyval) :
  (forall s i, aborts_on_limits (value s i)) ->
  forall n s i acc, aborts_on_limits (array_loop value n s i acc).
Proof.
  intros Hv. induction n as [|n IH]; intros s i acc; [exact I|].
  cbn [array_loop]. apply sbind_aborts_on_limits; [apply Hv|].
  intros v r i0. destruct (skip_ws r i0) as [r1 i1].
  destruct r1 as [|c r2]; [exact I|].
  destruct (c =? ch "]"); [exact I|].
  destruct (c =? ch ","); [|exact I].
  destruct (skip_ws r2 (i1 + 1)) as [r3 i3]. apply IH.
Qed.

Lemma object_loop_aborts_on_limits (value : str -> Z -> scan pyval) :
  (forall s i, aborts_on_limits (value s i)) ->
  forall n s i acc, aborts_on_limits (object_loop value n s i acc).
Proof.
  intros Hv. induction n as [|n IH]; intros s i acc; [exact I|].
  cbn [object_loop]. destruct s as [|q s1]; [exact I|].
  destruct (q =? dquote); [|exact I].
  apply sbind_aborts_on_limits; [apply scanstring_aborts_on_limits|].
  intros key r i0. destruct (skip_ws r i0) as [r1 i1].
  destruct r1 as [|c r2]; [exact I|].
  destruct (c =? ch ":"); [|exact I].
  destruct (skip_ws r2 (i1 + 1)) as [r3 i3].
  apply sbind_aborts_on_limits; [apply Hv|].
  intros v r4 i4. destruct (skip_ws r4 i4) as [r5 i5].
  destruct r5 as [|c' r6]; [exact I|].
  destruct (c' =? ch "}"); [exact I|].
  destruct (c' =? ch ","); [|exact I].
  destruct (skip_ws r6 (i5 + 1)) as [r7 i7]. apply IH.
Qed.

Lemma scan_once_aborts_on_limits (lim : limits) (depth : nat) :
  forall s i, aborts_on_limits (scan_once lim depth s i).
Proof.
  assert (Hscalar : forall s i,
            aborts_on_limits
              (match match_constant constants s i with
               | Some found => found
               | None => match_number lim s i
               end)).
  { intros s i. destruct (match_constant constants s i) eqn:E.
    - now apply (match_constant_aborts_on_limits constants s i).
    - apply match_number_aborts_on_limits. }
  assert (Hstring : forall i r,
            aborts_on_limits
              (sbind (scanstring i r (i + 1) [])
                 (fun t r' i' => Ok (PStr t) r' i'))).
  { intros i r. apply sbind_aborts_on_limits;
      [apply scanstring_aborts_on_limits | intros; exact I]. }
  induction depth as [|d IH]; intros s i;
    (destruct s as [|c r]; cbn [scan_once]; [exact I|]);
    (destruct (c =? dquote); [apply Hstring|]).
  - destruct (c =? ch "{"); [left; reflexivity|].
    destruct (c =? ch "["); [left; reflexivity|]. apply Hscalar.
  - destruct (c =? ch "{").
    { destruct (skip_ws r (i + 1)) as [r1 i1].
      destruct r1 as [|c' r2]; [apply object_loop_aborts_on_limits, IH|].
      destruct (c' =? ch "}"); [exact I|].
      apply object_loop_aborts_on_limits, IH. }
    destruct (c =? ch "[").
    { destruct (skip_ws r (i + 1)) as [r1 i1].
      destruct r1 as [|c' r2]; [apply array_loop_aborts_on_limits, IH|].
      destruct (c' =? ch "]"); [exact I|].
      apply array_loop_aborts_on_limits, IH. }
    apply Hscalar.
Qed.

(** [JSONDecoder.decode] raises [JSONDecodeError], or [RecursionError] or
    [ValueError] when it meets a limit of the interpreter; nothing else. *)
Lemma decode_raises (lim : limits) (doc : str) (e : exc) :
  decode lim doc = Raise e ->
  exc_cls e = JSONDecodeError \/ limit_error e.
Proof.
  unfold decode, raw_decode. destruct (skip_ws doc 0) as [s i].
  pose proof (scan_once_aborts_on_limits lim (recursion_limit lim) s i)
    as Hab.
  destruct (scan_once lim (recursion_limit lim) s i) as [v r i'| |e'|];
    cbn [sbind].
  - destruct (skip_ws r i') as [r' p]. destruct r'; [discriminate|].
    intros [= <-]. left. unfold json_decode_error.
    destruct (line_info doc 0 p 0 (-1)). reflexivity.
  - intros [= <-]. left. unfold json_decode_error.
    destruct (line_info doc 0 pos 0 (-1)). reflexivity.
  - intros [= <-]. right. exact Hab.
  - intros [= <-]. right. left. reflexivity.
Qed.

(** So does [json.loads] on a str. *)
Lemma loads_str_raises (lim : limits) (doc : str) (e : exc) :
  loads_str lim doc = Raise e ->
  exc_cls e = JSONDecodeError \/ limit_error e.
Proof.
  unfold loads_str. destruct doc as [|c doc']; [apply decode_raises|].
  destruct (c =? 0xFEFF) eqn:E.
  - apply Z.eqb_eq in E. subst c. intros [= <-]. left.
    unfold json_decode_error.
    destruct (line_info (65279 :: doc') 0 0 0 (-1)). reflexivity.
  - assert (Hc : c <> 0xFEFF) by now apply Z.eqb_neq.
    destruct c as [|p|p]; try apply decode_raises.
    repeat (destruct p as [p|p|]; try apply decode_raises).
    now elim Hc.
Qed.

End JsonAborts.

(** ** The exceptions of the request decoder *)

Section DecoderErrors.

Lemma a2b_base64_loop_raises (data : bytes) :
  forall quad_pos leftchar pads out e,
    Base64.a2b_base64_loop data quad_pos leftchar pads out = Raise e ->
    exc_cls e = BinasciiError.
Proof.
  induction data as [|c data IH]; intros quad_pos leftchar pads out e;
    cbn [Base64.a2b_base64_loop].
  - destruct (quad_pos =? 0); [discriminate|].
    destruct (quad_pos =? 1); intros [= <-]; reflexivity.
  - repeat match goal with
           | |- context [if ?b then _ else _] => destruct b
           | |- context [match ?o with Some _ => _ | None => _ end] =>
               destruct o
           end; try discriminate; apply IH.
Qed.

Lemma b64decode_raises (v : pyval) (e : exc) :
  Base64.b64decode v = Raise e ->
  (exc_cls e = TypeError /\ forall s, v <> PStr s)
  \/ (exists s, v = PStr s
                /\ (exc_cls e = ValueError \/ exc_cls e = BinasciiError)).
Proof.
  destruct v; cbn [Base64.b64decode];
    try (intros [= <-]; left; split; [reflexivity | discriminate]).
  unfold Base64.b64decode_str, Base64.bytes_from_decode_data.
  intros H. right. exists s. split; [reflexivity|].
  destruct (forallb (fun c => c <? 128) s); cbn [bind] in H.
  - right. now apply a2b_base64_loop_raises in H.
  - left. now injection H as <-.
Qed.

Lemma loads_raises (lim : Json.limits) (v : pyval) (e : exc) :
  Json.loads lim v = Raise e ->
  (exc_cls e = TypeError /\ forall s, v <> PStr s)
  \/ (exists s, v = PStr s
                /\ (exc_cls e = JSONDecodeError \/ limit_error e)).
Proof.
  destruct v; cbn [Json.loads];
    try (intros [= <-]; left; split; [reflexivity | discriminate]).
  intros H. right. exists s. split; [reflexivity|].
  now apply loads_str_raises in H.
Qed.

Lemma loads_or_empty_raises (w : World) (v : pyval) (e : exc) :
  loads_or_empty w v = Raise e ->
  (exc_cls e = TypeError /\ forall s, v <> PStr s)
  \/ (exists s, v = PStr s /\ limit_error e).
Proof.
  unfold loads_or_empty.
  destruct (Json.loads (limits w) v) as [x|e'] eqn:E; [discriminate|].
  destruct (exc_class_eqb (exc_cls e') JSONDecodeError) eqn:Hc;
    [discriminate|].
  intros [= <-]. apply loads_raises in E.
  destruct E as [E | [s [Hs [E|E]]]].
  - now left.
  - rewrite E in Hc. discriminate.
  - right. now exists s.
Qed.

(** What [_parse_event_body] can raise, and when. *)
Lemma parse_event_body_raises (w : World) (event : dict) (e : exc) :
  _parse_event_body w event = Raise e ->
  exists body_str,
    dict_lookup event (u "body") = Some body_str
    /\ body_str <> PNone
    /\ ((exc_cls e = TypeError /\ forall s, body_str <> PStr s)
        \/ (exists s, body_str = PStr s
                      /\ truthy (dict_get event (u "isBase64Encoded")) = true
                      /\ Base64.b64decode_str s = Raise e
                      /\ (exc_cls e = ValueError \/ exc_cls e = BinasciiError))
        \/ (exists s, body_str = PStr s /\ limit_error e)).
Proof.
  unfold _parse_event_body.
  destruct (dict_lookup event (u "body")) as [body_str|]; [|discriminate].
  intros H. exists body_str. split; [reflexivity|].
  assert (Hnn : body_str <> PNone) by (intros ->; discriminate).
  split; [exact Hnn|].
  assert (H' : bind (if truthy (dict_get event (u "isBase64Encoded"))
                     then decode_base64_body body_str
                     else Return body_str) (loads_or_empty w) = Raise e).
  { destruct body_str; try exact H. now elim Hnn. }
  clear H. destruct (truthy (dict_get event (u "isBase64Encoded"))).
  - unfold decode_base64_body in H'.
    destruct (Base64.b64decode body_str) as [decoded|e'] eqn:Hd.
    + cbn [bind] in H'.
      destruct (utf8_decode_replace_total decoded) as [text Ht].
      rewrite Ht in H'. cbn [bind] in H'.
      apply loads_or_empty_raises in H'.
      destruct H' as [[_ Hns] | [s [_ Hlim]]]; [now elim (Hns text)|].
      destruct body_str; try discriminate. right. right. now exists s0.
    + cbn [bind] in H'. injection H' as <-.
      pose proof Hd as Hd'. apply b64decode_raises in Hd'.
      destruct Hd' as [Hty | [s [-> Hcls]]]; [now left|].
      right. left. exists s. repeat split; try assumption.
  - cbn [bind] in H'. apply loads_or_empty_raises in H'.
    destruct H' as [Hty | Hlim]; [now left | now right; right].
Qed.

Lemma topic_of_raises (body : pyval) (e : exc) :
  topic_of body = Raise e -> exc_cls e = AttributeError.
Proof.
  assert (Hget : forall v k, method_get v k = Raise e ->
                             exc_cls e = AttributeError).
  { intros v k. destruct v; cbn; try discriminate; now intros [= <-]. }
  assert (Hstrip : forall v, method_strip v = Raise e ->
                             exc_cls e = AttributeError).
  { intros v. destruct v; cbn; try discriminate; now intros [= <-]. }
  unfold topic_of.
  destruct (method_get body (u "blogstopic")) as [first|e1] eqn:E1.
  - cbn [bind]. destruct (truthy first); [apply Hstrip|].
    destruct (method_get body (u "topic")) as [second|e2] eqn:E2.
    + apply Hstrip.
    + cbn [bind]. intros [= <-]. now apply (Hget body (u "topic")).
  - cbn [bind]. intros [= <-]. now apply (Hget body (u "blogstopic")).
Qed.

End DecoderErrors.

(** ** UTF-8: encoding then decoding *)

Section Utf8RoundTrip.
Import Codecs.

Lemma two_bytes_all (c : Z) : 0x80 <= c < 0x800 -> two_bytes_ok c = true.
Proof.
  intros H.
  apply (forall_range two_bytes_ok 0x80 0x7FF);
    [vm_compute; reflexivity | lia].
Qed.

Lemma low_all (x : Z) : 0 <= x < 64 -> low_ok x = true.
Proof.
  intros H.
  apply (forall_range low_ok 0 0x3F); [vm_compute; reflexivity | lia].
Qed.

Lemma head3_all (q : Z) : 0x20 <= q < 0x400 -> head3_ok q = true.
Proof.
  intros H.
  apply (forall_range head3_ok 0x20 0x3FF);
    [vm_compute; reflexivity | lia].
Qed.

Lemma head4_all (q : Z) : 0x10 <= q < 0x110 -> head4_ok q = true.
Proof.
  intros H.
  apply (forall_range head4_ok 0x10 0x10F);
    [vm_compute; reflexivity | lia].
Qed.

Lemma shiftr_6 (c : Z) : Z.shiftr c 6 = c / 64.
Proof. now rewrite Z.shiftr_div_pow2 by lia. Qed.

Lemma shiftr_12 (c : Z) : Z.shiftr c 12 = c / 64 / 64.
Proof.
  rewrite Z.shiftr_div_pow2 by lia. rewrite Z.div_div by lia. reflexivity.
Qed.

Lemma shiftr_18 (c : Z) : Z.shiftr c 18 = Z.shiftr (Z.shiftr c 12) 6.
Proof. rewrite Z.shiftr_shiftr by lia. reflexivity. Qed.

Lemma shiftr_12_6 (c : Z) : Z.shiftr c 12 = Z.shiftr (Z.shiftr c 6) 6.
Proof. rewrite Z.shiftr_shiftr by lia. reflexivity. Qed.

Lemma land_63 (c : Z) : Z.land c 0x3F = c mod 64.
Proof. change 0x3F with (Z.ones 6). now rewrite Z.land_ones by lia. Qed.

(** The last byte of a sequence is a continuation byte with the low six
    bits of what it encodes. *)
Lemma low_byte (c : Z) :
  is_continuation (Z.lor 0x80 (Z.land c 0x3F)) = true
  /\ Z.lor 0x80 (Z.land c 0x3F) = 0x80 + c mod 64.
Proof.
  rewrite land_63.
  pose proof (low_all (c mod 64) (Z.mod_pos_bound c 64 eq_refl)) as F.
  unfold low_ok in F. apply andb_prop in F as [F1 F2].
  apply Z.eqb_eq in F2. now split.
Qed.

Ltac split_checks H :=
  repeat (apply andb_prop in H; let H' := fresh "F" in destruct H as [H H']);
  repeat match goal with
         | F : negb _ = true |- _ => apply negb_true_iff in F
         | F : (_ =? _) = true |- _ => apply Z.eqb_eq in F
         end.

Lemma decode_one_byte (h : error_handler) (pos c : Z) (t : bytes) :
  c < 0x80 ->
  utf8_decode h pos (c :: t) = emit c (utf8_decode h (pos + 1) t).
Proof.
  intros H. cbn [utf8_decode].
  destruct (Z.ltb_spec c 0x80); [reflexivity | lia].
Qed.

Lemma decode_two_bytes (h : error_handler) (pos c : Z) (t : bytes) :
  0x80 <= c < 0x800 ->
  utf8_decode h pos
    (Z.lor 0xC0 (Z.shiftr c 6) :: Z.lor 0x80 (Z.land c 0x3F) :: t)
  = emit c (utf8_decode h (pos + 2) t).
Proof.
  intros H. pose proof (two_bytes_all c H) as F.
  unfold two_bytes_ok in F. cbv zeta in F. split_checks F.
  generalize dependent (Z.lor 0x80 (Z.land c 0x3F)).
  generalize dependent (Z.lor 0xC0 (Z.shiftr c 6)).
  intros b1 F F2 F1 b2 F0 F3.
  remember (b2 :: t) as r1 eqn:Er.
  cbn [utf8_decode]. rewrite F, F2, F1. subst r1. cbv beta iota.
  rewrite F0. now rewrite F3.
Qed.

Lemma decode_three_bytes (h : error_handler) (pos c : Z) (t : bytes) :
  0x800 <= c < 0x10000 -> is_surrogate c = false ->
  utf8_decode h pos
    (Z.lor 0xE0 (Z.shiftr c 12)
       :: Z.lor 0x80 (Z.land (Z.shiftr c 6) 0x3F)
       :: Z.lor 0x80 (Z.land c 0x3F) :: t)
  = emit c (utf8_decode h (pos + 3) t).
Proof.
  intros H Hs.
  assert (Hq : 0x20 <= c / 64 < 0x400)
    by (Z.to_euclidean_division_equations; lia).
  pose proof (head3_all (c / 64) Hq) as F. unfold head3_ok in F.
  assert (Hn : (0x360 <=? c / 64) && (c / 64 <? 0x380) = false).
  { unfold is_surrogate in Hs. apply andb_false_iff in Hs.
    apply andb_false_iff. rewrite Z.leb_gt, Z.ltb_ge.
    rewrite !Z.leb_gt in Hs. Z.to_euclidean_division_equations; lia. }
  rewrite Hn in F. cbn [orb] in F. cbv zeta in F. split_checks F.
  destruct (low_byte c) as [L1 L2].
  rewrite shiftr_12_6. rewrite !shiftr_6 in *.
  generalize dependent (Z.lor 0x80 (Z.land c 0x3F)).
  generalize dependent (Z.lor 0x80 (Z.land (c / 64) 0x3F)).
  generalize dependent (Z.lor 0xE0 (c / 64 / 64)).
  intros b1 F F4 F3 F2 b2 F1 F0 b3 L1 L2.
  remember (b2 :: b3 :: t) as r1 eqn:Er.
  cbn [utf8_decode]. rewrite F, F4, F3, F2. subst r1. cbv beta iota.
  rewrite F1, L1. f_equal.
  Z.to_euclidean_division_equations; lia.
Qed.

Lemma decode_four_bytes (h : error_handler) (pos c : Z) (t : bytes) :
  0x10000 <= c <= 0x10FFFF ->
  utf8_decode h pos
    (Z.lor 0xF0 (Z.shiftr c 18)
       :: Z.lor 0x80 (Z.land (Z.shiftr c 12) 0x3F)
       :: Z.lor 0x80 (Z.land (Z.shiftr c 6) 0x3F)
       :: Z.lor 0x80 (Z.land c 0x3F) :: t)
  = emit c (utf8_decode h (pos + 4) t).
Proof.
  intros H.
  assert (Hq : 0x10 <= c / 64 / 64 < 0x110)
    by (Z.to_euclidean_division_equations; lia).
  pose proof (head4_all (c / 64 / 64) Hq) as F. unfold head4_ok in F.
  cbv zeta in F. split_checks F.
  destruct (low_byte c) as [L1 L2].
  destruct (low_byte (c / 64)) as [M1 M2].
  rewrite shiftr_18, !shiftr_12. rewrite !shiftr_6 in *.
  generalize dependent (Z.lor 0x80 (Z.land c 0x3F)).
  generalize dependent (Z.lor 0x80 (Z.land (c / 64) 0x3F)).
  generalize dependent (Z.lor 0x80 (Z.land (c / 64 / 64) 0x3F)).
  generalize dependent (Z.lor 0xF0 (c / 64 / 64 / 64)).
  intros b1 F F5 F4 F3 F2 b2 F1 F0 b3 M1 M2 b4 L1 L2.
  remember (b2 :: b3 :: b4 :: t) as r1 eqn:Er.
  cbn [utf8_decode]. rewrite F, F5, F4, F3, F2. subst r1. cbv beta iota.
  rewrite F1, M1, L1. cbn [negb]. f_equal.
  rewrite !Z.shiftl_mul_pow2 in * by lia.
  Z.to_euclidean_division_equations; lia.
Qed.

Lemma Return_inj (A : Type) (a b : A) : Return a = Return b -> a = b.
Proof. now intros [= ->]. Qed.

Lemma utf8_encode_cons (pos c : Z) (s : str) :
  utf8_encode pos (c :: s)
  = let rest := utf8_encode (pos + 1) s in
    if c <? 0x80 then bind rest (fun t => Return (c :: t))
    else if c <? 0x800 then
      bind rest (fun t =>
        Return (Z.lor 0xC0 (Z.shiftr c 6) :: Z.lor 0x80 (Z.land c 0x3F) :: t))
    else if is_surrogate c then
      let n := surrogate_run (c :: s) in
      Raise (mkExc UnicodeEncodeError
        (if n =? 1 then
           u "'utf-8' codec can't encode character '\u" ++ hex4 c
             ++ u "' in position " ++ str_of_int pos
             ++ u ": surrogates not allowed"
         else
           u "'utf-8' codec can't encode characters in position "
             ++ str_of_int pos ++ u "-" ++ str_of_int (pos + n - 1)
             ++ u ": surrogates not allowed"))
    else if c <? 0x10000 then
      bind rest (fun t =>
        Return (Z.lor 0xE0 (Z.shiftr c 12)
                :: Z.lor 0x80 (Z.land (Z.shiftr c 6) 0x3F)
                :: Z.lor 0x80 (Z.land c 0x3F) :: t))
    else
      bind rest (fun t =>
        Return (Z.lor 0xF0 (Z.shiftr c 18)
                :: Z.lor 0x80 (Z.land (Z.shiftr c 12) 0x3F)
                :: Z.lor 0x80 (Z.land (Z.shiftr c 6) 0x3F)
                :: Z.lor 0x80 (Z.land c 0x3F) :: t)).
Proof. reflexivity. Qed.

(** Decoding what [encode] wrote gives the text back, with any error
    handler: the handler is never called. *)
Lemma utf8_decode_encode (h : error_handler) (s : str) :
  is_text s = true ->
  forall pos pos' encoded,
    utf8_encode pos s = Return encoded ->
    utf8_decode h pos' encoded = Return s.
Proof.
  induction s as [|c s IH]; intros Htext pos pos' encoded.
  - now intros [= <-].
  - rewrite utf8_encode_cons. cbv zeta.
    cbn [is_text forallb] in Htext. apply andb_prop in Htext as [Hc Hs].
    unfold code_point in Hc. apply andb_prop in Hc as [Hc0 Hc1].
    apply Z.leb_le in Hc0, Hc1.
    destruct (utf8_encode (pos + 1) s) as [t|e] eqn:E.
    2:{ repeat match goal with
               | |- context [if ?b then _ else _] => destruct b
               end; unfold bind; discriminate. }
    assert (Hrest : forall p, utf8_decode h p t = Return s)
      by (intros p; now apply (IH Hs (pos + 1))).
    unfold bind.
    destruct (Z.ltb_spec c 0x80) as [H1|H1].
    { intros Heq. apply Return_inj in Heq. subst encoded.
      rewrite decode_one_byte by exact H1. now rewrite Hrest. }
    destruct (Z.ltb_spec c 0x800) as [H2|H2].
    { intros Heq. apply Return_inj in Heq. subst encoded.
      rewrite decode_two_bytes by lia. now rewrite Hrest. }
    destruct (is_surrogate c) eqn:Hsur; [discriminate|].
    destruct (Z.ltb_spec c 0x10000) as [H3|H3].
    { intros Heq. apply Return_inj in Heq. subst encoded.
      rewrite decode_three_bytes by (assumption || lia). now rewrite Hrest. }
    intros Heq. apply Return_inj in Heq. subst encoded.
    rewrite decode_four_bytes by lia. now rewrite Hrest.
Qed.

End Utf8RoundTrip.

(** ** JSON: writing then reading *)

Section JsonStrings.
Import Json.

Lemma hex_digit_all (d : Z) : 0 <= d < 16 -> hex_digit_ok d = true.
Proof.
  intros H.
  apply (forall_range hex_digit_ok 0 0xF);
    [vm_compute; reflexivity | lia].
Qed.

Lemma hex_value_digit (d : Z) :
  0 <= d < 16 -> hex_value (Codecs.hex_digit d) = Some d.
Proof.
  intros H. pose proof (hex_digit_all d H) as F. unfold hex_digit_ok in F.
  destruct (hex_value (Codecs.hex_digit d)) as [d'|]; [|discriminate].
  apply Z.eqb_eq in F. now subst d'.
Qed.

Lemma hex4_value_hex4 (c : Z) :
  0 <= c < 0x10000 ->
  hex4_value (Codecs.hex_digit (c / 4096 mod 16))
             (Codecs.hex_digit (c / 256 mod 16))
             (Codecs.hex_digit (c / 16 mod 16))
             (Codecs.hex_digit (c mod 16)) = Some c.
Proof.
  intros H. unfold hex4_value.
  rewrite !hex_value_digit by (apply Z.mod_pos_bound; lia).
  f_equal. Z.to_euclidean_division_equations; lia.
Qed.

(** Reading a [\uXXXX] escape of a character that is no high surrogate. *)
Lemma scanstring_u (begin h1 h2 h3 h4 c t0 idx : Z) (tl acc : str) :
  hex4_value h1 h2 h3 h4 = Some c ->
  is_high_surrogate c = false ->
  scanstring begin (ch "\" :: ch "u" :: h1 :: h2 :: h3 :: h4 :: t0 :: tl)
    idx acc
  = scanstring begin (t0 :: tl) (idx + 6) (c :: acc).
Proof.
  intros H1 H2.
  remember (scanstring begin (t0 :: tl) (idx + 6) (c :: acc)) as goal
    eqn:Eg.
  cbn -[hex4_value is_high_surrogate is_low_surrogate Z.add].
  rewrite H1, H2. cbn [andb].
  rewrite Eg.
  destruct tl as [|v [|g1 [|g2 [|g3 [|g4 [|x r]]]]]]; reflexivity.
Qed.

(** Reading the two escapes of a character beyond U+FFFF. *)
Lemma scanstring_pair (begin h1 h2 h3 h4 g1 g2 g3 g4 hi lo t0 idx : Z)
    (tl acc : str) :
  hex4_value h1 h2 h3 h4 = Some hi ->
  hex4_value g1 g2 g3 g4 = Some lo ->
  is_high_surrogate hi = true ->
  is_low_surrogate lo = true ->
  scanstring begin
    (ch "\" :: ch "u" :: h1 :: h2 :: h3 :: h4
       :: ch "\" :: ch "u" :: g1 :: g2 :: g3 :: g4 :: t0 :: tl)
    idx acc
  = scanstring begin (t0 :: tl) (idx + 12) (join_surrogates hi lo :: acc).
Proof.
  intros H1 H2 H3 H4.
  remember (scanstring begin (t0 :: tl) (idx + 12)
              (join_surrogates hi lo :: acc)) as goal eqn:Eg.
  cbn -[hex4_value is_high_surrogate is_low_surrogate Z.add
        join_surrogates].
  rewrite H1, H3. cbn [andb]. rewrite H2, H4. now rewrite Eg.
Qed.

Lemma high_half_all (a : Z) : 0 <= a < 0x400 -> high_half_ok a = true.
Proof.
  intros H.
  apply (forall_range high_half_ok 0 0x3FF);
    [vm_compute; reflexivity | lia].
Qed.

Lemma low_half_all (b : Z) : 0 <= b < 0x400 -> low_half_ok b = true.
Proof.
  intros H.
  apply (forall_range low_half_ok 0 0x3FF);
    [vm_compute; reflexivity | lia].
Qed.

Lemma lor_shiftl_10 (a b : Z) :
  0 <= b < 1024 -> Z.lor (Z.shiftl a 10) b = 1024 * a + b.
Proof.
  intros H.
  assert (Hland : Z.land (Z.shiftl a 10) b = 0).
  { apply Z.bits_inj'. intros k Hk. rewrite Z.land_spec, Z.bits_0.
    destruct (Z.lt_ge_cases k 10) as [Hlt|Hge].
    - now rewrite Z.shiftl_spec_low.
    - replace b with (b mod 2 ^ 10) by (apply Z.mod_small; lia).
      rewrite Z.mod_pow2_bits_high by lia. apply andb_false_r. }
  rewrite <- Z.lxor_lor, <- Z.add_nocarry_lxor by exact Hland.
  rewrite Z.shiftl_mul_pow2 by lia. lia.
Qed.

Lemma land_1023 (c : Z) : Z.land c 0x3FF = c mod 1024.
Proof. change 0x3FF with (Z.ones 10). now rewrite Z.land_ones by lia. Qed.

Lemma shiftr_10 (c : Z) : Z.shiftr c 10 = c / 1024.
Proof. now rewrite Z.shiftr_div_pow2 by lia. Qed.

(** The reader takes the escape of one character for that character. *)
Lemma scanstring_escape_char (c : Z) :
  plain_char c = true ->
  forall begin t0 tl idx acc,
  exists i',
    scanstring begin (escape_char c ++ t0 :: tl) idx acc
    = scanstring begin (t0 :: tl) i' (c :: acc).
Proof.
  intros Hc begin t0 tl idx acc. unfold plain_char in Hc.
  apply andb_prop in Hc as [Hc Hns]. apply andb_prop in Hc as [Hc0 Hc1].
  apply Z.leb_le in Hc0, Hc1. apply negb_true_iff in Hns.
  unfold escape_char.
  destruct (c =? dquote) eqn:E1;
    [apply Z.eqb_eq in E1; subst c; exists (idx + 2); reflexivity|].
  destruct (c =? ch "\") eqn:E2;
    [apply Z.eqb_eq in E2; subst c; exists (idx + 2); reflexivity|].
  destruct (c =? 0x0A) eqn:E3;
    [apply Z.eqb_eq in E3; subst c; exists (idx + 2); reflexivity|].
  destruct (c =? 0x0D) eqn:E4;
    [apply Z.eqb_eq in E4; subst c; exists (idx + 2); reflexivity|].
  destruct (c =? 0x09) eqn:E5;
    [apply Z.eqb_eq in E5; subst c; exists (idx + 2); reflexivity|].
  destruct (c =? 0x08) eqn:E6;
    [apply Z.eqb_eq in E6; subst c; exists (idx + 2); reflexivity|].
  destruct (c =? 0x0C) eqn:E7;
    [apply Z.eqb_eq in E7; subst c; exists (idx + 2); reflexivity|].
  destruct ((0x20 <=? c) && (c <=? 0x7E)) eqn:E8.
  { apply andb_prop in E8 as [Elo Ehi]. apply Z.leb_le in Elo.
    exists (idx + 1). change ([c] ++ t0 :: tl) with (c :: t0 :: tl).
    remember (t0 :: tl) as r eqn:Er. cbn [scanstring].
    rewrite E1, E2.
    destruct (Z.leb_spec c 0x1F); [lia | reflexivity]. }
  assert (Hhigh : forall x, Codecs.is_surrogate x = false ->
                            is_high_surrogate x = false).
  { intros x. unfold Codecs.is_surrogate, is_high_surrogate.
    rewrite !andb_false_iff, !Z.leb_gt. lia. }
  destruct (Z.ltb_spec c 0x10000) as [Hbmp|Hastral].
  - exists (idx + 6).
    exact (scanstring_u begin _ _ _ _ c t0 idx tl acc
             (hex4_value_hex4 c (conj Hc0 Hbmp)) (Hhigh c Hns)).
  - exists (idx + 12). cbv zeta.
    rewrite shiftr_10, !land_1023.
    assert (Ha : 0 <= ((c - 0x10000) / 1024) mod 1024 < 0x400)
      by (apply Z.mod_pos_bound; lia).
    assert (Hb : 0 <= (c - 0x10000) mod 1024 < 0x400)
      by (apply Z.mod_pos_bound; lia).
    pose proof (high_half_all _ Ha) as Fh. pose proof (low_half_all _ Hb) as Fl.
    unfold high_half_ok in Fh. unfold low_half_ok in Fl.
    apply andb_prop in Fh as [Fh Fh4]. apply andb_prop in Fh as [Fh Fh3].
    apply andb_prop in Fh as [Fh1 Fh2].
    apply andb_prop in Fl as [Fl Fl4]. apply andb_prop in Fl as [Fl Fl3].
    apply andb_prop in Fl as [Fl1 Fl2].
    apply Z.ltb_lt in Fh2, Fl2. apply Z.leb_le in Fh3, Fl3.
    apply Z.eqb_eq in Fh4, Fl4.
    replace c with
      (join_surrogates
         (Z.lor 0xD800 (((c - 0x10000) / 1024) mod 1024))
         (Z.lor 0xDC00 ((c - 0x10000) mod 1024))) at 3.
    + exact (scanstring_pair begin _ _ _ _ _ _ _ _ _ _ t0 idx tl acc
               (hex4_value_hex4 _ (conj Fh3 Fh2))
               (hex4_value_hex4 _ (conj Fl3 Fl2)) Fh1 Fl1).
    + unfold join_surrogates.
      rewrite Fh4, Fl4, lor_shiftl_10 by exact Hb.
      Z.to_euclidean_division_equations; lia.
Qed.

(** The reader takes what [encode_basestring_ascii] wrote for a text
    without lone surrogates, up to the closing quote, for that text. *)
Lemma scanstring_encoded (s : str) :
  plain s = true ->
  forall begin rest idx acc,
  exists i',
    scanstring begin (flat_map escape_char s ++ dquote :: rest) idx acc
    = Ok (rev acc ++ s) rest i'.
Proof.
  induction s as [|c s IH]; intros Hs begin rest idx acc.
  - exists (idx + 1). cbn [flat_map app scanstring].
    rewrite Z.eqb_refl. now rewrite app_nil_r.
  - cbn [plain forallb] in Hs. apply andb_prop in Hs as [Hc Hs].
    cbn [flat_map]. rewrite <- app_assoc.
    destruct (flat_map escape_char s ++ dquote :: rest) as [|t0 tl] eqn:E;
      [now destruct (flat_map escape_char s)|].
    destruct (scanstring_escape_char c Hc begin t0 tl idx acc) as [i1 H1].
    rewrite H1, <- E.
    destruct (IH Hs begin rest i1 (c :: acc)) as [i2 H2].
    exists i2. rewrite H2. cbn [rev]. now rewrite <- app_assoc.
Qed.

(** [scan_once] reads an encoded string back. *)
Lemma scan_once_string (lim : limits) (depth : nat) (s rest : str)
    (idx : Z) :
  plain s = true ->
  exists i',
    scan_once lim depth (encode_string s ++ rest) idx = Ok (PStr s) rest i'.
Proof.
  intros Hs. unfold encode_string.
  destruct (scanstring_encoded s Hs idx rest (idx + 1) []) as [i' H].
  exists i'.
  change ((dquote :: flat_map escape_char s ++ [dquote]) ++ rest)
    with (dquote :: (flat_map escape_char s ++ [dquote]) ++ rest).
  rewrite <- app_assoc. change ([dquote] ++ rest) with (dquote :: rest).
  destruct depth; cbn [scan_once]; rewrite Z.eqb_refl, H; reflexivity.
Qed.

End JsonStrings.

Section JsonInts.
Import Json.

Lemma digits_fuel_acc (f : nat) :
  forall n acc, digits_fuel f n acc = digits_fuel f n [] ++ acc.
Proof.
  induction f as [|f IH]; intros n acc; cbn [digits_fuel]; [reflexivity|].
  destruct (n <? 10); [reflexivity|].
  rewrite (IH (n / 10) (_ :: acc)), (IH (n / 10) [_]).
  now rewrite <- app_assoc.
Qed.

Lemma int_of_digits_snoc (d : str) (c : Z) :
  int_of_digits (d ++ [c]) = int_of_digits d * 10 + (c - ch "0").
Proof. unfold int_of_digits. now rewrite fold_left_app. Qed.

(** The decimal digits of a natural number, when the fuel suffices. *)
Lemma digits_fuel_spec (f : nat) :
  forall n, 0 <= n < 10 ^ Z.of_nat (S f) ->
  exists d0 ds,
    digits_fuel (S f) n [] = d0 :: ds
    /\ Forall (fun c => is_ascii_digit c = true) (d0 :: ds)
    /\ int_of_digits (d0 :: ds) = n
    /\ (d0 = ch "0" -> ds = [])
    /\ (List.length (d0 :: ds) <= S f)%nat.
Proof.
  assert (Hdigit : forall n, is_ascii_digit (ch "0" + n mod 10) = true).
  { intros n. unfold is_ascii_digit.
    change (ch "0") with 48. change (ch "9") with 57.
    pose proof (Z.mod_pos_bound n 10).
    apply andb_true_intro. split; apply Z.leb_le; lia. }
  assert (Hstep : forall g m acc,
            digits_fuel (S g) m acc
            = if m <? 10 then (ch "0" + m mod 10) :: acc
              else digits_fuel g (m / 10) ((ch "0" + m mod 10) :: acc))
    by reflexivity.
  induction f as [|f IH]; intros n Hn;
    rewrite Hstep; destruct (Z.ltb_spec n 10) as [Hlt|Hge];
    try (exists (ch "0" + n mod 10), [];
         split; [reflexivity|]; split; [now repeat constructor|];
         split; [|split; [reflexivity | simpl; lia]];
         unfold int_of_digits; cbn [fold_left];
         rewrite Z.mod_small by lia; lia).
  assert (Hq : 0 <= n / 10 < 10 ^ Z.of_nat (S f)).
  { rewrite (Nat2Z.inj_succ (S f)), Z.pow_succ_r in Hn by lia.
    Z.to_euclidean_division_equations; lia. }
  destruct (IH (n / 10) Hq) as [d0 [ds [Hd [Hall [Hval [Hzero Hlen]]]]]].
  rewrite digits_fuel_acc, Hd.
  exists d0, (ds ++ [ch "0" + n mod 10]).
  split; [reflexivity|]. split; [|split; [|split]].
  + change (d0 :: ds ++ [ch "0" + n mod 10])
      with ((d0 :: ds) ++ [ch "0" + n mod 10]).
    apply Forall_app. split; [exact Hall|]. now repeat constructor.
  + change (d0 :: ds ++ [ch "0" + n mod 10])
      with ((d0 :: ds) ++ [ch "0" + n mod 10]).
    rewrite int_of_digits_snoc, Hval.
    Z.to_euclidean_division_equations; lia.
  + intros H0. specialize (Hzero H0). subst ds d0.
    unfold int_of_digits in Hval. cbn [fold_left] in Hval.
    change (ch "0") with 48 in Hval.
    Z.to_euclidean_division_equations; lia.
  + cbn [List.length] in *. rewrite length_app. cbn [List.length]. lia.
Qed.

Lemma str_of_int_spec (n : Z) :
  0 <= n ->
  exists d0 ds,
    str_of_int n = d0 :: ds
    /\ Forall (fun c => is_ascii_digit c = true) (d0 :: ds)
    /\ int_of_digits (d0 :: ds) = n
    /\ (d0 = ch "0" -> ds = [])
    /\ (List.length (d0 :: ds) <= S (Z.to_nat (Z.log2 n)))%nat.
Proof.
  intros Hn. unfold str_of_int.
  destruct (Z.ltb_spec n 0) as [Hneg|_]; [lia|].
  apply digits_fuel_spec. split; [exact Hn|].
  rewrite Nat2Z.inj_succ, Z2Nat.id by apply Z.log2_nonneg.
  destruct (Z.eq_dec n 0) as [->|Hnz]; [reflexivity|].
  pose proof (Z.log2_spec n ltac:(lia)) as [_ Hup].
  apply Z.lt_le_trans with (1 := Hup).
  apply Z.pow_le_mono_l. lia.
Qed.

Lemma span_digits_app (d rest : str) :
  Forall (fun c => is_ascii_digit c = true) d ->
  (forall c tl, rest = c :: tl -> is_ascii_digit c = false) ->
  span_digits (d ++ rest) = (d, rest).
Proof.
  intros Hd Hrest. induction Hd as [|c d Hc _ IH].
  - destruct rest as [|c tl]; [reflexivity|].
    cbn [app span_digits]. now rewrite (Hrest c tl eq_refl).
  - cbn [app span_digits]. now rewrite Hc, IH.
Qed.

Lemma digit_range (c : Z) : is_ascii_digit c = true -> 48 <= c <= 57.
Proof.
  unfold is_ascii_digit. change (ch "0") with 48. change (ch "9") with 57.
  intros H. apply andb_prop in H as [H1 H2].
  apply Z.leb_le in H1, H2. lia.
Qed.

Lemma delimiter_no_digit (c : Z) :
  c = ch "," \/ c = ch "}" -> is_ascii_digit c = false.
Proof. now intros [-> | ->]. Qed.

(** No constant starts with a digit. *)
Lemma match_constant_digit (d0 : Z) (s : str) (idx : Z) :
  is_ascii_digit d0 = true ->
  match_constant constants (d0 :: s) idx = None.
Proof.
  intros H. apply digit_range in H.
  assert (Hne : forall k, (k < 48 \/ 57 < k) -> (k =? d0) = false)
    by (intros k Hk; apply Z.eqb_neq; lia).
  cbn -[Z.eqb].
  rewrite !Hne by lia. reflexivity.
Qed.

(** [_match_number] reads the digits of a small natural number back. *)
Lemma match_number_digits (lim : limits) (d0 : Z) (ds : str) (c : Z)
    (tl : str) (idx : Z) :
  Forall (fun x => is_ascii_digit x = true) (d0 :: ds) ->
  (d0 = ch "0" -> ds = []) ->
  (List.length (d0 :: ds) <= 640)%nat ->
  c = ch "," \/ c = ch "}" ->
  exists i',
    match_number lim ((d0 :: ds) ++ c :: tl) idx
    = Ok (PInt (int_of_digits (d0 :: ds))) (c :: tl) i'.
Proof.
  intros Hall Hzero Hlen Hc.
  pose proof (Forall_inv Hall) as Hd0. cbn beta in Hd0.
  pose proof (digit_range d0 Hd0) as Hr.
  assert (Hint : match_int ((d0 :: ds) ++ c :: tl) = (d0 :: ds, c :: tl)).
  { unfold match_int. cbn [app].
    change (ch "1") with 49. change (ch "9") with 57.
    change (ch "0") with 48 in *.
    destruct ((49 <=? d0) && (d0 <=? 57)) eqn:E.
    - apply (span_digits_app (d0 :: ds) (c :: tl) Hall).
      intros c' tl' [= <- _]. now apply delimiter_no_digit.
    - assert (H0 : d0 = 48).
      { apply andb_false_iff in E. rewrite !Z.leb_gt in E. lia. }
      rewrite (Hzero H0). subst d0. reflexivity. }
  assert (Hsign : match_sign ((d0 :: ds) ++ c :: tl)
                  = (false, (d0 :: ds) ++ c :: tl)).
  { cbn [app match_sign]. change (ch "-") with 45.
    destruct (Z.eqb_spec d0 45); [lia | reflexivity]. }
  assert (Hfrac : match_frac (c :: tl) = None).
  { unfold match_frac. destruct tl as [|x tl']; [reflexivity|].
    destruct Hc as [-> | ->]; reflexivity. }
  assert (Hexp : match_exp (c :: tl) = None).
  { unfold match_exp. destruct Hc as [-> | ->]; reflexivity. }
  assert (Hlit : int_of_literal lim false (d0 :: ds)
                 = Return (PInt (int_of_digits (d0 :: ds)))).
  { unfold int_of_literal. cbv zeta.
    destruct (Z.ltb_spec 640 (len (d0 :: ds))) as [Hlong|_];
      [unfold len in Hlong; lia | reflexivity]. }
  unfold match_number. rewrite Hsign, Hint, Hfrac, Hexp, Hlit.
  eexists. reflexivity.
Qed.

(** What [dumps] writes for a small natural number reads back as it. *)
Lemma reads_as_int (lim : limits) (n : Z) :
  small_int n = true -> reads_as lim (JInteger n) (PInt n).
Proof.
  intros Hn.
  unfold small_int in Hn. apply andb_prop in Hn as [H0 H1].
  apply Z.leb_le in H0. apply Z.ltb_lt in H1.
  destruct (str_of_int_spec n H0) as [d0 [ds [Hd [Hall [Hval [Hz Hlen]]]]]].
  split.
  { exists d0, ds. split; [exact Hd|].
    pose proof (digit_range d0 (Forall_inv Hall)) as Hr.
    unfold is_whitespace. change (ch " ") with 32.
    repeat (apply orb_false_intro); apply Z.eqb_neq; lia. }
  intros depth rest idx [c [tl [-> Hc]]].
  assert (Hlen' : (List.length (d0 :: ds) <= 640)%nat).
  { destruct (Z.eq_dec n 0) as [->|Hnz];
      [change (Z.to_nat (Z.log2 0)) with 0%nat in Hlen; lia|].
    assert (Z.log2 n < 640) by (apply Z.log2_lt_pow2; lia).
    pose proof (Z.log2_nonneg n). lia. }
  destruct (match_number_digits lim d0 ds c tl idx Hall Hz Hlen' Hc)
    as [i' Hnum].
  exists i'. cbn [encode_value]. rewrite Hd, <- Hval, <- Hnum.
  pose proof (digit_range d0 (Forall_inv Hall)) as Hr.
  change ((d0 :: ds) ++ c :: tl) with (d0 :: ds ++ c :: tl).
  destruct depth; cbn [scan_once];
    (destruct (Z.eqb_spec d0 dquote) as [E|_]; [unfold dquote in E; lia|]);
    (destruct (Z.eqb_spec d0 (ch "{")) as [E|_];
       [change (ch "{") with 123 in E; lia|]);
    (destruct (Z.eqb_spec d0 (ch "[")) as [E|_];
       [change (ch "[") with 91 in E; lia|]);
    now rewrite (match_constant_digit d0 _ idx (Forall_inv Hall)).
Qed.

(** What [dumps] writes for a text without lone surrogates reads back as
    it. *)
Lemma reads_as_string (lim : limits) (s : str) :
  plain s = true -> reads_as lim (JString s) (PStr s).
Proof.
  intros Hs. split.
  - exists dquote, (flat_map escape_char s ++ [dquote]). now split.
  - intros depth rest idx _. now apply scan_once_string.
Qed.

End JsonInts.

Section JsonObjects.
Import Json.

Lemma skip_ws_stays (c : Z) (s : str) (i : Z) :
  is_whitespace c = false -> skip_ws (c :: s) i = (c :: s, i).
Proof. intros H. cbn [skip_ws]. now rewrite H. Qed.

Lemma str_eqb_neq (a b : str) : a <> b -> str_eqb a b = false.
Proof.
  intros H. destruct (str_eqb a b) eqn:E; [|reflexivity].
  now apply str_eqb_eq in E.
Qed.

Lemma dict_set_fresh (acc : dict) (k : str) (v : pyval) :
  ~ In k (List.map fst acc) -> dict_set acc k v = acc ++ [(k, v)].
Proof.
  induction acc as [|[k' v'] acc IH]; intros H; [reflexivity|].
  cbn [List.map fst In] in H. cbn [dict_set app].
  rewrite str_eqb_neq by tauto. rewrite IH by tauto. reflexivity.
Qed.

Lemma delimited_stays (tail : str) (i : Z) :
  delimited tail -> skip_ws tail i = (tail, i).
Proof.
  intros [c [tl [-> [-> | ->]]]]; now apply skip_ws_stays.
Qed.

(** One turn of the loop of [_parse_object] over a field that [dumps]
    wrote: the key and the value are read, and the loop is at the
    delimiter that follows. *)
Lemma object_loop_field (lim : limits) (depth n : nat)
    (kv : str * jvalue) (pv : pyval) (tail : str) (idx : Z) (acc : dict) :
  plain (fst kv) = true ->
  reads_as lim (snd kv) pv ->
  ~ In (fst kv) (List.map fst acc) ->
  delimited tail ->
  exists i5,
    object_loop (scan_once lim depth) (S n) (field kv ++ tail) idx acc
    = match tail with
      | c' :: r6 =>
          if c' =? ch "}" then Ok (PDict (acc ++ [(fst kv, pv)])) r6 (i5 + 1)
          else if c' =? ch "," then
            let (r7, i7) := skip_ws r6 (i5 + 1) in
            object_loop (scan_once lim depth) n r7 i7
              (acc ++ [(fst kv, pv)])
          else Fail "Expecting ',' delimiter" i5
      | [] => Fail "Expecting ',' delimiter" i5
      end.
Proof.
  intros Hk [[c0 [r0 [Hhead Hnws]]] Hv] Hfresh Htail.
  destruct kv as [k v]. cbn [fst snd] in *.
  assert (Hshape : field (k, v) ++ tail
                   = dquote :: flat_map escape_char k
                       ++ dquote :: ch ":" :: ch " "
                            :: (encode_value v ++ tail)).
  { unfold field, encode_string. cbn [fst snd].
    change (u ": ") with [ch ":"; ch " "].
    cbn [app]. f_equal. rewrite <- !app_assoc. reflexivity. }
  rewrite Hshape.
  destruct (scanstring_encoded k Hk idx
              (ch ":" :: ch " " :: (encode_value v ++ tail)) (idx + 1) [])
    as [i1 Hscan].
  destruct (Hv depth tail (i1 + 1 + 1) Htail) as [i4 Hval].
  exists i4.
  cbn [object_loop]. rewrite Z.eqb_refl, Hscan. cbn [sbind rev app].
  rewrite skip_ws_stays by reflexivity. cbv beta iota.
  rewrite Z.eqb_refl.
  change (skip_ws (ch " " :: encode_value v ++ tail) (i1 + 1))
    with (skip_ws (encode_value v ++ tail) (i1 + 1 + 1)).
  rewrite Hhead. cbn [app]. rewrite skip_ws_stays by exact Hnws.
  cbv beta iota. change (c0 :: r0 ++ tail) with ((c0 :: r0) ++ tail).
  rewrite <- Hhead, Hval. cbn [sbind].
  rewrite dict_set_fresh by exact Hfresh.
  rewrite delimited_stays by exact Htail.
  reflexivity.
Qed.

Lemma field_starts (kv : str * jvalue) :
  exists r, field kv = dquote :: r.
Proof. unfold field, encode_string. now eexists. Qed.

Lemma join_fields_starts (kv : str * jvalue) (d : list (str * jvalue)) :
  exists r, join (u ", ") (List.map field (kv :: d)) = dquote :: r.
Proof.
  destruct (field_starts kv) as [r Hr]. cbn [List.map join].
  destruct (List.map field d); rewrite Hr; now eexists.
Qed.

(** What [dumps] writes is at least as long as the dict has fields. *)
Lemma join_fields_length (d : list (str * jvalue)) :
  (List.length d <= List.length (join (u ", ") (List.map field d)))%nat.
Proof.
  induction d as [|kv d IH]; [apply Nat.le_refl|].
  destruct (field_starts kv) as [r Hr]. cbn [List.map join].
  destruct d as [|kv' d'].
  - cbn [List.map]. rewrite Hr. simpl. lia.
  - cbn [List.map] in *. rewrite Hr, !length_app. cbn [List.length] in *.
    lia.
Qed.

(** The loop of [_parse_object] over the fields that [dumps] wrote. *)
Lemma object_loop_fields (lim : limits) (depth : nat)
    (d : list (str * jvalue)) :
  forall kv pd n rest idx acc,
    (List.length (kv :: d) <= n)%nat ->
    Forall (fun kv => plain (fst kv) = true) (kv :: d) ->
    NoDup (List.map fst acc ++ List.map fst (kv :: d)) ->
    reads_back lim (kv :: d) pd ->
    exists i',
      object_loop (scan_once lim depth) n
        (join (u ", ") (List.map field (kv :: d)) ++ ch "}" :: rest) idx acc
      = Ok (PDict (acc ++ pd)) rest i'.
Proof.
  induction d as [|kv' d IH];
    intros kv pd n rest idx acc Hn Hplain Hnodup Hback;
    (destruct n as [|n]; [cbn [List.length] in Hn; lia|]);
    inversion Hback as [|kv0 [k pv] d0 pd' [Hkey Hval] Hrest]; subst;
    cbn [fst snd] in Hkey, Hval; subst k;
    pose proof (Forall_inv Hplain) as Hk; cbn beta in Hk;
    pose proof (NoDup_remove_2 _ _ _ Hnodup) as Hfresh;
    (assert (Hfresh' : ~ In (fst kv) (List.map fst acc))
       by (intros Hin; apply Hfresh; apply in_or_app; now left)).
  - inversion Hrest; subst. cbn [List.map join].
    destruct (object_loop_field lim depth n kv pv (ch "}" :: rest) idx acc
                Hk Hval Hfresh')
      as [i5 H5]; [exists (ch "}"), rest; auto|].
    exists (i5 + 1). rewrite H5. reflexivity.
  - assert (Hjoin : join (u ", ") (List.map field (kv :: kv' :: d))
                    = field kv ++ ch "," :: ch " "
                        :: join (u ", ") (List.map field (kv' :: d)))
      by reflexivity.
    rewrite Hjoin, <- app_assoc. cbn [app].
    destruct (object_loop_field lim depth n kv pv
                (ch "," :: ch " "
                   :: join (u ", ") (List.map field (kv' :: d))
                   ++ ch "}" :: rest) idx acc Hk Hval Hfresh')
      as [i5 H5]; [eexists _, _; split; [reflexivity | now left]|].
    rewrite H5. change (ch "," =? ch "}") with false.
    change (ch "," =? ch ",") with true. cbv beta iota.
    change (skip_ws (ch " " :: ?s) ?i) with (skip_ws s (i + 1)).
    destruct (join_fields_starts kv' d) as [r Hr].
    change (skip_ws
              (ch " " :: join (u ", ") (List.map field (kv' :: d))
                 ++ ch "}" :: rest) (i5 + 1))
      with (skip_ws
              (join (u ", ") (List.map field (kv' :: d)) ++ ch "}" :: rest)
              (i5 + 1 + 1)).
    rewrite Hr. cbn [app]. rewrite skip_ws_stays by reflexivity.
    change (dquote :: r ++ ch "}" :: rest)
      with ((dquote :: r) ++ ch "}" :: rest).
    rewrite <- Hr.
    destruct (IH kv' pd' n rest (i5 + 1 + 1) (acc ++ [(fst kv, pv)]))
      as [i' H'].
    + cbn [List.length] in *. lia.
    + exact (Forall_inv_tail Hplain).
    + rewrite map_app, <- app_assoc. exact Hnodup.
    + exact Hrest.
    + exists i'. rewrite H', <- app_assoc. reflexivity.
Qed.

(** [json.loads(json.dumps(d))] for a dict with distinct keys, which hold
    no lone surrogate, and values that read back, in an interpreter that
    allows one level of nesting. *)
Lemma loads_dumps (lim : limits) (d : list (str * jvalue)) (pd : dict) :
  (1 <= recursion_limit lim)%nat ->
  Forall (fun kv => plain (fst kv) = true) d ->
  NoDup (List.map fst d) ->
  reads_back lim d pd ->
  loads_str lim (dumps d) = Return (PDict pd).
Proof.
  intros Hlim Hplain Hnodup Hback.
  destruct lim as [[|depth] maxd]; [cbn in Hlim; lia|].
  destruct d as [|kv d].
  - inversion Hback; subst. reflexivity.
  - unfold dumps. destruct (join_fields_starts kv d) as [r Hr].
    pose proof (join_fields_length (kv :: d)) as Hlen.
    destruct (object_loop_fields (mkLimits (S depth) maxd) depth d kv pd
                (S (List.length (join (u ", ") (List.map field (kv :: d))
                                   ++ [ch "}"])))
                [] 1 [])
      as [i' H']; try assumption.
    { rewrite length_app. cbn [List.length] in *. lia. }
    change (List.map
              (fun kv0 : str * jvalue =>
                 encode_string (fst kv0) ++ u ": " ++ encode_value (snd kv0))
              (kv :: d))
      with (List.map field (kv :: d)).
    change (u "{" ++ ?x ++ u "}") with (ch "{" :: x ++ [ch "}"]).
    assert (Hscan :
      scan_once (mkLimits (S depth) maxd) (S depth)
        (ch "{" :: join (u ", ") (List.map field (kv :: d)) ++ [ch "}"]) 0
      = Ok (PDict pd) [] i').
    { cbn [app] in H'. rewrite <- H', Hr. reflexivity. }
    unfold loads_str, decode, raw_decode.
    rewrite skip_ws_stays by reflexivity.
    cbn [recursion_limit]. rewrite Hscan. reflexivity.
Qed.

End JsonObjects.

Section JsonReals.
Import Json.

Lemma reads_as_half (lim : limits) :
  reads_as lim (JReal "0.5") (PFloat float_half).
Proof.
  split; [now exists (ch "0"), (u ".5")|].
  intros depth rest idx [c [tl [-> Hc]]].
  destruct depth, Hc as [-> | ->]; eexists; vm_compute; reflexivity.
Qed.

Lemma reads_as_nine_tenths (lim : limits) :
  reads_as lim (JReal "0.9") (PFloat float_nine_tenths).
Proof.
  split; [now exists (ch "0"), (u ".9")|].
  intros depth rest idx [c [tl [-> Hc]]].
  destruct depth, Hc as [-> | ->]; eexists; vm_compute; reflexivity.
Qed.

End JsonReals.

Section PlainText.

Lemma plain_app (a b : str) : plain (a ++ b) = plain a && plain b.
Proof. apply forallb_app. Qed.

Lemma plain_is_text (s : str) : plain s = true -> is_text s = true.
Proof.
  unfold plain, is_text. rewrite !forallb_forall. intros H c Hc.
  specialize (H c Hc). unfold plain_char in H. unfold code_point.
  now apply andb_prop in H as [H _].
Qed.

Lemma keys_distinct (keys : list str) :
  forallb (fun k => Nat.eqb (count_occ (list_eq_dec Z.eq_dec) keys k) 1)
    keys = true ->
  NoDup keys.
Proof.
  intros H. apply (NoDup_count_occ' (list_eq_dec Z.eq_dec)).
  intros k Hk. rewrite forallb_forall in H.
  now apply Nat.eqb_eq, H.
Qed.

End PlainText.

(** Splits the reading back of a dict into that of its values. *)
Ltac read_fields :=
  unfold reads_back;
  repeat first
    [ apply Forall2_nil
    | apply Forall2_cons; [split; [reflexivity | cbn [snd]]|] ].

Section Stored.

(** [encode] refuses a text with a surrogate. *)
Lemma utf8_encode_surrogate (s : str) :
  existsb Codecs.is_surrogate s = true ->
  forall pos, exists e,
    Codecs.utf8_encode pos s = Raise e /\ exc_cls e = UnicodeEncodeError.
Proof.
  induction s as [|c s IH]; intros H pos; [discriminate|].
  rewrite utf8_encode_cons. cbv zeta.
  cbn [existsb] in H.
  destruct (Codecs.is_surrogate c) eqn:Hc.
  - assert (Hr : 0xD800 <= c).
    { unfold Codecs.is_surrogate in Hc. apply andb_prop in Hc as [Hc _].
      now apply Z.leb_le. }
    destruct (Z.ltb_spec c 0x80); [lia|].
    destruct (Z.ltb_spec c 0x800); [lia|].
    eexists. split; reflexivity.
  - cbn [orb] in H. destruct (IH H (pos + 1)) as [e [He Hcls]].
    rewrite He. exists e. split; [|exact Hcls].
    repeat match goal with
           | |- context [if ?b then _ else _] => destruct b
           end; reflexivity.
Qed.

End Stored.


Section ModelAnswer.
Import Codecs.

Ltac raise_leaf IH :=
  unfold emit, on_error;
  repeat match goal with
         | |- context [utf8_decode ?h ?p ?r] =>
             let H := fresh "H" in
             pose proof (IH r p ltac:(simpl in *; lia)) as H;
             destruct (utf8_decode h p r);
             [clear H | specialize (H _ eq_refl)]
         end;
  cbn [bind]; try discriminate;
  try (intros [= <-]; (assumption || reflexivity)).

Lemma utf8_decode_raises_bounded (h : error_handler) (n : nat) :
  forall data pos, (List.length data <= n)%nat ->
  forall e, utf8_decode h pos data = Raise e ->
  exc_cls e = UnicodeDecodeError.
Proof.
  induction n as [|n IH]; intros data pos Hlen e.
  - destruct data; [discriminate | simpl in Hlen; lia].
  - destruct data as [|b1 r1]; [discriminate|].
    destruct h; cbn [utf8_decode];
    repeat match goal with
           | |- context [if ?b then _ else _] => destruct b
           | |- context [match ?l with [] => _ | _ :: _ => _ end] =>
               destruct l
           end; raise_leaf IH.
Qed.

(** The only exception of the UTF-8 decoder is [UnicodeDecodeError]. *)
Lemma utf8_decode_raises (h : error_handler) (pos : Z) (data : bytes)
    (e : exc) :
  utf8_decode h pos data = Raise e -> exc_cls e = UnicodeDecodeError.
Proof.
  now apply (utf8_decode_raises_bounded h (List.length data)).
Qed.

(** What [json.loads] raises on bytes, when the codec of the wide
    encodings raises only [Exception]s. *)
Lemma loads_bytes_raises (lim : Json.limits)
    (wide : encoding -> bytes -> result str) (raw : bytes) (e : exc) :
  (forall enc data e', wide enc data = Raise e' -> is_Exception e' = true) ->
  Json.loads_bytes lim wide raw = Raise e ->
  is_Exception e = true.
Proof.
  intros Hwide. unfold Json.loads_bytes.
  assert (Hutf8 : forall data t,
            bind (utf8_decode SurrogatePass 0 data) (Json.decode lim) = t ->
            t = Raise e -> is_Exception e = true).
  { intros data t <-.
    destruct (utf8_decode SurrogatePass 0 data) as [text|e'] eqn:E;
      cbn [bind].
    - intros H. apply decode_raises in H.
      unfold is_Exception.
      destruct H as [-> | [-> | ->]]; reflexivity.
    - intros [= <-]. apply utf8_decode_raises in E.
      unfold is_Exception. now rewrite E. }
  assert (Hother : forall enc,
            bind (wide enc raw) (Json.decode lim) = Raise e ->
            is_Exception e = true).
  { intros enc. destruct (wide enc raw) as [text|e'] eqn:E; cbn [bind].
    - intros H. apply decode_raises in H.
      unfold is_Exception.
      destruct H as [-> | [-> | ->]]; reflexivity.
    - intros [= <-]. exact (Hwide _ _ _ E). }
  destruct (detect_encoding raw);
    first [ now apply (Hutf8 raw) | now apply (Hutf8 (skipn 3 raw))
          | apply Hother ].
Qed.

End ModelAnswer.

Section Headers.

Lemma str_eqb_sym (a b : str) : str_eqb a b = str_eqb b a.
Proof.
  destruct (str_eqb a b) eqn:E.
  - apply str_eqb_eq in E. subst b. now rewrite str_eqb_refl.
  - destruct (str_eqb b a) eqn:E'; [|reflexivity].
    apply str_eqb_eq in E'. subst b. now rewrite str_eqb_refl in E.
Qed.

Lemma dict_lookup_set (V : Type) (d : list (str * V)) (k k' : str) (v : V) :
  dict_lookup (dict_set d k v) k'
  = if str_eqb k k' then Some v else dict_lookup d k'.
Proof.
  induction d as [|[k0 v0] d IH]; cbn [dict_set dict_lookup].
  - reflexivity.
  - destruct (str_eqb k0 k) eqn:E; cbn [dict_lookup].
    + apply str_eqb_eq in E. subst k0. now destruct (str_eqb k k').
    + rewrite IH. destruct (str_eqb k0 k') eqn:E0; [|reflexivity].
      apply str_eqb_eq in E0. subst k0.
      rewrite str_eqb_sym in E. now rewrite E.
Qed.

(** Looking up in [{**d, **extra}]: the last entry of [extra] for the key,
    or else the entry of [d]. *)
Lemma dict_lookup_update (V : Type) (extra d : list (str * V)) (k : str) :
  dict_lookup
    (fold_left (fun acc kv => dict_set acc (fst kv) (snd kv)) extra d) k
  = match dict_lookup (rev extra) k with
    | Some v => Some v
    | None => dict_lookup d k
    end.
Proof.
  revert d. induction extra as [|[k0 v0] extra IH]; intros d;
    cbn [fold_left rev]; [reflexivity|].
  rewrite IH. cbn [fst snd].
  assert (Happ : forall l : list (str * V),
            dict_lookup (l ++ [(k0, v0)]) k
            = match dict_lookup l k with
              | Some v => Some v
              | None => if str_eqb k0 k then Some v0 else None
              end).
  { induction l as [|[k1 v1] l IHl]; cbn [app dict_lookup]; [reflexivity|].
    destruct (str_eqb k1 k); [reflexivity | exact IHl]. }
  rewrite Happ, dict_lookup_set.
  destruct (dict_lookup (rev extra) k); [reflexivity|].
  destruct (str_eqb k0 k); reflexivity.
Qed.

End Headers.

Section KeyNames.

Lemma filter_kept (A : Type) (f : A -> bool) (l : list A) :
  Forall (fun x => f x = true) l -> filter f l = l.
Proof.
  induction 1 as [|x l Hx _ IH]; [reflexivity|].
  cbn [filter]. now rewrite Hx, IH.
Qed.

End KeyNames.


(** ** The responses, read back *)

Section Responses.

Lemma plain_firstn (n : nat) (s : str) :
  plain s = true -> plain (firstn n s) = true.
Proof.
  revert n. induction s as [|c s IH]; intros [|n] H; try reflexivity.
  cbn [plain forallb] in H. apply andb_prop in H as [Hc Hs].
  cbn [firstn plain forallb]. rewrite Hc. exact (IH n Hs).
Qed.

(** A text that [encode] accepts holds no surrogate. *)
Lemma encoded_text_is_plain (s : str) (pos : Z) (encoded : bytes) :
  is_text s = true ->
  Codecs.utf8_encode pos s = Return encoded ->
  plain s = true.
Proof.
  intros Htext Henc.
  destruct (existsb Codecs.is_surrogate s) eqn:E.
  - destruct (utf8_encode_surrogate s E pos) as [e [He _]].
    rewrite He in Henc. discriminate.
  - clear Henc. induction s as [|c s IH]; [reflexivity|].
    cbn [is_text forallb] in Htext. apply andb_prop in Htext as [Hc Hs].
    cbn [existsb] in E. apply orb_false_elim in E as [Ec Es].
    cbn [plain forallb]. unfold plain_char.
    unfold code_point in Hc. rewrite Hc, Ec. exact (IH Hs Es).
Qed.

Lemma plain_preview (blog_text : str) :
  plain blog_text = true -> plain (preview_of blog_text) = true.
Proof.
  intros H. unfold preview_of. rewrite plain_app, plain_firstn by exact H.
  destruct (200 <? List.length blog_text)%nat; reflexivity.
Qed.

Lemma plain_forall (s : str) :
  Forall (fun c => plain_char c = true) s -> plain s = true.
Proof. intros H. apply forallb_forall. now apply Forall_forall. Qed.

Lemma digits_fuel_plain (fuel : nat) :
  forall n acc,
    Forall (fun c => plain_char c = true) acc ->
    Forall (fun c => plain_char c = true) (digits_fuel fuel n acc).
Proof.
  induction fuel as [|f IH]; intros n acc Hacc; simpl; [exact Hacc|].
  assert (Hd : plain_char (ch "0" + n mod 10) = true).
  { pose proof (Z.mod_pos_bound n 10 eq_refl) as Hm.
    unfold plain_char, Codecs.is_surrogate. change (ch "0") with 48.
    rewrite !andb_true_iff, negb_true_iff, andb_false_iff, !Z.leb_le,
      !Z.leb_gt. lia. }
  destruct (n <? 10); [now constructor|].
  apply IH. now constructor.
Qed.

Lemma str_of_int_plain (n : Z) :
  Forall (fun c => plain_char c = true) (str_of_int n).
Proof.
  unfold str_of_int. destruct (n <? 0).
  - constructor; [reflexivity|]. apply digits_fuel_plain. constructor.
  - apply digits_fuel_plain. constructor.
Qed.

Lemma zero_pad_plain (width : nat) (n : Z) :
  Forall (fun c => plain_char c = true) (zero_pad width n).
Proof.
  unfold zero_pad. apply Forall_app. split; [|apply str_of_int_plain].
  apply Forall_forall. intros c Hc. apply repeat_spec in Hc. now subst c.
Qed.

Lemma timestamp_plain (w : World) :
  Forall (fun c => plain_char c = true) (timestamp w).
Proof.
  unfold timestamp.
  cbv -[str_of_int zero_pad year month day hour minute second app utcnow
        plain_char].
  repeat first
    [ apply Forall_nil
    | apply Forall_cons; [reflexivity|]
    | apply Forall_app; split;
      [first [apply str_of_int_plain | apply zero_pad_plain]|] ].
Qed.

(** The storage key holds no lone surrogate, when the Unicode table calls
    none alphanumeric. *)
Lemma s3_key_plain (w : World) (topic : str) :
  ucd_text w -> plain (s3_key_of w topic) = true.
Proof.
  intros Hucd. unfold s3_key_of. rewrite !plain_app.
  assert (Hsafe : plain (safe_topic_of w topic) = true).
  { apply plain_forall.
    apply Forall_impl with (2 := safe_topic_kept w topic).
    intros c Hc. unfold keep_in_key, isalnum in Hc.
    apply orb_prop in Hc as [Hc|Hc]; [apply orb_prop in Hc as [Hc|Hc]|].
    - destruct (c <? 0x80); [|now apply Hucd].
      apply ascii_alnum_range in Hc.
      change (ch "0") with 48 in Hc. change (ch "z") with 122 in Hc.
      unfold plain_char, Codecs.is_surrogate.
      rewrite !andb_true_iff, negb_true_iff, andb_false_iff, !Z.leb_le,
        !Z.leb_gt. lia.
    - apply Z.eqb_eq in Hc. now subst c.
    - apply Z.eqb_eq in Hc. now subst c. }
  rewrite Hsafe, (plain_forall _ (timestamp_plain w)). reflexivity.
Qed.


(** The preview of a success response, read back from its body. *)
Lemma preview_field_reads_back (w : World) (s3_key preview : str) (n : Z) :
  plain (S3_BUCKET w) = true ->
  plain s3_key = true ->
  plain preview = true ->
  0 <= n < 2 ^ 640 ->
  response_field (success w s3_key preview n) "preview"
  = Return (PStr preview).
Proof.
  intros Hb Hk Hp Hn. unfold response_field, success, _ok. cbn [body].
  rewrite (loads_dumps (Json.mkLimits 1000 4300) _
             [(u "message", PStr (u "Blog generated and saved."));
              (u "s3_bucket", PStr (S3_BUCKET w));
              (u "s3_key", PStr s3_key);
              (u "length_chars", PInt n);
              (u "preview", PStr preview)]).
  - reflexivity.
  - apply Nat.ltb_lt. reflexivity.
  - now repeat constructor.
  - apply keys_distinct. reflexivity.
  - read_fields; try (now apply reads_as_string).
    apply reads_as_int. unfold small_int.
    apply andb_true_intro. split; [apply Z.leb_le | apply Z.ltb_lt]; lia.
Qed.

End Responses.



(** C9: in the success response (the text was generated and stored), the
    preview in the body, read back with [json.loads], is the whole text,
    with nothing appended, when the text has at most 200 characters, and
    its first 200 characters followed by [...] when it has more.  The
    generated text is a Python str (code points up to U+10FFFF) shorter
    than 2^640 characters, the bucket name holds no lone surrogate, and
    what the Unicode table calls alphanumeric is a code point up to
    U+10FFFF and no surrogate. *)
Theorem C9_preview (w : World) (event : dict) (ctx body : pyval)
    (topic blog_text : str) (calls : list call) (encoded : bytes) :
  _parse_event_body w event = Return body ->
  topic_of body = Return topic ->
  topic <> [] ->
  generate_blog w topic [] = (Return blog_text, calls) ->
  blog_text <> [] ->
  s3_client w = Return tt ->
  Codecs.utf8_encode 0 blog_text = Return encoded ->
  put_object w (s3_request w (s3_key_of w topic) encoded) = Return tt ->
  is_text blog_text = true ->
  Z.of_nat (List.length blog_text) < 2 ^ 640 ->
  plain (S3_BUCKET w) = true ->
  ucd_text w ->
  exists r preview,
    fst (run w event ctx) = Return r
    /\ statusCode r = 200
    /\ response_field r "preview" = Return (PStr preview)
    /\ ((List.length blog_text <= 200)%nat -> preview = blog_text)
    /\ ((200 < List.length blog_text)%nat ->
        preview = firstn 200 blog_text ++ u "..."
        /\ List.length (firstn 200 blog_text) = 200%nat).
Proof.
  intros Hb Ht Hne Hg Hbt Hc He Hp Htext Hlen Hbucket Hucd.
  exists (success w (s3_key_of w topic) (preview_of blog_text)
            (Z.of_nat (List.length blog_text))),
         (preview_of blog_text).
  rewrite (handler_stores w event ctx body topic blog_text calls encoded
             Hb Ht Hne Hg Hbt Hc He Hp).
  split; [reflexivity|]. split; [reflexivity|]. split.
  - apply preview_field_reads_back.
    + exact Hbucket.
    + now apply s3_key_plain.
    + apply plain_preview.
      exact (encoded_text_is_plain blog_text 0 encoded Htext He).
    + lia.
  - split; [apply preview_short | apply preview_long].
Qed.

Lemma C9_witness :
  exists r preview,
    fst (run (mock_world long_answer (mkDatetime 2024 3 7 9 5 0))
           coffee_event PNone) = Return r
    /\ statusCode r = 200
    /\ response_field r "preview" = Return (PStr preview)
    /\ preview = repeat (ch "a") 200 ++ u "...".
Proof.
  assert (Hne : u "Coffee!!" <> []) by discriminate.
  assert (Hbt : long_text <> []) by discriminate.
  assert (Hlong : (200 < List.length long_text)%nat)
    by (vm_compute; reflexivity).
  destruct (C9_preview (mock_world long_answer (mkDatetime 2024 3 7 9 5 0))
              coffee_event PNone
              (PDict [(u "blogstopic", PStr (u "Coffee!!"))])
              (u "Coffee!!") long_text
              [InvokeModel
                 (bedrock_request
                    (mock_world long_answer (mkDatetime 2024 3 7 9 5 0))
                    (u "Coffee!!"))]
              long_text)
    as [r [preview [Hrun [Hstatus [Hfield [_ Hcut]]]]]];
    [vm_compute; reflexivity | vm_compute; reflexivity | exact Hne
    | vm_compute; reflexivity | exact Hbt | reflexivity
    | vm_compute; reflexivity | reflexivity | vm_compute; reflexivity
    | vm_compute; reflexivity | reflexivity | intros c H; discriminate H |].
  exists r, preview. repeat split; try assumption.
  destruct (Hcut Hlong) as [Hpre _]. rewrite Hpre. reflexivity.
Defined.

(** ** The properties *)

(** X1: whenever the handler returns, the status code is 200, 400 or 502
    (the default 500 of [_error] is never used) and the only header is
    [Content-Type: application/json]. *)
Theorem handler_status_and_header (w : World) (event : dict) (ctx : pyval)
    (tr tr' : list call) (r : response) :
  lambda_handler w event ctx tr = (Return r, tr') ->
  (statusCode r = 200 \/ statusCode r = 400 \/ statusCode r = 502)
  /\ headers r = [(u "Content-Type", u "application/json")].
Proof.
  revert r tr'. pattern (lambda_handler w event ctx tr).
  apply handler_outcomes; intros;
    match goal with
    | H : (Raise _, _) = (Return _, _) |- _ => discriminate H
    | H : (Return _, _) = (Return _, _) |- _ => injection H as <- _
    end;
    (split; [|reflexivity]); cbn [statusCode _error _ok missing_topic success];
    auto.
Qed.

Lemma handler_status_and_header_witness :
  (statusCode (_error (u "Model returned empty content.") 502) = 200
   \/ statusCode (_error (u "Model returned empty content.") 502) = 400
   \/ statusCode (_error (u "Model returned empty content.") 502) = 502)
  /\ headers (_error (u "Model returned empty content.") 502)
     = [(u "Content-Type", u "application/json")].
Proof.
  apply (handler_status_and_header silent_world coffee_event PNone []
           [InvokeModel (bedrock_request silent_world (u "Coffee!!"))]).
  vm_compute. reflexivity.
Defined.

(** X2: the exceptions that leave the handler.  One that the model call or
    the storage write raised is not of class [Exception] (every
    [Exception] of theirs becomes a 502 response).  Any other was raised
    before a service was called: by [_parse_event_body], and then it is a
    [TypeError], a [ValueError], a [binascii.Error] or a [RecursionError];
    or by the extraction of the topic, and then it is an
    [AttributeError]. *)
Theorem handler_escaping_exceptions (w : World) (event : dict) (ctx : pyval)
    (e : exc) (calls : list call) :
  run w event ctx = (Raise e, calls) ->
  is_Exception e = false
  \/ (calls = [] /\ _parse_event_body w event = Raise e
      /\ (exc_cls e = TypeError \/ exc_cls e = ValueError
          \/ exc_cls e = BinasciiError \/ exc_cls e = RecursionError))
  \/ (calls = [] /\ exc_cls e = AttributeError
      /\ exists body,
           _parse_event_body w event = Return body
           /\ topic_of body = Raise e).
Proof.
  unfold run. revert e calls. pattern (lambda_handler w event ctx []).
  apply handler_outcomes; intros;
    match goal with
    | H : (Return _, _) = (Raise _, _) |- _ => discriminate H
    | H : (Raise _, _) = (Raise _, _) |- _ => injection H as <- <-
    end; try (left; assumption).
  - right. left. split; [reflexivity|]. split; [assumption|].
    match goal with
    | H : _parse_event_body _ _ = Raise _ |- _ =>
        destruct (parse_event_body_raises _ _ _ H)
          as [body_str [_ [_ [[Hc _] | [[s [_ [_ [_ Hc]]]] | [s [_ Hc]]]]]]]
    end.
    + now left.
    + destruct Hc as [Hc | Hc]; [right; now left | right; right; now left].
    + destruct Hc as [Hc | Hc]; [right; right; now right | right; now left].
  - right. right. split; [reflexivity|].
    match goal with
    | Hb : _parse_event_body _ _ = Return ?b, Ht : topic_of _ = Raise _ |- _ =>
        split; [exact (topic_of_raises _ _ Ht) | now exists b]
    end.
Qed.

Lemma handler_escaping_exceptions_witness :
  is_Exception (mkExc BinasciiError (u "Incorrect padding")) = false
  \/ (@nil call = []
      /\ _parse_event_body some_world bad_base64_event
         = Raise (mkExc BinasciiError (u "Incorrect padding"))
      /\ (BinasciiError = TypeError \/ BinasciiError = ValueError
          \/ BinasciiError = BinasciiError \/ BinasciiError = RecursionError))
  \/ (@nil call = [] /\ BinasciiError = AttributeError
      /\ exists body,
           _parse_event_body some_world bad_base64_event = Return body
           /\ topic_of body
              = Raise (mkExc BinasciiError (u "Incorrect padding"))).
Proof.
  apply (handler_escaping_exceptions some_world bad_base64_event PNone).
  vm_compute. reflexivity.
Defined.

(** X3: a 200 response means the work was done: a non-empty topic was
    extracted from the body of this event, the model returned a non-empty
    text for it, the storage accepted the UTF-8 encoding of that text
    under the key of the topic, and these two requests, in this order, are
    all the handler sent; the response reports that key and the length and
    preview of that text. *)
Theorem handler_200_means_stored (w : World) (event : dict) (ctx : pyval)
    (r : response) (calls : list call) :
  run w event ctx = (Return r, calls) ->
  statusCode r = 200 ->
  exists body topic blog_text encoded,
    _parse_event_body w event = Return body
    /\ topic_of body = Return topic
    /\ topic <> [] /\ blog_text <> []
    /\ generate_blog w topic []
       = (Return blog_text, [InvokeModel (bedrock_request w topic)])
    /\ Codecs.utf8_encode 0 blog_text = Return encoded
    /\ put_object w (s3_request w (s3_key_of w topic) encoded) = Return tt
    /\ calls = [InvokeModel (bedrock_request w topic);
                PutObject (s3_request w (s3_key_of w topic) encoded)]
    /\ r = success w (s3_key_of w topic) (preview_of blog_text)
             (Z.of_nat (List.length blog_text)).
Proof.
  unfold run. revert r calls. pattern (lambda_handler w event ctx []).
  apply handler_outcomes; intros;
    match goal with
    | H : (Raise _, _) = (Return _, _) |- _ => discriminate H
    | H : (Return _, _) = (Return _, _) |- _ => injection H as <- <-
    end;
    try match goal with
        | H : statusCode _ = 200 |- _ => discriminate H
        end.
  match goal with
  | Hb : _parse_event_body _ _ = Return ?b,
    Hg : generate_blog _ ?t _ = (Return ?bt, _),
    He : Codecs.utf8_encode 0 _ = Return ?enc |- _ => exists b, t, bt, enc
  end.
  repeat split; assumption.
Qed.

Lemma handler_200_means_stored_witness :
  exists body topic blog_text encoded,
    _parse_event_body coffee_world coffee_event = Return body
    /\ topic_of body = Return topic
    /\ topic <> [] /\ blog_text <> []
    /\ generate_blog coffee_world topic []
       = (Return blog_text, [InvokeModel (bedrock_request coffee_world topic)])
    /\ Codecs.utf8_encode 0 blog_text = Return encoded
    /\ put_object coffee_world
         (s3_request coffee_world (s3_key_of coffee_world topic) encoded)
       = Return tt
    /\ snd (run coffee_world coffee_event PNone)
       = [InvokeModel (bedrock_request coffee_world topic);
          PutObject
            (s3_request coffee_world (s3_key_of coffee_world topic) encoded)]
    /\ success coffee_world
         (u "blogs/Coffee_2024-03-07T09-05-00Z.txt") coffee_text 26
       = success coffee_world (s3_key_of coffee_world topic)
           (preview_of blog_text) (Z.of_nat (List.length blog_text)).
Proof.
  apply (handler_200_means_stored coffee_world coffee_event PNone
           (success coffee_world
              (u "blogs/Coffee_2024-03-07T09-05-00Z.txt") coffee_text 26)
           (snd (run coffee_world coffee_event PNone)));
    vm_compute; reflexivity.
Defined.

(** X4: the handler sends nothing, or one request to the model, or one
    request to the model followed by one write to the storage under the
    key of the topic: it never writes without having called the model,
    never calls a service twice, and never calls one before the topic is
    known. *)
Theorem handler_call_discipline (w : World) (event : dict) (ctx : pyval) :
  snd (run w event ctx) = []
  \/ exists body topic,
       _parse_event_body w event = Return body
       /\ topic_of body = Return topic /\ topic <> []
       /\ (snd (run w event ctx) = [InvokeModel (bedrock_request w topic)]
           \/ exists encoded,
                snd (run w event ctx)
                = [InvokeModel (bedrock_request w topic);
                   PutObject (s3_request w (s3_key_of w topic) encoded)]).
Proof.
  unfold run. pattern (lambda_handler w event ctx []).
  apply handler_outcomes; intros; try (left; reflexivity);
    right;
    match goal with
    | Hb : _parse_event_body _ _ = Return ?b,
      Ht : topic_of _ = Return ?t |- _ => exists b, t
    end;
    repeat split; try assumption; try (left; reflexivity); right;
    match goal with
    | He : Codecs.utf8_encode 0 _ = Return ?enc |- _ => exists enc
    end;
    reflexivity.
Qed.

(** X5: once the body is decoded and the topic extracted, the response is
    400 exactly when the topic is empty. *)
Theorem handler_400_iff_no_topic (w : World) (event : dict)
    (ctx body : pyval) (topic : str) (r : response) (calls : list call) :
  _parse_event_body w event = Return body ->
  topic_of body = Return topic ->
  run w event ctx = (Return r, calls) ->
  (statusCode r = 400 <-> topic = []).
Proof.
  intros Hb Ht. unfold run. revert r calls.
  pattern (lambda_handler w event ctx []).
  apply handler_outcomes; intros;
    match goal with
    | H : (Raise _, _) = (Return _, _) |- _ => discriminate H
    | H : (Return _, _) = (Return _, _) |- _ => injection H as <- _
    end;
    repeat match goal with
           | H : _parse_event_body w event = _ |- _ =>
               rewrite Hb in H; (discriminate H || injection H as <-)
           end;
    repeat match goal with
           | H : topic_of _ = _ |- _ =>
               rewrite Ht in H; (discriminate H || injection H as <-)
           end;
    split; try reflexivity; try discriminate;
    intros E; exfalso; auto.
Qed.

Lemma handler_400_iff_no_topic_witness :
  statusCode missing_topic = 400 <-> @nil Z = [].
Proof.
  apply (handler_400_iff_no_topic some_world blank_topic_event PNone
           (PDict [(u "blogstopic", PStr (u "   "))]) [] missing_topic []);
    vm_compute; reflexivity.
Defined.

(** X6: the topic the handler works with is trimmed on both sides: when
    [topic_of] returns, its result starts and ends with no whitespace, and
    trimming it again changes nothing.  This is the text that goes into the
    prompt and the storage key. *)
Theorem topic_is_trimmed (body : pyval) (topic : str) :
  topic_of body = Return topic ->
  lstrip topic = topic /\ rstrip topic = topic /\ strip topic = topic.
Proof.
  unfold topic_of. intros H.
  assert (Ht : lstrip topic = topic /\ rstrip topic = topic).
  { destruct (method_get body (u "blogstopic")) as [first|e];
      [|discriminate]. cbn [bind] in H.
    destruct (truthy first).
    - cbn [bind] in H. now apply (method_strip_trimmed first).
    - destruct (method_get body (u "topic")) as [second|e];
        [|discriminate]. cbn [bind] in H.
      now apply (method_strip_trimmed (py_or second (PStr []))). }
  destruct Ht as [Hl Hr]. repeat split; try assumption.
  unfold strip. now rewrite Hl.
Qed.

Lemma topic_is_trimmed_witness :
  lstrip (u "Tea time") = u "Tea time"
  /\ rstrip (u "Tea time") = u "Tea time"
  /\ strip (u "Tea time") = u "Tea time".
Proof.
  apply (topic_is_trimmed (PDict [(u "topic", PStr (u "  Tea time  "))])).
  vm_compute. reflexivity.
Defined.

(** X7: the text [generate_blog] returns is trimmed on both sides, so the
    stored object, [length_chars] and the preview never count or show
    leading or trailing whitespace of the model's answer. *)
Theorem generated_text_is_trimmed (w : World) (topic text : str)
    (tr tr' : list call) :
  generate_blog w topic tr = (Return text, tr') ->
  lstrip text = text /\ rstrip text = text.
Proof.
  unfold generate_blog, iobind, perform, lift.
  destruct (invoke_model w (bedrock_request w topic)) as [raw|e];
    [|discriminate].
  destruct (Json.loads_bytes (limits w) (decode_wide w) raw) as [data|e];
    [|discriminate].
  destruct (method_get data (u "generation")) as [generation|e];
    [|discriminate].
  intros [= H _]. now apply (method_strip_trimmed _ _ H).
Qed.

Lemma generated_text_is_trimmed_witness :
  lstrip (u "padded") = u "padded" /\ rstrip (u "padded") = u "padded".
Proof.
  apply (generated_text_is_trimmed
           (mock_world (uq "{'generation': '  padded\n '}")
              (mkDatetime 2024 3 7 9 5 0))
           (u "x") (u "padded") []
           [InvokeModel
              (bedrock_request
                 (mock_world (uq "{'generation': '  padded\n '}")
                    (mkDatetime 2024 3 7 9 5 0)) (u "x"))]).
  vm_compute. reflexivity.
Defined.

(** X8: whatever the topic, the storage key is [blogs/] followed by a file
    name without any further [/]: the object lands directly under the
    [blogs/] prefix.  The name starts with the sanitized topic, which is
    never empty and holds only alphanumeric characters, [-] and [_]. *)
Theorem storage_key_stays_under_prefix (w : World) (topic : str) :
  safe_topic_of w topic <> []
  /\ Forall (fun c => isalnum (ucd_isalnum w) c = true
                      \/ c = ch "-" \/ c = ch "_") (safe_topic_of w topic)
  /\ exists name,
       s3_key_of w topic = u "blogs/" ++ name
       /\ name = safe_topic_of w topic ++ u "_" ++ timestamp w ++ u ".txt"
       /\ Forall no_slash name.
Proof.
  pose proof (safe_topic_kept w topic) as Hkept.
  split; [|split].
  - unfold safe_topic_of.
    destruct (strip (filter (keep_in_key w) topic)); discriminate.
  - apply Forall_impl with (2 := Hkept). intros c Hc.
    unfold keep_in_key in Hc.
    apply orb_prop in Hc as [Hc|Hc]; [apply orb_prop in Hc as [Hc|Hc]|].
    + now left.
    + right. left. now apply Z.eqb_eq.
    + right. right. now apply Z.eqb_eq.
  - exists (safe_topic_of w topic ++ u "_" ++ timestamp w ++ u ".txt").
    split; [reflexivity|]. split; [reflexivity|].
    apply Forall_app. split.
    + apply Forall_impl with (2 := Hkept). intros c.
      apply keep_in_key_no_slash.
    + apply Forall_app. split; [repeat constructor; discriminate|].
      apply Forall_app. split; [apply timestamp_no_slash|].
      repeat constructor; discriminate.
Qed.

(** X9: the preview has at most 203 characters and never more than the
    text plus three; it starts with the first 200 characters of the text. *)
Theorem preview_is_bounded (blog_text : str) :
  (List.length (preview_of blog_text) <= 203)%nat
  /\ (List.length (preview_of blog_text) <= List.length blog_text + 3)%nat
  /\ firstn 200 (preview_of blog_text) = firstn 200 blog_text.
Proof.
  unfold preview_of.
  destruct (Nat.ltb_spec 200 (List.length blog_text)) as [Hlong|Hshort].
  - rewrite length_app, length_firstn.
    change (List.length (u "...")) with 3%nat. repeat split; try lia.
    rewrite firstn_app, length_firstn.
    replace (200 - Nat.min 200 (List.length blog_text))%nat with 0%nat by lia.
    rewrite firstn_firstn. cbn [firstn]. rewrite app_nil_r.
    now rewrite Nat.min_id.
  - rewrite app_nil_r, length_firstn. repeat split; try lia.
    now rewrite firstn_firstn, Nat.min_id.
Qed.

(** X10: [_parse_event_body] raises only in three situations, and never a
    [JSONDecodeError] or a [UnicodeDecodeError]: the body is not a string
    ([TypeError]); the body is announced as base64 and [b64decode] rejects
    it ([binascii.Error], or [ValueError] for a non-ASCII character);
    [json.loads] meets a limit of the interpreter ([RecursionError], or
    [ValueError] for an int with too many digits). *)
Theorem parse_event_body_exceptions (w : World) (event : dict) (e : exc) :
  _parse_event_body w event = Raise e ->
  exists body_str,
    dict_lookup event (u "body") = Some body_str
    /\ body_str <> PNone
    /\ ((exc_cls e = TypeError /\ forall s, body_str <> PStr s)
        \/ (exists s, body_str = PStr s
                      /\ truthy (dict_get event (u "isBase64Encoded")) = true
                      /\ Base64.b64decode_str s = Raise e
                      /\ (exc_cls e = ValueError \/ exc_cls e = BinasciiError))
        \/ (exists s, body_str = PStr s
                      /\ (exc_cls e = RecursionError
                          \/ exc_cls e = ValueError))).
Proof. exact (parse_event_body_raises w event e). Qed.

Lemma parse_event_body_exceptions_witness :
  exists body_str,
    dict_lookup bad_base64_event (u "body") = Some body_str
    /\ body_str <> PNone
    /\ ((BinasciiError = TypeError /\ forall s, body_str <> PStr s)
        \/ (exists s, body_str = PStr s
                      /\ truthy (dict_get bad_base64_event
                                   (u "isBase64Encoded")) = true
                      /\ Base64.b64decode_str s
                         = Raise (mkExc BinasciiError (u "Incorrect padding"))
                      /\ (BinasciiError = ValueError
                          \/ BinasciiError = BinasciiError))
        \/ (exists s, body_str = PStr s
                      /\ (BinasciiError = RecursionError
                          \/ BinasciiError = ValueError))).
Proof.
  apply (parse_event_body_exceptions some_world bad_base64_event
           (mkExc BinasciiError (u "Incorrect padding"))).
  vm_compute. reflexivity.
Defined.

(** X11: what [save_blog_to_s3] has stored can be read back: when it
    returns, it has sent one request, to the configured bucket, under the
    given key, declared as UTF-8 plain text, and decoding the body of
    that request as UTF-8 gives the text; the body has between one and
    four bytes per character. *)
Theorem stored_text_reads_back (w : World) (key content : str)
    (tr tr' : list call) :
  is_text content = true ->
  save_blog_to_s3 w key content tr = (Return tt, tr') ->
  exists request,
    tr' = tr ++ [PutObject request]
    /\ po_Bucket request = S3_BUCKET w
    /\ po_Key request = key
    /\ po_ContentType request = u "text/plain; charset=utf-8"
    /\ Codecs.utf8_decode Codecs.Strict 0 (po_Body request) = Return content
    /\ (List.length content <= List.length (po_Body request)
        <= 4 * List.length content)%nat.
Proof.
  intros Htext Hsave.
  destruct (save_blog_to_s3_calls w key content tr)
    as [[_ [e He]] | [encoded [Henc Hsent]]].
  - rewrite Hsave in He. discriminate.
  - rewrite Hsave in Hsent. injection Hsent as _ ->.
    exists (s3_request w key encoded). cbn [s3_request po_Bucket po_Key
      po_ContentType po_Body].
    repeat split; try reflexivity.
    + exact (utf8_decode_encode Codecs.Strict content Htext 0 0 encoded Henc).
    + apply (utf8_encode_length content 0 encoded Henc).
    + apply (utf8_encode_length content 0 encoded Henc).
Qed.

Lemma stored_text_reads_back_witness :
  exists request,
    [PutObject (s3_request some_world (u "blogs/a.txt")
                  [0x63; 0x61; 0x66; 0xC3; 0xA9])]
    = [] ++ [PutObject request]
    /\ po_Bucket request = S3_BUCKET some_world
    /\ po_Key request = u "blogs/a.txt"
    /\ po_ContentType request = u "text/plain; charset=utf-8"
    /\ Codecs.utf8_decode Codecs.Strict 0 (po_Body request)
       = Return [0x63; 0x61; 0x66; 0xE9]
    /\ (List.length [0x63; 0x61; 0x66; 0xE9] <= List.length (po_Body request)
        <= 4 * List.length [0x63; 0x61; 0x66; 0xE9])%nat.
Proof.
  apply (stored_text_reads_back some_world (u "blogs/a.txt")
           [0x63; 0x61; 0x66; 0xE9] []).
  - reflexivity.
  - reflexivity.
Defined.

(** X12: a generated text with a lone surrogate (the model's JSON may
    hold one, as an escape) is not stored: [encode] raises
    [UnicodeEncodeError] before any request to the storage, and the
    handler answers 502 with that error, having called the model only. *)
Theorem surrogate_text_is_not_stored (w : World) (event : dict)
    (ctx body : pyval) (topic blog_text : str) (calls : list call) :
  _parse_event_body w event = Return body ->
  topic_of body = Return topic ->
  topic <> [] ->
  generate_blog w topic [] = (Return blog_text, calls) ->
  existsb Codecs.is_surrogate blog_text = true ->
  s3_client w = Return tt ->
  exists e,
    Codecs.utf8_encode 0 blog_text = Raise e
    /\ exc_cls e = UnicodeEncodeError
    /\ run w event ctx
       = (Return (_error (u "Failed to save to S3: " ++ exc_str e) 502),
          [InvokeModel (bedrock_request w topic)]).
Proof.
  intros Hb Ht Hne Hg Hsur Hc.
  destruct (utf8_encode_surrogate blog_text Hsur 0) as [e [He Hcls]].
  exists e. split; [exact He|]. split; [exact Hcls|].
  pose proof (generate_blog_calls w topic []) as Hcalls.
  rewrite Hg in Hcalls. cbn [snd app] in Hcalls. subst calls.
  unfold run. rewrite (handler_with_topic w event ctx body topic [] Hb Ht Hne).
  unfold try_except_Exception at 1. rewrite Hg.
  destruct blog_text as [|b bt]; [discriminate|].
  unfold try_except_Exception, save_blog_to_s3, iobind, lift.
  rewrite Hc, He. unfold is_Exception. rewrite Hcls. reflexivity.
Qed.

Lemma surrogate_text_is_not_stored_witness :
  exists e,
    Codecs.utf8_encode 0 [0xD83D] = Raise e
    /\ exc_cls e = UnicodeEncodeError
    /\ run (mock_world (uq "{'generation': '\ud83d'}")
              (mkDatetime 2024 3 7 9 5 0)) coffee_event PNone
       = (Return (_error (u "Failed to save to S3: " ++ exc_str e) 502),
          [InvokeModel
             (bedrock_request
                (mock_world (uq "{'generation': '\ud83d'}")
                   (mkDatetime 2024 3 7 9 5 0)) (u "Coffee!!"))]).
Proof.
  apply (surrogate_text_is_not_stored
           (mock_world (uq "{'generation': '\ud83d'}")
              (mkDatetime 2024 3 7 9 5 0))
           coffee_event PNone
           (PDict [(u "blogstopic", PStr (u "Coffee!!"))])
           (u "Coffee!!") [0xD83D]
           [InvokeModel
              (bedrock_request
                 (mock_world (uq "{'generation': '\ud83d'}")
                    (mkDatetime 2024 3 7 9 5 0)) (u "Coffee!!"))]).
  - vm_compute. reflexivity.
  - vm_compute. reflexivity.
  - discriminate.
  - vm_compute. reflexivity.
  - reflexivity.
  - reflexivity.
Defined.

(** X13: the body of an error response is a JSON object with the one
    field [error], which holds the message as it is, whatever characters
    the message has (quotes, backslashes, line feeds, characters beyond
    ASCII). *)
Theorem error_body_reads_back (lim : Json.limits) (message : str)
    (status : Z) :
  Json.recursion_limit lim <> 0%nat ->
  plain message = true ->
  Json.loads_str lim (body (_error message status))
  = Return (PDict [(u "error", PStr message)]).
Proof.
  intros Hlim Hm. unfold _error, _ok. cbn [body].
  apply loads_dumps.
  - destruct (Json.recursion_limit lim); [now elim Hlim | lia].
  - now repeat constructor.
  - apply keys_distinct. reflexivity.
  - read_fields. now apply reads_as_string.
Qed.

Lemma error_body_reads_back_witness :
  Json.loads_str (Json.mkLimits 1000 4300)
    (body (_error (uq "no 'quotes' \ here") 502))
  = Return (PDict [(u "error", PStr (uq "no 'quotes' \ here"))]).
Proof.
  apply (error_body_reads_back (Json.mkLimits 1000 4300)
           (uq "no 'quotes' \ here") 502).
  - discriminate.
  - reflexivity.
Defined.

(** X14: the body of the success response is a JSON object with the five
    fields [message], [s3_bucket], [s3_key], [length_chars] and [preview],
    in this order, holding the values the handler put there. *)
Theorem success_body_reads_back (w : World) (lim : Json.limits)
    (s3_key preview : str) (n : Z) :
  Json.recursion_limit lim <> 0%nat ->
  plain (S3_BUCKET w) = true ->
  plain s3_key = true ->
  plain preview = true ->
  0 <= n < 2 ^ 640 ->
  Json.loads_str lim (body (success w s3_key preview n))
  = Return (PDict [(u "message", PStr (u "Blog generated and saved."));
                   (u "s3_bucket", PStr (S3_BUCKET w));
                   (u "s3_key", PStr s3_key);
                   (u "length_chars", PInt n);
                   (u "preview", PStr preview)]).
Proof.
  intros Hlim Hb Hk Hp Hn. unfold success, _ok. cbn [body].
  apply loads_dumps.
  - destruct (Json.recursion_limit lim); [now elim Hlim | lia].
  - now repeat constructor.
  - apply keys_distinct. reflexivity.
  - read_fields; try (now apply reads_as_string).
    apply reads_as_int. unfold small_int.
    apply andb_true_intro. split; [apply Z.leb_le | apply Z.ltb_lt]; lia.
Qed.

Lemma success_body_reads_back_witness :
  Json.loads_str (Json.mkLimits 1000 4300)
    (body (success coffee_world (u "blogs/Coffee_2024-03-07T09-05-00Z.txt")
             coffee_text 26))
  = Return (PDict [(u "message", PStr (u "Blog generated and saved."));
                   (u "s3_bucket", PStr (S3_BUCKET coffee_world));
                   (u "s3_key",
                    PStr (u "blogs/Coffee_2024-03-07T09-05-00Z.txt"));
                   (u "length_chars", PInt 26);
                   (u "preview", PStr coffee_text)]).
Proof.
  apply (success_body_reads_back coffee_world (Json.mkLimits 1000 4300)
           (u "blogs/Coffee_2024-03-07T09-05-00Z.txt") coffee_text 26).
  - discriminate.
  - reflexivity.
  - reflexivity.
  - reflexivity.
  - split; [discriminate | reflexivity].
Defined.

(** X15: whatever the topic, the request sent to the model has a body that
    is a JSON object with the four fields [prompt], [max_gen_len],
    [temperature] and [top_p]; the prompt is the instruction text around
    the topic as it is, so no character of the topic can end the string or
    add a field; the three parameters are 512, 0.5 and 0.9. *)
Theorem bedrock_request_reads_back (w : World) (lim : Json.limits)
    (topic : str) :
  Json.recursion_limit lim <> 0%nat ->
  plain topic = true ->
  Json.loads_str lim (im_body (bedrock_request w topic))
  = Return (PDict [(u "prompt",
                    PStr (u "<s>[INST]Human: Write a ~250-word blog on the topic: "
                            ++ topic ++ u ". Assistant:[/INST]"));
                   (u "max_gen_len", PInt 512);
                   (u "temperature", PFloat float_half);
                   (u "top_p", PFloat float_nine_tenths)])
  /\ im_modelId (bedrock_request w topic) = BEDROCK_MODEL_ID w
  /\ im_accept (bedrock_request w topic) = u "application/json"
  /\ im_contentType (bedrock_request w topic) = u "application/json".
Proof.
  intros Hlim Ht. split; [|now repeat split].
  unfold bedrock_request. cbn [im_body].
  apply loads_dumps.
  - destruct (Json.recursion_limit lim); [now elim Hlim | lia].
  - now repeat constructor.
  - apply keys_distinct. reflexivity.
  - read_fields.
    + apply reads_as_string. unfold prompt_of.
      rewrite !plain_app, Ht. reflexivity.
    + now apply reads_as_int.
    + apply reads_as_half.
    + apply reads_as_nine_tenths.
Qed.

Lemma bedrock_request_reads_back_witness :
  Json.loads_str (Json.mkLimits 1000 4300)
    (im_body (bedrock_request some_world (uq "'}, {'x': 1")))
  = Return (PDict [(u "prompt",
                    PStr (u "<s>[INST]Human: Write a ~250-word blog on the topic: "
                            ++ uq "'}, {'x': 1" ++ u ". Assistant:[/INST]"));
                   (u "max_gen_len", PInt 512);
                   (u "temperature", PFloat float_half);
                   (u "top_p", PFloat float_nine_tenths)])
  /\ im_modelId (bedrock_request some_world (uq "'}, {'x': 1"))
     = BEDROCK_MODEL_ID some_world
  /\ im_accept (bedrock_request some_world (uq "'}, {'x': 1"))
     = u "application/json"
  /\ im_contentType (bedrock_request some_world (uq "'}, {'x': 1"))
     = u "application/json".
Proof.
  apply (bedrock_request_reads_back some_world (Json.mkLimits 1000 4300)
           (uq "'}, {'x': 1")).
  - discriminate.
  - reflexivity.
Defined.

(** X16: a topic that is not a string makes the handler raise, not
    answer 400: when the value the topic is taken from (the field
    [blogstopic], or [topic] when that one is missing or falsy) is truthy
    and not a string, a number or a list say, the [AttributeError] of its
    missing [strip] leaves the handler, and no service is called. *)
Theorem nonstring_topic_escapes (w : World) (event : dict) (ctx : pyval)
    (d : dict) (v : pyval) :
  _parse_event_body w event = Return (PDict d) ->
  py_or (dict_get d (u "blogstopic")) (dict_get d (u "topic")) = v ->
  truthy v = true ->
  (forall s, v <> PStr s) ->
  run w event ctx
  = (Raise (mkExc AttributeError
              (u "'" ++ type_name v
                 ++ u "' object has no attribute 'strip'")), []).
Proof.
  intros Hb Hv Ht Hns.
  assert (Htopic : topic_of (PDict d) = method_strip v).
  { unfold topic_of, method_get. cbn [bind]. unfold py_or in Hv.
    destruct (truthy (dict_get d (u "blogstopic"))) eqn:E.
    - now subst v.
    - cbn [bind]. unfold py_or. subst v. now rewrite Ht. }
  unfold run, lambda_handler, iobind, lift. rewrite Hb, Htopic.
  destruct v; try reflexivity. now elim (Hns s).
Qed.

Lemma nonstring_topic_escapes_witness :
  run some_world [(u "body", PStr (uq "{'blogstopic': 0, 'topic': [1]}"))]
    PNone
  = (Raise (mkExc AttributeError
              (u "'" ++ type_name (PList [PInt 1])
                 ++ u "' object has no attribute 'strip'")), []).
Proof.
  apply (nonstring_topic_escapes some_world
           [(u "body", PStr (uq "{'blogstopic': 0, 'topic': [1]}"))] PNone
           [(u "blogstopic", PInt 0); (u "topic", PList [PInt 1])]
           (PList [PInt 1])).
  - vm_compute. reflexivity.
  - reflexivity.
  - reflexivity.
  - discriminate.
Defined.

(** X17: whatever bytes the model returns, no exception of reading them
    leaves the handler: when the model call has returned and
    [generate_blog] raises all the same (the answer is not UTF-8, not
    JSON, not an object, or its [generation] is not a string), what it
    raises is an [Exception], and the handler answers 502 with
    "Error generating blog: " and the text of the exception, after the one
    call of the model. *)
Theorem model_answer_never_escapes (w : World) (event : dict)
    (ctx body : pyval) (topic : str) (raw : bytes) (e : exc)
    (calls : list call) :
  _parse_event_body w event = Return body ->
  topic_of body = Return topic ->
  topic <> [] ->
  invoke_model w (bedrock_request w topic) = Return raw ->
  (forall enc data e',
     decode_wide w enc data = Raise e' -> is_Exception e' = true) ->
  generate_blog w topic [] = (Raise e, calls) ->
  is_Exception e = true
  /\ run w event ctx
     = (Return (_error (u "Error generating blog: " ++ exc_str e) 502),
        [InvokeModel (bedrock_request w topic)]).
Proof.
  intros Hb Ht Hne Hraw Hwide Hg.
  assert (Hexc : is_Exception e = true).
  { revert Hg. unfold generate_blog, iobind, perform, lift. rewrite Hraw.
    destruct (Json.loads_bytes (limits w) (decode_wide w) raw)
      as [data|e1] eqn:Hl.
    - destruct (method_get data (u "generation")) as [generation|e2] eqn:Hm.
      + destruct (method_strip (py_or generation (PStr []))) as [t|e3] eqn:Hs;
          [discriminate|].
        intros [= <- _].
        destruct (py_or generation (PStr [])); try discriminate;
          now injection Hs as <-.
      + intros [= <- _]. destruct data; try discriminate;
          now injection Hm as <-.
    - intros [= <- _]. exact (loads_bytes_raises _ _ _ _ Hwide Hl). }
  split; [exact Hexc|].
  pose proof (generate_blog_calls w topic []) as Hcalls.
  rewrite Hg in Hcalls. cbn [snd app] in Hcalls. subst calls.
  unfold run. rewrite (handler_with_topic w event ctx body topic [] Hb Ht Hne).
  unfold try_except_Exception. rewrite Hg, Hexc. reflexivity.
Qed.

Lemma model_answer_never_escapes_witness :
  is_Exception
    (mkExc JSONDecodeError (u "Expecting value: line 1 column 1 (char 0)"))
  = true
  /\ run (mock_world (u "<html>") (mkDatetime 2024 3 7 9 5 0))
       coffee_event PNone
     = (Return
          (_error
             (u "Error generating blog: "
                ++ exc_str
                     (mkExc JSONDecodeError
                        (u "Expecting value: line 1 column 1 (char 0)")))
             502),
        [InvokeModel
           (bedrock_request
              (mock_world (u "<html>") (mkDatetime 2024 3 7 9 5 0))
              (u "Coffee!!"))]).
Proof.
  apply (model_answer_never_escapes
           (mock_world (u "<html>") (mkDatetime 2024 3 7 9 5 0))
           coffee_event PNone
           (PDict [(u "blogstopic", PStr (u "Coffee!!"))])
           (u "Coffee!!") (u "<html>")
           (mkExc JSONDecodeError
              (u "Expecting value: line 1 column 1 (char 0)"))
           [InvokeModel
              (bedrock_request
                 (mock_world (u "<html>") (mkDatetime 2024 3 7 9 5 0))
                 (u "Coffee!!"))]).
  - vm_compute. reflexivity.
  - vm_compute. reflexivity.
  - discriminate.
  - reflexivity.
  - intros enc data e' H. injection H as <-. reflexivity.
  - vm_compute. reflexivity.
Defined.

(** X18: the headers of [_ok]: without extra headers the only header is
    [Content-Type: application/json]; with extra headers, each header
    reads as the extra headers give it (the later entry for a name
    repeated), [Content-Type] among them, and the default
    [Content-Type] stays when they do not name it.  The status and the
    body do not depend on the headers. *)
Theorem ok_headers_override (b : list (str * Json.jvalue)) (status : Z)
    (extra : list (str * str)) (k : str) :
  headers (_ok b status None) = [(u "Content-Type", u "application/json")]
  /\ dict_lookup (headers (_ok b status (Some extra))) k
     = match dict_lookup (rev extra) k with
       | Some v => Some v
       | None => dict_lookup [(u "Content-Type", u "application/json")] k
       end
  /\ statusCode (_ok b status (Some extra)) = status
  /\ body (_ok b status (Some extra)) = body (_ok b status None).
Proof.
  split; [reflexivity|]. split; [|split; reflexivity].
  unfold _ok, merge_headers. cbn [headers].
  apply dict_lookup_update.
Qed.

(** X19: sanitizing is idempotent: the sanitized topic is made of kept
    characters only and is trimmed, so sanitizing it again gives it
    back. *)
Theorem safe_topic_idempotent (w : World) (topic : str) :
  safe_topic_of w (safe_topic_of w topic) = safe_topic_of w topic.
Proof.
  pose proof (safe_topic_kept w topic) as Hkept.
  assert (Hne : safe_topic_of w topic <> []).
  { unfold safe_topic_of.
    destruct (strip (filter (keep_in_key w) topic)); discriminate. }
  assert (Htrim : strip (safe_topic_of w topic) = safe_topic_of w topic).
  { unfold safe_topic_of.
    destruct (strip (filter (keep_in_key w) topic)) as [|c r] eqn:E;
      [reflexivity|].
    rewrite <- E. apply strip_idempotent. }
  unfold safe_topic_of at 1. rewrite (filter_kept _ _ _ Hkept), Htrim.
  destruct (safe_topic_of w topic); [now elim Hne | reflexivity].
Qed.

(** X20: the storage key tells two requests apart by the kept characters
    of the topic only (and the second of the clock): topics with the same
    letters, digits, hyphens and underscores in the same order, which
    differ in spaces or punctuation say, get the same key, so the later
    text replaces the earlier one; and two topics get the same key exactly
    when their sanitized forms are equal. *)
Theorem storage_key_collisions (w : World) (topic1 topic2 : str) :
  (filter (keep_in_key w) topic1 = filter (keep_in_key w) topic2 ->
   s3_key_of w topic1 = s3_key_of w topic2)
  /\ (s3_key_of w topic1 = s3_key_of w topic2
      <-> safe_topic_of w topic1 = safe_topic_of w topic2).
Proof.
  split; [|split].
  - intros H. unfold s3_key_of, safe_topic_of. now rewrite H.
  - unfold s3_key_of. intros H.
    apply app_inv_head in H. now apply app_inv_tail in H.
  - unfold s3_key_of. now intros ->.
Qed.

Lemma storage_key_collisions_witness :
  s3_key_of some_world (u "Tea time!") = s3_key_of some_world (u "Teatime?").
Proof.
  apply (storage_key_collisions some_world (u "Tea time!") (u "Teatime?")).
  reflexivity.
Defined.
